(** * ui-backend: the request pipeline of [internal/server]

    A shallow embedding of the HTTP handlers of the ui-backend server
    (token extraction, delegated permission checks, cluster filtering,
    pagination parameters) together with the parts of the Go standard
    library, gin and apimachinery they rely on.

    A handler is a function on the gin context and on the list of calls it
    has made to its collaborators (API server, inventory manager); the
    answers of the collaborators are fields of the manager [instance].
    Logging has no effect on the response and is left out; so is the
    listen loop of [start], of which only the route table is kept. *)

From Stdlib Require Import ZArith String Ascii Bool Lia.
From stdpp Require Import base option list gmap strings fin_maps.

Local Open Scope string_scope.
Local Open Scope Z_scope.

(** ** Go values *)

(** A Go [error].  [errorString] is what [errors.New] builds, [NumError]
    is strconv's parse failure, [StatusError] stands for whatever a
    Kubernetes client or the inventory manager hands back. *)
Inductive NumErr : Type := ErrSyntax | ErrRange.

Inductive error : Type :=
| errorString (msg : string)
| NumError (fn num : string) (e : NumErr)
| StatusError (reason : string).

(** The value of a byte of a Go string. *)
Definition byte_val (c : ascii) : Z := Z.of_N (N_of_ascii c).

(** ** package strings *)
Module strings.

Fixpoint HasPrefix (s prefix : string) {struct prefix} : bool :=
  match prefix with
  | EmptyString => true
  | String p prefix' =>
      match s with
      | EmptyString => false
      | String c s' => if Ascii.eqb c p then HasPrefix s' prefix' else false
      end
  end.

(** [strings.Contains(s, substr)]: [substr] occurs at some byte offset
    of [s]. *)
Fixpoint Contains (s substr : string) : bool :=
  HasPrefix s substr ||
  match s with
  | EmptyString => false
  | String _ s' => Contains s' substr
  end.

(** [s[n:]] for a constant [n]: Go panics with "slice bounds out of
    range" when [n > len(s)]; [None] is that panic. *)
Fixpoint slice_from (n : nat) (s : string) : option string :=
  match n with
  | O => Some s
  | S n' =>
      match s with
      | EmptyString => None
      | String _ s' => slice_from n' s'
      end
  end.

(** *** UTF-8 decoding, as [for _, r := range s] and
    [utf8.DecodeRuneInString] do it.  An invalid or truncated sequence
    yields [RuneError] and consumes one byte. *)
Definition RuneSelf : Z := 128.
Definition RuneError : Z := 65533.

Definition bytes3 (s : string) : option ascii * option ascii * option ascii :=
  match s with
  | EmptyString => (None, None, None)
  | String a EmptyString => (Some a, None, None)
  | String a (String b EmptyString) => (Some a, Some b, None)
  | String a (String b (String c _)) => (Some a, Some b, Some c)
  end.

Definition in_range (lo hi : Z) (o : option ascii) : option Z :=
  match o with
  | Some c => let b := byte_val c in
              if (lo <=? b) && (b <=? hi) then Some b else None
  | None => None
  end.

Definition drop_bytes (n : nat) (s : string) : string :=
  default EmptyString (slice_from n s).

(** First rune of the non-empty string [String c0 rest] and the rest of
    the string after it. *)
Definition DecodeRune (c0 : ascii) (rest : string) : Z * string :=
  let b0 := byte_val c0 in
  let '(o1, o2, o3) := bytes3 rest in
  let bad := (RuneError, rest) in
  if b0 <? RuneSelf then (b0, rest)
  else if (194 <=? b0) && (b0 <=? 223) then
    match in_range 128 191 o1 with
    | Some b1 => ((b0 - 192) * 64 + (b1 - 128), drop_bytes 1 rest)
    | None => bad
    end
  else if (224 <=? b0) && (b0 <=? 239) then
    let lo := if b0 =? 224 then 160 else 128 in
    let hi := if b0 =? 237 then 159 else 191 in
    match in_range lo hi o1, in_range 128 191 o2 with
    | Some b1, Some b2 =>
        ((b0 - 224) * 4096 + (b1 - 128) * 64 + (b2 - 128), drop_bytes 2 rest)
    | _, _ => bad
    end
  else if (240 <=? b0) && (b0 <=? 244) then
    let lo := if b0 =? 240 then 144 else 128 in
    let hi := if b0 =? 244 then 143 else 191 in
    match in_range lo hi o1, in_range 128 191 o2, in_range 128 191 o3 with
    | Some b1, Some b2, Some b3 =>
        ((b0 - 240) * 262144 + (b1 - 128) * 4096 + (b2 - 128) * 64 + (b3 - 128),
         drop_bytes 3 rest)
    | _, _, _ => bad
    end
  else bad.

(** [unicode.SimpleFold] on the orbits that meet ASCII:
    K -> k -> U+212A (Kelvin sign) -> K, S -> s -> U+017F (long s) -> S,
    and X -> x -> X for the other letters.  Every other rune of these
    orbits-free ranges is its own orbit; runes outside ASCII and these
    two are not needed by [EqualFold] against an ASCII string and are
    left fixed. *)
Definition SimpleFold (r : Z) : Z :=
  if r =? 75 then 107
  else if r =? 107 then 8490
  else if r =? 8490 then 75
  else if r =? 83 then 115
  else if r =? 115 then 383
  else if r =? 383 then 83
  else if (65 <=? r) && (r <=? 90) then r + 32
  else if (97 <=? r) && (r <=? 122) then r - 32
  else r.

(** [for r != sr && r < tr { r = unicode.SimpleFold(r) }], the orbits
    above have at most three elements. *)
Fixpoint fold_until (fuel : nat) (sr tr r : Z) : Z :=
  match fuel with
  | O => r
  | S fuel' =>
      if negb (r =? sr) && (r <? tr) then fold_until fuel' sr tr (SimpleFold r)
      else r
  end.

(** One iteration of the loops of [strings.EqualFold] on the runes
    [sr] (of [s]) and [tr] (of [t]). *)
Definition rune_fold_eq (sr tr : Z) : bool :=
  if tr =? sr then true
  else
    let '(sr, tr) := if tr <? sr then (tr, sr) else (sr, tr) in
    if tr <? RuneSelf then
      (65 <=? sr) && (sr <=? 90) && (tr =? sr + 32)
    else
      fold_until 3 sr tr (SimpleFold sr) =? tr.

(** [strings.EqualFold(s, t)] for a [t] of ASCII bytes, which is how
    the server calls it (with the cluster type literals): each rune of
    [s] is compared with the next byte of [t] under simple case
    folding; both strings must be exhausted together. *)
Fixpoint EqualFold (s t : string) {struct t} : bool :=
  match t with
  | EmptyString => match s with EmptyString => true | _ => false end
  | String tc t' =>
      match s with
      | EmptyString => false
      | String sc s' =>
          let '(sr, s_rest) := DecodeRune sc s' in
          if rune_fold_eq sr (byte_val tc) then EqualFold s_rest t' else false
      end
  end.

End strings.

(** ** package strconv *)
Module strconv.

Definition maxUint64 : Z := 2 ^ 64 - 1.

(** The loop of [ParseUint(s, 10, 64)] from the accumulator [n]:
    a byte that is not a decimal digit is a syntax error, an overflow is
    reported as soon as it happens with the value [maxUint64]. *)
Fixpoint ParseUint_loop (s : string) (n : Z) : Z * option NumErr :=
  match s with
  | EmptyString => (n, None)
  | String c s' =>
      let b := byte_val c in
      if (48 <=? b) && (b <=? 57) then
        if maxUint64 / 10 + 1 <=? n then (maxUint64, Some ErrRange)
        else
          let n1 := n * 10 + (b - 48) in
          if maxUint64 <? n1 then (maxUint64, Some ErrRange)
          else ParseUint_loop s' n1
      else (0, Some ErrSyntax)
  end.

Definition ParseUint (s : string) : Z * option NumErr :=
  match s with
  | EmptyString => (0, Some ErrSyntax)
  | _ => ParseUint_loop s 0
  end.

(** [ParseInt(s, 10, 64)] *)
Definition ParseInt (s : string) : Z * option NumErr :=
  match s with
  | EmptyString => (0, Some ErrSyntax)
  | String c s' =>
      let neg := Ascii.eqb c "-" in
      let digits := if Ascii.eqb c "+" || neg then s' else s in
      let '(un, err) := ParseUint digits in
      match err with
      | Some ErrSyntax => (0, err)
      | _ =>
          let cutoff := 2 ^ 63 in
          if negb neg && (cutoff <=? un) then (cutoff - 1, Some ErrRange)
          else if neg && (cutoff <? un) then (- cutoff, Some ErrRange)
          else (if neg then - un else un, None)
      end
  end.

(** [strconv.Atoi] on a 64-bit platform.  Its fast path for short
    inputs computes what [ParseInt] computes.  As in Go the value comes
    back next to the error: 0 on a syntax error, the nearest bound on a
    range error. *)
Definition Atoi (s : string) : Z * option error :=
  let '(i64, err) := ParseInt s in
  (i64, (fun e => NumError "Atoi" s e) <$> err).

End strconv.

(** ** k8s.io/apimachinery/pkg/labels and pkg/selection *)
Module labels.

(** [labels.Set] *)
Abbreviation Set_ := (gmap string string).

Inductive Operator : Type :=
| DoesNotExist | Equals | DoubleEquals | In | NotEquals | NotIn | Exists
| GreaterThan | LessThan.

Record Requirement : Type := mkRequirement {
  key : string;
  operator : Operator;
  strValues : list string
}.

Definition Has (ls : Set_) (k : string) : bool := bool_decide (is_Some (ls !! k)).
Definition Get (ls : Set_) (k : string) : string := default EmptyString (ls !! k).

Definition hasValue (r : Requirement) (value : string) : bool :=
  existsb (String.eqb value) (strValues r).

(** [func (r *Requirement) Matches(ls Labels) bool] *)
Definition Requirement_Matches (r : Requirement) (ls : Set_) : bool :=
  match operator r with
  | In | Equals | DoubleEquals =>
      if negb (Has ls (key r)) then false else hasValue r (Get ls (key r))
  | NotIn | NotEquals =>
      if negb (Has ls (key r)) then true else negb (hasValue r (Get ls (key r)))
  | Exists => Has ls (key r)
  | DoesNotExist => negb (Has ls (key r))
  | GreaterThan | LessThan =>
      if negb (Has ls (key r)) then false
      else
        match strconv.ParseInt (Get ls (key r)) with
        | (_, Some _) => false
        | (lsValue, None) =>
            match strValues r with
            | [v] =>
                match strconv.ParseInt v with
                | (_, Some _) => false
                | (rValue, None) =>
                    match operator r with
                    | GreaterThan => rValue <? lsValue
                    | _ => lsValue <? rValue
                    end
                end
            | _ => false
            end
        end
  end.

(** [labels.Selector] as [labels.Parse] and [labels.NewSelector] build
    it: an [internalSelector], the list of its requirements. *)
Definition Selector : Type := list Requirement.

Definition Empty (s : Selector) : bool :=
  match s with [] => true | _ => false end.

(** [func (s internalSelector) Matches(l Labels) bool] *)
Fixpoint Matches (s : Selector) (l : Set_) : bool :=
  match s with
  | [] => true
  | r :: s' => if negb (Requirement_Matches r l) then false else Matches s' l
  end.

End labels.

(** ** The data of package server *)

(** [corev1.ObjectReference], the key of the cluster inventory. *)
Record ObjectReference : Type := mkObjectReference {
  Kind : string;
  Namespace : string;
  Name : string;
  UID : string;
  APIVersion : string;
  ResourceVersion : string;
  FieldPath : string
}.

#[global] Instance ObjectReference_eq_dec : EqDecision ObjectReference.
Proof. solve_decision. Defined.

#[global] Instance ObjectReference_countable : Countable ObjectReference.
Proof.
  refine (inj_countable'
    (fun r => (Kind r, Namespace r, Name r, UID r, APIVersion r,
               ResourceVersion r, FieldPath r))
    (fun t => let '(k, ns, n, u, a, rv, fp) := t in
              mkObjectReference k ns n u a rv fp) _).
  by intros [].
Defined.

(** [libsveltosv1beta1.ClusterType], a string type, with its two
    constants; the zero value is the empty string. *)
Definition ClusterType : Type := string.
Definition ClusterTypeCapi : ClusterType := "Capi".
Definition ClusterTypeSveltos : ClusterType := "Sveltos".

(** Modelled from the spec: the declaration of [ClusterInfo] is not part
    of the sources at hand; the spec gives it a label set, which is the
    only field the handlers read. *)
Record ClusterInfo : Type := mkClusterInfo {
  Labels : gmap string string
}.

(** One row of a cluster listing, as built in [getManagedClusterData]. *)
Record ManagedCluster : Type := mkManagedCluster {
  mc_Namespace : string;
  mc_Name : string;
  mc_ClusterInfo : ClusterInfo
}.

Abbreviation ManagedClusters := (list ManagedCluster).

Record clusterFilters : Type := mkClusterFilters {
  f_Namespace : string;
  f_name : string;
  f_labelSelector : labels.Selector
}.

(** Modelled from the spec: the declarations of the Helm release,
    resource and profile status rows are not part of the sources at hand;
    the spec names their identifying fields. *)
Record HelmReleaseInfo : Type := mkHelmReleaseInfo {
  hr_Namespace : string;
  hr_ReleaseName : string;
  hr_ChartVersion : string
}.

Record ResourceInfo : Type := mkResourceInfo {
  r_Group : string;
  r_Kind : string;
  r_Namespace : string;
  r_Name : string;
  r_Version : string
}.

Record FeatureStatus : Type := mkFeatureStatus {
  fs_FeatureID : string;
  fs_Failed : bool
}.

Record ClusterProfileStatus : Type := mkClusterProfileStatus {
  cps_ProfileName : string;
  cps_ClusterNamespace : string;
  cps_ClusterName : string;
  cps_Features : list FeatureStatus
}.

Record FlattenedStatus : Type := mkFlattenedStatus {
  fl_ProfileName : string;
  fl_ClusterNamespace : string;
  fl_ClusterName : string;
  fl_FeatureID : string;
  fl_Failed : bool
}.

(** [authorizationapi.ResourceAttributes] and the user of a
    [SubjectAccessReview]. *)
Record SubjectAccessReview : Type := mkSAR {
  sar_Verb : string;
  sar_Group : string;
  sar_Version : string;
  sar_Resource : string;
  sar_Namespace : string;
  sar_Name : string;
  sar_User : string
}.

(** ** gin *)

(** What a handler marshals into the response with [c.JSON]. *)
Inductive JSONValue : Type :=
| H_error (msg : string)
| ClusterResult (TotalClusters : Z) (ManagedClusters : list ManagedCluster)
| HelmReleaseResult (TotalHelmReleases : Z) (HelmReleases : list HelmReleaseInfo)
| ResourceResult (TotalResources : Z) (Resources : list ResourceInfo)
| H_profiles (totalResources : Z) (profiles : list FlattenedStatus).

(** The request as the handlers read it: [c.Query] and [c.GetHeader]
    give the first value of a key and the empty string when it is absent. *)
Record Request : Type := mkRequest {
  URL_Query : gmap string string;
  Header : gmap string string
}.

(** gin's [responseWriter].  [status] is the status code of the response:
    it can be changed until the header is written, the first write sends
    it, and what is set afterwards does not reach the client.  [body] is
    what has been written, one JSON value per [c.JSON]. *)
Record responseWriter : Type := mkWriter {
  status : Z;
  written : bool;
  body : list JSONValue
}.

Record Context : Type := mkContext {
  request : Request;
  Writer : responseWriter;
  aborted : bool;
  Errors : list error
}.

(** Calls that leave the process, in the order they are made. *)
Inductive Call : Type :=
| CallValidateToken (token : string)
| CallSelfSubjectReview (token : string)
| CallSubjectAccessReview (sar : SubjectAccessReview)
| CallManagedCAPIClusters (canListAll : bool) (user : string)
| CallManagedSveltosClusters (canListAll : bool) (user : string)
| CallHelmCharts (namespace name : string) (clusterType : ClusterType)
| CallResources (namespace name : string) (clusterType : ClusterType)
| CallProfileStatuses (namespace name : string) (clusterType : ClusterType).

Record State : Type := mkState {
  ctx : Context;
  calls : list Call
}.

(** A handler step: it reads and updates the gin context and the record
    of outgoing calls.  [None] as result is a Go panic unwinding the
    handler. *)
Definition M (A : Type) : Type := State -> option A * State.

Definition ret {A} (a : A) : M A := fun st => (Some a, st).
Definition panic {A} : M A := fun st => (None, st).
Definition bind {A B} (m : M A) (k : A -> M B) : M B :=
  fun st =>
    match m st with
    | (Some a, st') => k a st'
    | (None, st') => (None, st')
    end.

Notation "x <- m ;; k" := (bind m (fun x => k))
  (at level 100, m at next level, right associativity).
Notation "m ;;; k" := (bind m (fun _ => k))
  (at level 100, right associativity).

Definition StatusOK : Z := 200.
Definition StatusBadRequest : Z := 400.
Definition StatusUnauthorized : Z := 401.
Definition StatusInternalServerError : Z := 500.

Module gin.

Definition modify_ctx (f : Context -> Context) : M unit :=
  fun st => (Some tt, mkState (f (ctx st)) (calls st)).

Definition modify_writer (f : responseWriter -> responseWriter) : M unit :=
  modify_ctx (fun c => mkContext (request c) (f (Writer c)) (aborted c) (Errors c)).

Definition Query (k : string) : M string :=
  fun st => (Some (default EmptyString (URL_Query (request (ctx st)) !! k)), st).

Definition GetHeader (k : string) : M string :=
  fun st => (Some (default EmptyString (Header (request (ctx st)) !! k)), st).

(** [func (w *responseWriter) WriteHeader(code int)] *)
Definition WriteHeader (code : Z) (w : responseWriter) : responseWriter :=
  if (0 <? code) && negb (status w =? code) then
    if written w then w
    else mkWriter code (written w) (body w)
  else w.

(** [func (w *responseWriter) WriteHeaderNow()] *)
Definition WriteHeaderNow (w : responseWriter) : responseWriter :=
  if negb (written w) then mkWriter (status w) true (body w) else w.

(** [func (w *responseWriter) Write(data []byte)] *)
Definition Write (data : JSONValue) (w : responseWriter) : responseWriter :=
  let w := WriteHeaderNow w in
  mkWriter (status w) (written w) (body w ++ [data]).

(** [c.JSON(code, obj)]: set the status, then render the body. *)
Definition JSON (code : Z) (obj : JSONValue) : M unit :=
  modify_writer (WriteHeader code) ;;;
  modify_writer (Write obj).

Definition Abort : M unit :=
  modify_ctx (fun c => mkContext (request c) (Writer c) true (Errors c)).

Definition Error (err : error) : M unit :=
  modify_ctx (fun c => mkContext (request c) (Writer c) (aborted c) (Errors c ++ [err])).

(** [c.AbortWithError(code, err)] is [c.AbortWithStatus(code)] followed
    by [c.Error(err)]. *)
Definition AbortWithError (code : Z) (err : error) : M unit :=
  modify_writer (WriteHeader code) ;;;
  modify_writer WriteHeaderNow ;;;
  Abort ;;;
  Error err.

(** A fresh context for a request: status 200, nothing written. *)
Definition new_Context (r : Request) : Context :=
  mkContext r (mkWriter StatusOK false []) false [].

(** Serving a request with the engine of [gin.Default()]: the handler
    runs on a fresh context; the Recovery middleware turns a panic into
    [c.AbortWithStatus(500)]. *)
Definition serve (handler : M unit) (r : Request) : State :=
  let st0 := mkState (new_Context r) [] in
  match handler st0 with
  | (Some _, st) => st
  | (None, st) =>
      snd ((modify_writer (WriteHeader StatusInternalServerError) ;;;
            modify_writer WriteHeaderNow ;;;
            Abort) st)
  end.

End gin.

Definition call (e : Call) : M unit :=
  fun st => (Some tt, mkState (ctx st) (calls st ++ [e])).

(** ** The manager instance and the services behind it

    The answers of the API server and of the inventory, as functions of
    what is asked.  [validateToken] and the inventory queries are methods
    of the manager whose bodies are not part of the sources at hand. *)
Record instance : Type := mkInstance {
  config_Host : string;
  (** [certutil.NewPool(rootCAFile)] *)
  api_NewPool : option error;
  (** [authenticationv1client.NewForConfig(config)] for a bearer token *)
  api_AuthNewForConfig : string -> option error;
  (** [SelfSubjectReviews().Create] with a bearer token: the user name *)
  api_SelfSubjectReview : string -> string + error;
  (** [kubernetes.NewForConfig(m.config)] *)
  api_NewForConfig : option error;
  (** [SubjectAccessReviews().Create]: [canI.Status.Allowed] *)
  api_SubjectAccessReview : SubjectAccessReview -> bool + error;
  m_validateToken : string -> option error;
  m_GetManagedCAPIClusters : bool -> string -> gmap ObjectReference ClusterInfo + error;
  m_GetManagedSveltosClusters : bool -> string -> gmap ObjectReference ClusterInfo + error;
  m_getHelmChartsForCluster : string -> string -> ClusterType -> list HelmReleaseInfo + error;
  m_getResourcesForCluster : string -> string -> ClusterType -> list ResourceInfo + error;
  m_GetClusterProfileStatusesByCluster : string -> string -> ClusterType -> list ClusterProfileStatus
}.

(** Group, version and kind of the two cluster resources:
    [libsveltosv1beta1.GroupVersion], [libsveltosv1beta1.SveltosClusterKind],
    [clusterv1.GroupVersion] and [clusterv1.ClusterKind]. *)
Definition libsveltos_Group : string := "lib.projectsveltos.io".
Definition libsveltos_Version : string := "v1beta1".
Definition SveltosClusterKind : string := "SveltosCluster".
Definition clusterv1_Group : string := "cluster.x-k8s.io".
Definition clusterv1_Version : string := "v1beta1".
Definition ClusterKind : string := "Cluster".

(** ** kubeconfig.go *)

(** [getKubernetesRestConfig]: the configuration carries the token; it
    fails when the root CA file cannot be loaded. *)
Definition getKubernetesRestConfig (m : instance) (token : string)
  : string * option error :=
  match api_NewPool m with
  | Some err => (EmptyString, Some err)
  | None => (token, None)
  end.

Definition getUserFromToken (m : instance) (token : string)
  : M (string * option error) :=
  match getKubernetesRestConfig m token with
  | (_, Some err) => ret (EmptyString, Some err)
  | (config, None) =>
      match api_AuthNewForConfig m config with
      | Some err => ret (EmptyString, Some err)
      | None =>
          call (CallSelfSubjectReview config) ;;;
          match api_SelfSubjectReview m config with
          | inr err => ret (EmptyString, Some err)
          | inl username => ret (username, None)
          end
      end
  end.

(** The shared tail of the four permission checks: create the review and
    return [canI.Status.Allowed]. *)
Definition createSubjectAccessReview (m : instance) (sar : SubjectAccessReview)
  : M (bool * option error) :=
  call (CallSubjectAccessReview sar) ;;;
  match api_SubjectAccessReview m sar with
  | inr err => ret (false, Some err)
  | inl allowed => ret (allowed, None)
  end.

(** [canListSveltosClusters] returns true if user can list all
    SveltosClusters in all namespaces. *)
Definition canListSveltosClusters (m : instance) (user : string)
  : M (bool * option error) :=
  match api_NewForConfig m with
  | Some err => ret (false, Some err)
  | None =>
      createSubjectAccessReview m
        (mkSAR "list" libsveltos_Group libsveltos_Version SveltosClusterKind
               EmptyString EmptyString user)
  end.

(** [canGetSveltosCluster] returns true if user can access SveltosCluster
    clusterNamespace:clusterName. *)
Definition canGetSveltosCluster (m : instance)
    (clusterNamespace clusterName user : string) : M (bool * option error) :=
  match api_NewForConfig m with
  | Some err => ret (false, Some err)
  | None =>
      createSubjectAccessReview m
        (mkSAR "get" libsveltos_Group libsveltos_Version SveltosClusterKind
               clusterNamespace clusterName user)
  end.

(** [canListCAPIClusters] returns true if user can list all CAPI Clusters
    in all namespaces. *)
Definition canListCAPIClusters (m : instance) (user : string)
  : M (bool * option error) :=
  match api_NewForConfig m with
  | Some err => ret (false, Some err)
  | None =>
      createSubjectAccessReview m
        (mkSAR "list" clusterv1_Group clusterv1_Version ClusterKind
               EmptyString EmptyString user)
  end.

(** [canGetCAPICluster] returns true if user can access CAPI Cluster
    clusterNamespace:clusterName. *)
Definition canGetCAPICluster (m : instance)
    (clusterNamespace clusterName user : string) : M (bool * option error) :=
  match api_NewForConfig m with
  | Some err => ret (false, Some err)
  | None =>
      createSubjectAccessReview m
        (mkSAR "get" clusterv1_Group clusterv1_Version ClusterKind
               clusterNamespace clusterName user)
  end.

(** [canGetCluster] verifies whether user has permission to view
    CAPI/Sveltos Cluster. *)
Definition canGetCluster (m : instance)
    (clusterNamespace clusterName user : string) (clusterType : ClusterType)
  : M (bool * option error) :=
  if String.eqb clusterType ClusterTypeCapi then
    canGetCAPICluster m clusterNamespace clusterName user
  else
    canGetSveltosCluster m clusterNamespace clusterName user.

(** ** The query engine *)

Definition maxItems : Z := 6.

Definition nonempty (s : string) : bool := negb (String.eqb s EmptyString).

(** [len] of a slice. *)
Definition slice_len {A} (l : list A) : Z := Z.of_nat (length l).

(** [getManagedClusterData]: one pass over the inventory map, each test
    that fails skips the entry ([continue]).  Go ranges over a map in an
    unspecified order; here the entries come in the order of
    [map_to_list], and the callers sort the result. *)
Definition getManagedClusterData
    (clusters : gmap ObjectReference ClusterInfo) (filters : clusterFilters)
  : ManagedClusters :=
  foldl
    (fun (data : ManagedClusters) (entry : ObjectReference * ClusterInfo) =>
       let k := entry.1 in
       if nonempty (f_Namespace filters)
          && negb (strings.Contains (Namespace k) (f_Namespace filters))
       then data
       else if nonempty (f_name filters)
               && negb (strings.Contains (Name k) (f_name filters))
       then data
       else if negb (labels.Empty (f_labelSelector filters))
               && negb (labels.Matches (f_labelSelector filters) (Labels entry.2))
       then data
       else (data ++ [mkManagedCluster (Namespace k) (Name k) entry.2])%list)
    [] (map_to_list clusters).

Definition getLimitAndSkipFromQuery : M (Z * Z) :=
  let limit := maxItems in
  let skip := 0 in
  queryLimit <- gin.Query "limit" ;;
  querySkip <- gin.Query "skip" ;;
  let '(limit, err) :=
    if nonempty queryLimit then strconv.Atoi queryLimit else (limit, None) in
  match err with
  | Some _ =>
      gin.JSON StatusBadRequest (H_error "invalid limit parameter") ;;;
      ret (limit, skip)
  | None =>
      let '(skip, err) :=
        if nonempty querySkip then strconv.Atoi querySkip else (skip, None) in
      match err with
      | Some _ =>
          gin.JSON StatusBadRequest (H_error "invalid skip parameter") ;;;
          ret (limit, skip)
      | None => ret (limit, skip)
      end
  end.

(** [strconv.ParseBool] *)
Definition ParseBool (str : string) : bool * option error :=
  if existsb (String.eqb str) ["1"; "t"; "T"; "TRUE"; "true"; "True"]%string
  then (true, None)
  else if existsb (String.eqb str) ["0"; "f"; "F"; "FALSE"; "false"; "False"]%string
  then (false, None)
  else (false, Some (NumError "ParseBool" str ErrSyntax)).

Definition getFailedOnlyFromQuery : M bool :=
  queryFailed <- gin.Query "failed" ;;
  if nonempty queryFailed then
    let '(failedOnly, err) := ParseBool queryFailed in
    match err with
    | Some _ =>
        gin.JSON StatusBadRequest (H_error "invalid failed parameter") ;;;
        ret failedOnly
    | None => ret failedOnly
    end
  else ret false.

Definition getClusterFromQuery : M (string * string * ClusterType) :=
  queryNamespace <- gin.Query "namespace" ;;
  queryName <- gin.Query "name" ;;
  queryType <- gin.Query "type" ;;
  let zero := (EmptyString, EmptyString, EmptyString) in
  if negb (nonempty queryNamespace) then
    gin.JSON StatusBadRequest (H_error "namespace is required") ;;; ret zero
  else if negb (nonempty queryName) then
    gin.JSON StatusBadRequest (H_error "name is required") ;;; ret zero
  else if negb (nonempty queryType) then
    gin.JSON StatusBadRequest (H_error "cluster type is required") ;;; ret zero
  else if strings.EqualFold queryType ClusterTypeSveltos then
    ret (queryNamespace, queryName, ClusterTypeSveltos)
  else if strings.EqualFold queryType ClusterTypeCapi then
    ret (queryNamespace, queryName, ClusterTypeCapi)
  else
    gin.JSON StatusBadRequest (H_error "cluster type is incorrect") ;;; ret zero.

Definition getTokenFromAuthorizationHeader : M (string * option error) :=
  authorizationHeader <- gin.GetHeader "Authorization" ;;
  if negb (nonempty authorizationHeader) then
    let errorMsg := "authorization header is missing"%string in
    gin.JSON StatusUnauthorized (H_error errorMsg) ;;;
    ret (EmptyString, Some (errorString errorMsg))
  else
    match strings.slice_from (String.length "Bearer ") authorizationHeader with
    | None => panic
    | Some token =>
        if negb (nonempty token) then
          let errorMsg := "token is missing"%string in
          gin.JSON StatusUnauthorized (H_error errorMsg) ;;;
          ret (EmptyString, Some (errorString errorMsg))
        else ret (token, None)
    end.

(** [validateToken]:
    - gets token from authorization request. Returns an error if missing
    - validate token. Returns an error if this check fails
    - get and return user info. Returns an error if getting user from
      token fails *)
Definition validateToken (m : instance) : M (string * option error) :=
  p <- getTokenFromAuthorizationHeader ;;
  match p with
  | (_, Some err) =>
      gin.AbortWithError StatusUnauthorized
        (errorString "failed to get token from authorization request") ;;;
      ret (EmptyString, Some err)
  | (token, None) =>
      call (CallValidateToken token) ;;;
      match m_validateToken m token with
      | Some err =>
          gin.AbortWithError StatusUnauthorized
            (errorString "failed to validate token") ;;;
          ret (EmptyString, Some err)
      | None =>
          p <- getUserFromToken m token ;;
          match p with
          | (_, Some err) =>
              gin.AbortWithError StatusUnauthorized
                (errorString "failed to get user from token") ;;;
              ret (EmptyString, Some err)
          | (user, None) => ret (user, None)
          end
      end
  end.

(** [a < b] on Go strings: bytewise lexicographic order. *)
Definition string_lt (a b : string) : bool :=
  match String.compare a b with Lt => true | _ => false end.

(** [sort.Sort] and [sort.Slice] on a slice.  Go sorts slices of up to
    twelve elements by insertion: element [i] moves left while it is less
    than its predecessor.  [sorted_rev] is the sorted prefix, last element
    first.  For longer slices Go switches to pattern-defeating quicksort,
    whose result is the same permutation whenever [less] decides the
    order of any two distinct elements.  It is not stable: rows that
    compare equal may come out of it in another order than insertion
    leaves them in, so for more than twelve rows with equal keys the model
    fixes one of the orders Go may produce.  The statements below rely on
    the result being a permutation of the input only. *)
Fixpoint insert_left {A} (less : A -> A -> bool) (x : A) (sorted_rev : list A) : list A :=
  match sorted_rev with
  | [] => [x]
  | y :: rest => if less x y then y :: insert_left less x rest else x :: sorted_rev
  end.

Definition sort_Slice {A} (less : A -> A -> bool) (data : list A) : list A :=
  rev (foldl (fun sorted_rev x => insert_left less x sorted_rev) [] data).

(** Modelled from the spec: the comparators ([ManagedClusters.Less],
    [sortHelmCharts], [sortResources], [sortClusterProfileStatus]) are not
    part of the sources at hand.  Clusters are ordered by namespace, then
    name; Helm releases by namespace, then release name; resources by
    group, kind, namespace, name; profile statuses by profile name, cluster
    identity, feature identifier. *)
Fixpoint lex_lt (keys : list (string * string)) : bool :=
  match keys with
  | [] => false
  | (a, b) :: keys' => if String.eqb a b then lex_lt keys' else string_lt a b
  end.

Definition ManagedClusters_Less (a b : ManagedCluster) : bool :=
  lex_lt [(mc_Namespace a, mc_Namespace b); (mc_Name a, mc_Name b)].

Definition sortHelmCharts (a b : HelmReleaseInfo) : bool :=
  lex_lt [(hr_Namespace a, hr_Namespace b); (hr_ReleaseName a, hr_ReleaseName b)].

Definition sortResources (a b : ResourceInfo) : bool :=
  lex_lt [(r_Group a, r_Group b); (r_Kind a, r_Kind b);
          (r_Namespace a, r_Namespace b); (r_Name a, r_Name b)].

Definition sortClusterProfileStatus (a b : FlattenedStatus) : bool :=
  lex_lt [(fl_ProfileName a, fl_ProfileName b);
          (fl_ClusterNamespace a, fl_ClusterNamespace b);
          (fl_ClusterName a, fl_ClusterName b);
          (fl_FeatureID a, fl_FeatureID b)].

(** Modelled from the spec: the windowing helpers ([getClustersInRange],
    [getHelmReleaseInRange], [getResourcesInRange],
    [getFlattenedProfileStatusesInRange]) are not part of the sources at
    hand.  Per the spec windowing fails with an invalid-range error if
    [limit < 0] or [skip < 0]; if [skip >= length] it returns an empty
    sequence and succeeds; otherwise it returns the contiguous slice
    [[skip, min(skip+limit, length))]. *)
Definition InvalidRange : error := errorString "invalid range".

(** [items[lo:hi]] for [0 <= lo <= hi <= len(items)]. *)
Definition slice {A} (items : list A) (lo hi : Z) : list A :=
  take (Z.to_nat (hi - lo)) (drop (Z.to_nat lo) items).

Definition getSliceInRange {A} (items : list A) (limit skip : Z)
  : list A * option error :=
  if (limit <? 0) || (skip <? 0) then ([], Some InvalidRange)
  else if slice_len items <=? skip then ([], None)
  else (slice items skip (Z.min (skip + limit) (slice_len items)), None).

Definition getClustersInRange := @getSliceInRange ManagedCluster.
Definition getHelmReleaseInRange := @getSliceInRange HelmReleaseInfo.
Definition getResourcesInRange := @getSliceInRange ResourceInfo.
Definition getFlattenedProfileStatusesInRange := @getSliceInRange FlattenedStatus.

(** Modelled from the spec: [flattenProfileStatuses] is not part of the
    sources at hand.  Flattening emits one row per per-feature status; with
    [failedOnly] the rows whose status is not a failure are dropped. *)
Definition flattenProfileStatuses
    (statuses : list ClusterProfileStatus) (failedOnly : bool)
  : list FlattenedStatus :=
  flat_map
    (fun p =>
       flat_map
         (fun f =>
            if failedOnly && negb (fs_Failed f) then []
            else [mkFlattenedStatus (cps_ProfileName p) (cps_ClusterNamespace p)
                    (cps_ClusterName p) (fs_FeatureID f) (fs_Failed f)])
         (cps_Features p))
    statuses.

(** Go's [(value, error)] out of a manager query: the zero value comes
    with the error. *)
Definition go_pair {A} (zero : A) (r : A + error) : A * option error :=
  match r with
  | inl a => (a, None)
  | inr err => (zero, Some err)
  end.

Section Handlers.

(** [labels.Parse], the selector parser of apimachinery. *)
Variable labels_Parse : string -> labels.Selector * option error.

(** The manager singleton [GetManagerInstance()] returns. *)
Variable manager : instance.

(** Modelled from the spec: [getClusterFiltersFromQuery] is not part of
    the sources at hand.  It reads the namespace and name substrings and
    the label selector expression; an absent expression selects
    everything, a malformed one is an error. *)
Definition getClusterFiltersFromQuery : M (clusterFilters * option error) :=
  queryNamespace <- gin.Query "namespace" ;;
  queryName <- gin.Query "name" ;;
  queryLabels <- gin.Query "labels" ;;
  if nonempty queryLabels then
    match labels_Parse queryLabels with
    | (_, Some err) => ret (mkClusterFilters EmptyString EmptyString [], Some err)
    | (selector, None) => ret (mkClusterFilters queryNamespace queryName selector, None)
    end
  else ret (mkClusterFilters queryNamespace queryName [], None).

(** The body shared by [getManagedCAPIClusters] and
    [getManagedSveltosClusters] once the list permission is known. *)
Definition respondClusters
    (fetched : gmap ObjectReference ClusterInfo * option error)
    (filters : clusterFilters) (limit skip : Z) : M unit :=
  match fetched with
  | (_, Some err) => gin.AbortWithError StatusUnauthorized err
  | (clusters, None) =>
      let managedClusterData :=
        sort_Slice ManagedClusters_Less (getManagedClusterData clusters filters) in
      match getClustersInRange managedClusterData limit skip with
      | (_, Some err) => gin.AbortWithError StatusBadRequest err
      | (result, None) =>
          gin.JSON StatusOK
            (ClusterResult (slice_len managedClusterData) result)
      end
  end.

Definition getManagedCAPIClusters : M unit :=
  p <- getLimitAndSkipFromQuery ;;
  let '(limit, skip) := p in
  p <- getClusterFiltersFromQuery ;;
  match p with
  | (_, Some err) => gin.AbortWithError StatusBadRequest err
  | (filters, None) =>
      p <- validateToken manager ;;
      match p with
      | (_, Some err) => gin.AbortWithError StatusUnauthorized err
      | (user, None) =>
          p <- canListCAPIClusters manager user ;;
          match p with
          | (_, Some err) => gin.AbortWithError StatusUnauthorized err
          | (canListAll, None) =>
              call (CallManagedCAPIClusters canListAll user) ;;;
              respondClusters
                (go_pair ∅ (m_GetManagedCAPIClusters manager canListAll user))
                filters limit skip
          end
      end
  end.

Definition getManagedSveltosClusters : M unit :=
  p <- getLimitAndSkipFromQuery ;;
  let '(limit, skip) := p in
  p <- getClusterFiltersFromQuery ;;
  match p with
  | (_, Some err) => gin.AbortWithError StatusBadRequest err
  | (filters, None) =>
      p <- validateToken manager ;;
      match p with
      | (_, Some err) => gin.AbortWithError StatusUnauthorized err
      | (user, None) =>
          p <- canListSveltosClusters manager user ;;
          match p with
          | (_, Some err) => gin.AbortWithError StatusUnauthorized err
          | (canListAll, None) =>
              call (CallManagedSveltosClusters canListAll user) ;;;
              respondClusters
                (go_pair ∅ (m_GetManagedSveltosClusters manager canListAll user))
                filters limit skip
          end
      end
  end.

(** The authentication and per-cluster permission steps shared by the
    three per-cluster handlers; [k] is what the handler does once the
    caller may get the cluster. *)
Definition withClusterAccess
    (namespace name : string) (clusterType : ClusterType) (k : M unit) : M unit :=
  p <- validateToken manager ;;
  match p with
  | (_, Some err) => gin.AbortWithError StatusUnauthorized err
  | (user, None) =>
      p <- canGetCluster manager namespace name user clusterType ;;
      match p with
      | (_, Some err) => gin.AbortWithError StatusUnauthorized err
      | (canGet, None) =>
          if negb canGet then
            gin.AbortWithError StatusUnauthorized
              (errorString "no permissions to access this cluster")
          else k
      end
  end.

Definition getDeployedHelmCharts : M unit :=
  p <- getClusterFromQuery ;;
  let '(namespace, name, clusterType) := p in
  p <- getLimitAndSkipFromQuery ;;
  let '(limit, skip) := p in
  withClusterAccess namespace name clusterType
    (call (CallHelmCharts namespace name clusterType) ;;;
     match go_pair [] (m_getHelmChartsForCluster manager namespace name clusterType) with
     | (_, Some err) => gin.AbortWithError StatusBadRequest err
     | (helmCharts, None) =>
         let helmCharts := sort_Slice sortHelmCharts helmCharts in
         match getHelmReleaseInRange helmCharts limit skip with
         | (_, Some err) => gin.AbortWithError StatusBadRequest err
         | (result, None) =>
             gin.JSON StatusOK (HelmReleaseResult (slice_len helmCharts) result)
         end
     end).

Definition getDeployedResources : M unit :=
  p <- getLimitAndSkipFromQuery ;;
  let '(limit, skip) := p in
  p <- getClusterFromQuery ;;
  let '(namespace, name, clusterType) := p in
  withClusterAccess namespace name clusterType
    (call (CallResources namespace name clusterType) ;;;
     match go_pair [] (m_getResourcesForCluster manager namespace name clusterType) with
     | (_, Some err) => gin.AbortWithError StatusBadRequest err
     | (resources, None) =>
         let resources := sort_Slice sortResources resources in
         match getResourcesInRange resources limit skip with
         | (_, Some err) => gin.AbortWithError StatusBadRequest err
         | (result, None) =>
             gin.JSON StatusOK (ResourceResult (slice_len resources) result)
         end
     end).

Definition getClusterStatus : M unit :=
  failedOnly <- getFailedOnlyFromQuery ;;
  p <- getLimitAndSkipFromQuery ;;
  let '(limit, skip) := p in
  p <- getClusterFromQuery ;;
  let '(namespace, name, clusterType) := p in
  withClusterAccess namespace name clusterType
    (call (CallProfileStatuses namespace name clusterType) ;;;
     let clusterProfileStatuses :=
       m_GetClusterProfileStatusesByCluster manager namespace name clusterType in
     let flattenedProfileStatuses :=
       sort_Slice sortClusterProfileStatus
         (flattenProfileStatuses clusterProfileStatuses failedOnly) in
     match getFlattenedProfileStatusesInRange flattenedProfileStatuses limit skip with
     | (_, Some err) => gin.AbortWithError StatusBadRequest err
     | (result, None) =>
         gin.JSON StatusOK
           (H_profiles (slice_len flattenedProfileStatuses) result)
     end).

End Handlers.

(** The routes registered in [start]. *)
Inductive Endpoint : Type :=
| capiclusters | sveltosclusters | helmcharts | resources | getClusterStatus_route.

Definition route (labels_Parse : string -> labels.Selector * option error)
    (manager : instance) (e : Endpoint) : M unit :=
  match e with
  | capiclusters => getManagedCAPIClusters labels_Parse manager
  | sveltosclusters => getManagedSveltosClusters labels_Parse manager
  | helmcharts => getDeployedHelmCharts manager
  | resources => getDeployedResources manager
  | getClusterStatus_route => getClusterStatus manager
  end.

Definition per_cluster (e : Endpoint) : bool :=
  match e with
  | helmcharts | resources | getClusterStatus_route => true
  | _ => false
  end.

(** ** Vocabulary of the statements *)

(** [sub] occurs in [s] at some offset. *)
Definition is_substring (sub s : string) : Prop :=
  exists pre post : string, s = (pre ++ sub ++ post)%string.

(** The three stages of a request, by the calls they make. *)
Inductive Stage : Type := Authentication | Authorization | DataAccess.

Definition stage_of (c : Call) : Stage :=
  match c with
  | CallValidateToken _ | CallSelfSubjectReview _ => Authentication
  | CallSubjectAccessReview _ => Authorization
  | _ => DataAccess
  end.

Definition stage_rank (s : Stage) : nat :=
  match s with Authentication => 0 | Authorization => 1 | DataAccess => 2 end.

Definition is_fetch (c : Call) : bool :=
  match stage_of c with DataAccess => true | _ => false end.

(** Every call of an earlier stage comes before every call of a later
    stage: no call is followed, at any distance, by a call of a strictly
    earlier stage, and two calls of different stages never swap. *)
Definition strictly_staged (cs : list Call) : Prop :=
  forall i j ci cj, cs !! i = Some ci -> cs !! j = Some cj ->
    (stage_rank (stage_of ci) < stage_rank (stage_of cj))%nat -> (i < j)%nat.

(** Result data in a response body, as opposed to an error object. *)
Definition is_result (v : JSONValue) : bool :=
  match v with H_error _ => false | _ => true end.

(** The total count and the number of rows of a result object. *)
Definition total_of (v : JSONValue) : option Z :=
  match v with
  | H_error _ => None
  | ClusterResult t _ | HelmReleaseResult t _ | ResourceResult t _ | H_profiles t _ => Some t
  end.

Definition rows_of (v : JSONValue) : Z :=
  match v with
  | H_error _ => 0
  | ClusterResult _ l => slice_len l
  | HelmReleaseResult _ l => slice_len l
  | ResourceResult _ l => slice_len l
  | H_profiles _ l => slice_len l
  end.

(** The state a request starts from. *)
Definition initial (r : Request) : State := mkState (gin.new_Context r) [].

Definition query (r : Request) (k : string) : string :=
  default EmptyString (URL_Query r !! k).

Definition header (r : Request) (k : string) : string :=
  default EmptyString (Header r !! k).

(** [s] is a decimal integer literal as [strconv.Atoi] accepts it. *)
Definition well_formed_int (s : string) : bool :=
  match strconv.Atoi s with (_, None) => true | _ => false end.

(** ** Vocabulary of the proofs *)

(** The three tests of the loop body of [getManagedClusterData], as one
    predicate on a map entry. *)
Definition passes (filters : clusterFilters) (k : ObjectReference) (info : ClusterInfo) : Prop :=
  (f_Namespace filters = EmptyString \/ is_substring (f_Namespace filters) (Namespace k)) /\
  (f_name filters = EmptyString \/ is_substring (f_name filters) (Name k)) /\
  (f_labelSelector filters = [] \/
   Forall (fun r => labels.Requirement_Matches r (Labels info) = true)
          (f_labelSelector filters)).

(** The same tests as the loop body runs them: an entry is kept when no
    [continue] is taken. *)
Definition keep_entry (filters : clusterFilters) (e : ObjectReference * ClusterInfo) : bool :=
  negb (nonempty (f_Namespace filters)
        && negb (strings.Contains (Namespace e.1) (f_Namespace filters)))
  && negb (nonempty (f_name filters)
           && negb (strings.Contains (Name e.1) (f_name filters)))
  && negb (negb (labels.Empty (f_labelSelector filters))
           && negb (labels.Matches (f_labelSelector filters) (Labels e.2))).

(** The review [canGetCluster] asks for. *)
Definition get_review (clusterType : ClusterType) (namespace name user : string)
  : SubjectAccessReview :=
  if String.eqb clusterType ClusterTypeCapi
  then mkSAR "get" clusterv1_Group clusterv1_Version ClusterKind namespace name user
  else mkSAR "get" libsveltos_Group libsveltos_Version SveltosClusterKind namespace name user.

(** State updates: on the writer, on the list of calls, and the effect
    of [c.AbortWithError(code, err)]. *)
Definition wr (f : responseWriter -> responseWriter) (st : State) : State :=
  mkState (mkContext (request (ctx st)) (f (Writer (ctx st)))
             (aborted (ctx st)) (Errors (ctx st))) (calls st).

Definition add_calls (l : list Call) (st : State) : State :=
  mkState (ctx st) (calls st ++ l).

Definition abort_with (code : Z) (err : error) (st : State) : State :=
  mkState (mkContext (request (ctx st))
             (gin.WriteHeaderNow (gin.WriteHeader code (Writer (ctx st))))
             true (Errors (ctx st) ++ [err])) (calls st).

(** [c.JSON(400, gin.H{"error": msg})], if there is something to
    complain about. *)
Definition complain (msg : option string) (w : responseWriter) : responseWriter :=
  match msg with
  | Some msg => gin.Write (H_error msg) (gin.WriteHeader StatusBadRequest w)
  | None => w
  end.

(** The values and the complaint of [getLimitAndSkipFromQuery], of
    [getClusterFromQuery] and of [getFailedOnlyFromQuery] as functions of
    the query parameters they read. *)
Definition parseLimitAndSkip (queryLimit querySkip : string) : Z * Z * option string :=
  let '(limit, err) :=
    if nonempty queryLimit then strconv.Atoi queryLimit else (maxItems, None) in
  match err with
  | Some _ => (limit, 0, Some "invalid limit parameter"%string)
  | None =>
      let '(skip, err) :=
        if nonempty querySkip then strconv.Atoi querySkip else (0, None) in
      match err with
      | Some _ => (limit, skip, Some "invalid skip parameter"%string)
      | None => (limit, skip, None)
      end
  end.

Definition limit_skip (r : Request) : Z * Z :=
  (parseLimitAndSkip (query r "limit") (query r "skip")).1.

Definition limit_skip_complaint (r : Request) : option string :=
  (parseLimitAndSkip (query r "limit") (query r "skip")).2.

Definition parseCluster (queryNamespace queryName queryType : string)
  : string * string * ClusterType * option string :=
  let zero := (EmptyString, EmptyString, EmptyString) in
  if negb (nonempty queryNamespace) then (zero, Some "namespace is required"%string)
  else if negb (nonempty queryName) then (zero, Some "name is required"%string)
  else if negb (nonempty queryType) then (zero, Some "cluster type is required"%string)
  else if strings.EqualFold queryType ClusterTypeSveltos then
    (queryNamespace, queryName, ClusterTypeSveltos, None)
  else if strings.EqualFold queryType ClusterTypeCapi then
    (queryNamespace, queryName, ClusterTypeCapi, None)
  else (zero, Some "cluster type is incorrect"%string).

Definition cluster_of (r : Request) : string * string * ClusterType :=
  (parseCluster (query r "namespace") (query r "name") (query r "type")).1.

Definition cluster_complaint (r : Request) : option string :=
  (parseCluster (query r "namespace") (query r "name") (query r "type")).2.

Definition failed_of (r : Request) : bool :=
  if nonempty (query r "failed") then (ParseBool (query r "failed")).1 else false.

Definition failed_complaint (r : Request) : option string :=
  if nonempty (query r "failed") then
    match (ParseBool (query r "failed")).2 with
    | Some _ => Some "invalid failed parameter"%string
    | None => None
    end
  else None.

(** The result of [getClusterFiltersFromQuery]. *)
Definition filters_of (labels_Parse : string -> labels.Selector * option error)
    (r : Request) : clusterFilters * option error :=
  if nonempty (query r "labels") then
    match labels_Parse (query r "labels") with
    | (_, Some err) => (mkClusterFilters EmptyString EmptyString [], Some err)
    | (selector, None) =>
        (mkClusterFilters (query r "namespace") (query r "name") selector, None)
    end
  else (mkClusterFilters (query r "namespace") (query r "name") [], None).

(** The ways [validateToken] can go: a panic in the slice expression, no
    usable token in the header, a token the manager rejects, a token whose
    user cannot be looked up, a user. *)
Inductive AuthOutcome : Type :=
| AuthPanic
| AuthNoToken (msg : string)
| AuthRejected (token : string) (err : error)
| AuthNoUser (token : string) (err : error) (reviewed : bool)
| AuthUser (token user : string).

(** What [validateToken] finds for the Authorization header [h]. *)
Definition authenticate (m : instance) (h : string) : AuthOutcome :=
  if negb (nonempty h) then AuthNoToken "authorization header is missing"
  else
    match strings.slice_from 7 h with
    | None => AuthPanic
    | Some token =>
        if negb (nonempty token) then AuthNoToken "token is missing"
        else
          match m_validateToken m token with
          | Some err => AuthRejected token err
          | None =>
              match api_NewPool m with
              | Some err => AuthNoUser token err false
              | None =>
                  match api_AuthNewForConfig m token with
                  | Some err => AuthNoUser token err false
                  | None =>
                      match api_SelfSubjectReview m token with
                      | inr err => AuthNoUser token err true
                      | inl user => AuthUser token user
                      end
                  end
              end
          end
    end.

(** The error [validateToken] returns, if any. *)
Definition auth_error (o : AuthOutcome) : option error :=
  match o with
  | AuthNoToken msg => Some (errorString msg)
  | AuthRejected _ err | AuthNoUser _ err _ => Some err
  | AuthPanic | AuthUser _ _ => None
  end.

(** The state [validateToken] leaves behind. *)
Definition auth_state (o : AuthOutcome) (st : State) : State :=
  match o with
  | AuthPanic => st
  | AuthNoToken msg =>
      abort_with StatusUnauthorized
        (errorString "failed to get token from authorization request")
        (wr (fun w => gin.Write (H_error msg) (gin.WriteHeader StatusUnauthorized w)) st)
  | AuthRejected token _ =>
      abort_with StatusUnauthorized (errorString "failed to validate token")
        (add_calls [CallValidateToken token] st)
  | AuthNoUser token _ reviewed =>
      abort_with StatusUnauthorized (errorString "failed to get user from token")
        (add_calls (CallValidateToken token ::
                    if reviewed then [CallSelfSubjectReview token] else []) st)
  | AuthUser token _ =>
      add_calls [CallValidateToken token; CallSelfSubjectReview token] st
  end.

(** What [validateToken] returns; [None] is the panic. *)
Definition auth_result (o : AuthOutcome) : option (string * option error) :=
  match o with
  | AuthPanic => None
  | AuthUser _ user => Some (user, None)
  | _ => Some (EmptyString, auth_error o)
  end.

(** The verdict, the error and the calls of a permission check whose
    review is [sar]. *)
Definition check (m : instance) (sar : SubjectAccessReview)
  : bool * option error * list Call :=
  match api_NewForConfig m with
  | Some err => (false, Some err, [])
  | None =>
      match api_SubjectAccessReview m sar with
      | inr err => (false, Some err, [CallSubjectAccessReview sar])
      | inl allowed => (allowed, None, [CallSubjectAccessReview sar])
      end
  end.

(** The review [canListCAPIClusters] and [canListSveltosClusters] ask
    for. *)
Definition list_review (clusterType : ClusterType) (user : string) : SubjectAccessReview :=
  if String.eqb clusterType ClusterTypeCapi
  then mkSAR "list" clusterv1_Group clusterv1_Version ClusterKind EmptyString EmptyString user
  else mkSAR "list" libsveltos_Group libsveltos_Version SveltosClusterKind
         EmptyString EmptyString user.

(** The complaints the query parsers of an endpoint write, in the order
    the handler calls them. *)
Definition complaints (e : Endpoint) (r : Request) : list (option string) :=
  match e with
  | capiclusters | sveltosclusters => [limit_skip_complaint r]
  | helmcharts => [cluster_complaint r; limit_skip_complaint r]
  | resources => [limit_skip_complaint r; cluster_complaint r]
  | getClusterStatus_route =>
      [failed_complaint r; limit_skip_complaint r; cluster_complaint r]
  end.

(** The state after the query parsers. *)
Definition st_params (e : Endpoint) (r : Request) : State :=
  wr (fun w => foldl (fun w o => complain o w) w (complaints e r)) (initial r).

Definition cluster_type_of (e : Endpoint) (r : Request) : ClusterType :=
  match e with
  | capiclusters => ClusterTypeCapi
  | sveltosclusters => ClusterTypeSveltos
  | _ => (cluster_of r).2
  end.

(** The review an endpoint asks for on behalf of [user]. *)
Definition review_of (e : Endpoint) (r : Request) (user : string) : SubjectAccessReview :=
  if per_cluster e
  then get_review (cluster_of r).2 (cluster_of r).1.1 (cluster_of r).1.2 user
  else list_review (cluster_type_of e r) user.

(** The inventory query of an endpoint. *)
Definition fetch_call (e : Endpoint) (r : Request) (canListAll : bool) (user : string) : Call :=
  let '(namespace, name, clusterType) := cluster_of r in
  match e with
  | capiclusters => CallManagedCAPIClusters canListAll user
  | sveltosclusters => CallManagedSveltosClusters canListAll user
  | helmcharts => CallHelmCharts namespace name clusterType
  | resources => CallResources namespace name clusterType
  | getClusterStatus_route => CallProfileStatuses namespace name clusterType
  end.

(** The full filtered and sorted sequence of an endpoint with its length,
    in the shape of the response, or the error of the inventory query. *)
Definition full_result (labels_Parse : string -> labels.Selector * option error)
    (m : instance) (e : Endpoint) (r : Request) (canListAll : bool) (user : string)
  : JSONValue + error :=
  let '(namespace, name, clusterType) := cluster_of r in
  let clusters_result (fetched : gmap ObjectReference ClusterInfo + error) :=
    match fetched with
    | inl clusters =>
        let data := sort_Slice ManagedClusters_Less
                      (getManagedClusterData clusters (filters_of labels_Parse r).1) in
        inl (ClusterResult (slice_len data) data)
    | inr err => inr err
    end in
  match e with
  | capiclusters => clusters_result (m_GetManagedCAPIClusters m canListAll user)
  | sveltosclusters => clusters_result (m_GetManagedSveltosClusters m canListAll user)
  | helmcharts =>
      match m_getHelmChartsForCluster m namespace name clusterType with
      | inl charts =>
          let charts := sort_Slice sortHelmCharts charts in
          inl (HelmReleaseResult (slice_len charts) charts)
      | inr err => inr err
      end
  | resources =>
      match m_getResourcesForCluster m namespace name clusterType with
      | inl res =>
          let res := sort_Slice sortResources res in
          inl (ResourceResult (slice_len res) res)
      | inr err => inr err
      end
  | getClusterStatus_route =>
      let rows := sort_Slice sortClusterProfileStatus
                    (flattenProfileStatuses
                       (m_GetClusterProfileStatusesByCluster m namespace name clusterType)
                       (failed_of r)) in
      inl (H_profiles (slice_len rows) rows)
  end.

(** The window of a result: the total is kept, the rows are cut. *)
Definition window_of (v : JSONValue) (limit skip : Z) : JSONValue * option error :=
  match v with
  | H_error msg => (H_error msg, None)
  | ClusterResult t l =>
      (ClusterResult t (getClustersInRange l limit skip).1,
       (getClustersInRange l limit skip).2)
  | HelmReleaseResult t l =>
      (HelmReleaseResult t (getHelmReleaseInRange l limit skip).1,
       (getHelmReleaseInRange l limit skip).2)
  | ResourceResult t l =>
      (ResourceResult t (getResourcesInRange l limit skip).1,
       (getResourcesInRange l limit skip).2)
  | H_profiles t l =>
      (H_profiles t (getFlattenedProfileStatusesInRange l limit skip).1,
       (getFlattenedProfileStatusesInRange l limit skip).2)
  end.

(** Recovery from a panic: [c.AbortWithStatus(500)]. *)
Definition recover (st : State) : State :=
  mkState (mkContext (request (ctx st))
             (gin.WriteHeaderNow
                (gin.WriteHeader StatusInternalServerError (Writer (ctx st))))
             true (Errors (ctx st))) (calls st).

Definition no_permissions : error := errorString "no permissions to access this cluster".

(** The state an endpoint ends in, stage by stage. *)
Definition after_access (labels_Parse : string -> labels.Selector * option error)
    (m : instance) (e : Endpoint) (r : Request) (allowed : bool) (user : string)
    (st : State) : State :=
  let st := add_calls [fetch_call e r allowed user] st in
  match full_result labels_Parse m e r allowed user with
  | inr err =>
      abort_with (if per_cluster e then StatusBadRequest else StatusUnauthorized) err st
  | inl full =>
      match window_of full (limit_skip r).1 (limit_skip r).2 with
      | (_, Some err) => abort_with StatusBadRequest err st
      | (v, None) => wr (fun w => gin.Write v (gin.WriteHeader StatusOK w)) st
      end
  end.

Definition after_authentication (labels_Parse : string -> labels.Selector * option error)
    (m : instance) (e : Endpoint) (r : Request) (user : string) (st : State) : State :=
  let '(allowed, oerr, cs) := check m (review_of e r user) in
  let st := add_calls cs st in
  match oerr with
  | Some err => abort_with StatusUnauthorized err st
  | None =>
      if per_cluster e && negb allowed
      then abort_with StatusUnauthorized no_permissions st
      else after_access labels_Parse m e r allowed user st
  end.

Definition final_state (labels_Parse : string -> labels.Selector * option error)
    (m : instance) (e : Endpoint) (r : Request) : State :=
  let st := st_params e r in
  match (if per_cluster e then None else (filters_of labels_Parse r).2) with
  | Some err => abort_with StatusBadRequest err st
  | None =>
      let o := authenticate m (header r "Authorization") in
      match o with
      | AuthPanic => recover st
      | AuthUser _ user =>
          after_authentication labels_Parse m e r user (auth_state o st)
      | _ =>
          match auth_error o with
          | Some err => abort_with StatusUnauthorized err (auth_state o st)
          | None => auth_state o st
          end
      end
  end.

(** Whether a query parser of the endpoint complained, and what was
    written then. *)
Definition complained (e : Endpoint) (r : Request) : bool :=
  existsb (fun o : option string => bool_decide (is_Some o)) (complaints e r).

Definition complaint_bodies (e : Endpoint) (r : Request) : list JSONValue :=
  H_error <$> omap id (complaints e r).

Definition filters_accepted (labels_Parse : string -> labels.Selector * option error)
    (e : Endpoint) (r : Request) : Prop :=
  per_cluster e = true \/ (filters_of labels_Parse r).2 = None.

(** The calls of a request that got as far as the inventory. *)
Definition authn_calls (token : string) : list Call :=
  [CallValidateToken token; CallSelfSubjectReview token].

Definition access_calls (e : Endpoint) (r : Request) (token user : string) : list Call :=
  authn_calls token ++ [CallSubjectAccessReview (review_of e r user)].

Definition all_calls (e : Endpoint) (r : Request) (token user : string) (allowed : bool)
  : list Call :=
  access_calls e r token user ++ [fetch_call e r allowed user].

Inductive Outcome (labels_Parse : string -> labels.Selector * option error)
    (m : instance) (e : Endpoint) (r : Request) : State -> Prop :=
| BadFilters err :
    per_cluster e = false ->
    (filters_of labels_Parse r).2 = Some err ->
    Outcome labels_Parse m e r (abort_with StatusBadRequest err (st_params e r))
| Panicked :
    filters_accepted labels_Parse e r ->
    authenticate m (header r "Authorization") = AuthPanic ->
    Outcome labels_Parse m e r (recover (st_params e r))
| Unauthenticated o err :
    filters_accepted labels_Parse e r ->
    authenticate m (header r "Authorization") = o ->
    auth_error o = Some err ->
    Outcome labels_Parse m e r
      (abort_with StatusUnauthorized err (auth_state o (st_params e r)))
| NoClient token user err :
    filters_accepted labels_Parse e r ->
    authenticate m (header r "Authorization") = AuthUser token user ->
    api_NewForConfig m = Some err ->
    Outcome labels_Parse m e r
      (abort_with StatusUnauthorized err (add_calls (authn_calls token) (st_params e r)))
| ReviewFailed token user err :
    filters_accepted labels_Parse e r ->
    authenticate m (header r "Authorization") = AuthUser token user ->
    api_NewForConfig m = None ->
    api_SubjectAccessReview m (review_of e r user) = inr err ->
    Outcome labels_Parse m e r
      (abort_with StatusUnauthorized err
         (add_calls (access_calls e r token user) (st_params e r)))
| Denied token user :
    per_cluster e = true ->
    authenticate m (header r "Authorization") = AuthUser token user ->
    api_NewForConfig m = None ->
    api_SubjectAccessReview m (review_of e r user) = inl false ->
    Outcome labels_Parse m e r
      (abort_with StatusUnauthorized no_permissions
         (add_calls (access_calls e r token user) (st_params e r)))
| FetchFailed token user allowed err :
    filters_accepted labels_Parse e r ->
    authenticate m (header r "Authorization") = AuthUser token user ->
    api_NewForConfig m = None ->
    api_SubjectAccessReview m (review_of e r user) = inl allowed ->
    (per_cluster e = true -> allowed = true) ->
    full_result labels_Parse m e r allowed user = inr err ->
    Outcome labels_Parse m e r
      (abort_with (if per_cluster e then StatusBadRequest else StatusUnauthorized) err
         (add_calls (all_calls e r token user allowed) (st_params e r)))
| BadRange token user allowed full v err :
    filters_accepted labels_Parse e r ->
    authenticate m (header r "Authorization") = AuthUser token user ->
    api_NewForConfig m = None ->
    api_SubjectAccessReview m (review_of e r user) = inl allowed ->
    (per_cluster e = true -> allowed = true) ->
    full_result labels_Parse m e r allowed user = inl full ->
    window_of full (limit_skip r).1 (limit_skip r).2 = (v, Some err) ->
    Outcome labels_Parse m e r
      (abort_with StatusBadRequest err
         (add_calls (all_calls e r token user allowed) (st_params e r)))
| Responded token user allowed full v :
    filters_accepted labels_Parse e r ->
    authenticate m (header r "Authorization") = AuthUser token user ->
    api_NewForConfig m = None ->
    api_SubjectAccessReview m (review_of e r user) = inl allowed ->
    (per_cluster e = true -> allowed = true) ->
    full_result labels_Parse m e r allowed user = inl full ->
    window_of full (limit_skip r).1 (limit_skip r).2 = (v, None) ->
    Outcome labels_Parse m e r
      (wr (fun w => gin.Write v (gin.WriteHeader StatusOK w))
         (add_calls (all_calls e r token user allowed) (st_params e r))).

(** ** Sample collaborators and requests *)
Module Sample.

Definition cluster (namespace name : string) : ObjectReference :=
  mkObjectReference "SveltosCluster" namespace name EmptyString
    "lib.projectsveltos.io/v1beta1" EmptyString EmptyString.

Definition inventory : gmap ObjectReference ClusterInfo :=
  <[cluster "production" "c1" := mkClusterInfo ∅]>
    (<[cluster "staging" "c2" := mkClusterInfo ∅]>
       (<[cluster "prod-eu" "c3" := mkClusterInfo ∅]> ∅)).

(** A manager whose collaborators accept every token as user [alice]
    and allow every review. *)
Definition permissive : instance :=
  mkInstance "https://kubernetes.default.svc" None (fun _ => None)
    (fun _ => inl "alice"%string) None (fun _ => inl true) (fun _ => None)
    (fun _ _ => inl inventory) (fun _ _ => inl inventory)
    (fun _ _ _ => inl []) (fun _ _ _ => inl []) (fun _ _ _ => []).

(** A manager whose permission system cannot be reached. *)
Definition unreachable : instance :=
  mkInstance "https://kubernetes.default.svc" None (fun _ => None)
    (fun _ => inl "alice"%string) None
    (fun _ => inr (StatusError "connection refused")) (fun _ => None)
    (fun _ _ => inl inventory) (fun _ _ => inl inventory)
    (fun _ _ _ => inl []) (fun _ _ _ => inl []) (fun _ _ _ => []).

(** A manager whose permission system denies every review. *)
Definition denying : instance :=
  mkInstance "https://kubernetes.default.svc" None (fun _ => None)
    (fun _ => inl "alice"%string) None (fun _ => inl false) (fun _ => None)
    (fun _ _ => inl inventory) (fun _ _ => inl inventory)
    (fun _ _ _ => inl []) (fun _ _ _ => inl []) (fun _ _ _ => []).

(** A selector parser that accepts nothing but is never consulted when
    the [labels] parameter is absent. *)
Definition no_labels (s : string) : labels.Selector * option error :=
  ([], Some (errorString "unable to parse requirement")).

Definition get (q : list (string * string)) (authorization : option string) : Request :=
  mkRequest (list_to_map q)
    match authorization with
    | Some h => {[ "Authorization"%string := h ]}
    | None => ∅
    end.

Definition bearer : option string := Some "Bearer token"%string.

End Sample.

(** Two requests that differ at most in [limit] and [skip]. *)
Definition same_except_paging (r r' : Request) : Prop :=
  Header r = Header r' /\
  forall k, k <> "limit"%string -> k <> "skip"%string -> query r k = query r' k.

Definition authentication_fails (m : instance) (r : Request) (err : error) : Prop :=
  exists user, fst (validateToken m (initial r)) = Some (user, Some err).

Definition authenticated (m : instance) (r : Request) (user : string) : Prop :=
  fst (validateToken m (initial r)) = Some (user, None).

(** The per-cluster get check of the request, for [user]. *)
Definition get_check (m : instance) (r : Request) (user : string)
  : option (bool * option error) :=
  match fst (getClusterFromQuery (initial r)) with
  | Some (namespace, name, clusterType) =>
      fst (canGetCluster m namespace name user clusterType (initial r))
  | None => None
  end.

(** The listing endpoints parse the filters before they authenticate. *)
Definition filters_parsed (labels_Parse : string -> labels.Selector * option error)
    (e : Endpoint) (r : Request) : Prop :=
  per_cluster e = true \/
  exists filters, fst (getClusterFiltersFromQuery labels_Parse (initial r)) = Some (filters, None).

Definition no_fetch (cs : list Call) : Prop := forall c, c ∈ cs -> is_fetch c = false.

(** The permission check an endpoint runs for [user]. *)
Definition permission_check (m : instance) (e : Endpoint) (r : Request) (user : string)
  : option (bool * option error) :=
  match e with
  | capiclusters => fst (canListCAPIClusters m user (initial r))
  | sveltosclusters => fst (canListSveltosClusters m user (initial r))
  | _ => get_check m r user
  end.

(** What a permission check returns for the review [sar], read off the
    two calls it makes. *)
Definition verdict_of (m : instance) (sar : SubjectAccessReview) : bool * option error :=
  match api_NewForConfig m with
  | Some err => (false, Some err)
  | None =>
      match api_SubjectAccessReview m sar with
      | inr err => (false, Some err)
      | inl allowed => (allowed, None)
      end
  end.

(** A parameter that is present but not an integer. *)
Definition malformed (s : string) : bool := nonempty s && negb (well_formed_int s).

(** The value of a well-formed parameter, or its default when absent. *)
Definition parsed_int (default : Z) (s : string) : Z :=
  if nonempty s then (strconv.Atoi s).1 else default.

Definition paging_invalid (r : Request) : Prop :=
  malformed (query r "limit") = true \/ malformed (query r "skip") = true \/
  parsed_int maxItems (query r "limit") < 0 \/ parsed_int 0 (query r "skip") < 0.

Definition no_result_data (st : State) : Prop :=
  forall v, v ∈ body (Writer (ctx st)) -> is_result v = false.

(** ASCII lower-casing, the yardstick for "case-insensitively". *)
Definition ascii_lower (c : ascii) : ascii :=
  let b := byte_val c in
  if (65 <=? b) && (b <=? 90) then ascii_of_N (Z.to_N (b + 32)) else c.

Fixpoint ToLower (s : string) : string :=
  match s with
  | EmptyString => EmptyString
  | String c s' => String (ascii_lower c) (ToLower s')
  end.

Fixpoint is_ascii (s : string) : bool :=
  match s with
  | EmptyString => true
  | String c s' => (byte_val c <? strings.RuneSelf) && is_ascii s'
  end.

Definition fold_table_ok : bool :=
  forallb (fun i =>
    forallb (fun j =>
      Bool.eqb (strings.rune_fold_eq (byte_val (ascii_of_nat i)) (byte_val (ascii_of_nat j)))
               (Ascii.eqb (ascii_lower (ascii_of_nat i)) (ascii_lower (ascii_of_nat j))))
      (seq 0 128))
    (seq 0 128).

Definition type_recognised (queryType : string) : bool :=
  strings.EqualFold queryType ClusterTypeSveltos || strings.EqualFold queryType ClusterTypeCapi.

(** ** Vocabulary of the further properties *)

(** The messages the query parsers and the token extraction put into
    error objects. *)
Definition parser_messages : list string :=
  ["invalid limit parameter"; "invalid skip parameter"; "invalid failed parameter";
   "namespace is required"; "name is required"; "cluster type is required";
   "cluster type is incorrect"]%string.

Definition token_messages : list string :=
  ["authorization header is missing"; "token is missing"]%string.

(** The values [strconv.Atoi] hands back next to an error. *)
Definition atoi_fallbacks : list Z := [0; 2 ^ 63 - 1; - 2 ^ 63].

(** The literals [strconv.ParseBool] accepts. *)
Definition true_literals : list string := ["1"; "t"; "T"; "TRUE"; "true"; "True"]%string.
Definition false_literals : list string := ["0"; "f"; "F"; "FALSE"; "false"; "False"]%string.

(** A permission check that leaves the gin context alone, asks the
    permission system at most once, with one fixed review, and has asked
    whenever it returns a nil error. *)
Definition asks_once (f : M (bool * option error)) (sar : SubjectAccessReview) : Prop :=
  forall st, exists verdict oerr new,
    f st = (Some (verdict, oerr), mkState (ctx st) (calls st ++ new)) /\
    (new = [] \/ new = [CallSubjectAccessReview sar]) /\
    (oerr = None -> new = [CallSubjectAccessReview sar]) /\
    (new = [] -> verdict = false).

(** The rows of [filters'] are looked for among fewer clusters than those
    of [filters]: each of its filters contains the corresponding one. *)
Definition narrower (filters' filters : clusterFilters) : Prop :=
  is_substring (f_Namespace filters) (f_Namespace filters') /\
  is_substring (f_name filters) (f_name filters') /\
  (forall r, r ∈ f_labelSelector filters -> r ∈ f_labelSelector filters').

(** The messages [validateToken] records in [c.Errors] before it
    returns an error. *)
Definition classified_messages : list string :=
  ["failed to get token from authorization request"; "failed to validate token";
   "failed to get user from token"]%string.

(** The cluster a request names, as [getClusterFromQuery] returns it. *)
Definition requested_cluster (r : Request) : option (string * string * ClusterType) :=
  fst (getClusterFromQuery (initial r)).

(** The inventory query of an endpoint with the arguments the handler
    passes, and the error of that query if it fails.  The profile statuses
    are read from memory: that query has no error. *)
Definition inventory_call (e : Endpoint) (cluster : string * string * ClusterType)
    (canListAll : bool) (user : string) : Call :=
  let '(namespace, name, clusterType) := cluster in
  match e with
  | capiclusters => CallManagedCAPIClusters canListAll user
  | sveltosclusters => CallManagedSveltosClusters canListAll user
  | helmcharts => CallHelmCharts namespace name clusterType
  | resources => CallResources namespace name clusterType
  | getClusterStatus_route => CallProfileStatuses namespace name clusterType
  end.

Definition inventory_error (m : instance) (e : Endpoint)
    (cluster : string * string * ClusterType) (canListAll : bool) (user : string)
  : option error :=
  let '(namespace, name, clusterType) := cluster in
  let failure {A} (x : A + error) :=
    match x with inl _ => None | inr err => Some err end in
  match e with
  | capiclusters => failure (m_GetManagedCAPIClusters m canListAll user)
  | sveltosclusters => failure (m_GetManagedSveltosClusters m canListAll user)
  | helmcharts => failure (m_getHelmChartsForCluster m namespace name clusterType)
  | resources => failure (m_getResourcesForCluster m namespace name clusterType)
  | getClusterStatus_route => None
  end.

(** An Authorization header that is there but shorter than [Bearer ]. *)
Definition short_header (h : string) : Prop :=
  h <> EmptyString /\ (String.length h < String.length "Bearer ")%nat.

(** A manager that accepts every token and allows every review, but
    whose inventory cannot be read. *)
Definition broken_inventory : instance :=
  let unavailable := StatusError "inventory unavailable" in
  mkInstance "https://kubernetes.default.svc" None (fun _ => None)
    (fun _ => inl "alice"%string) None (fun _ => inl true) (fun _ => None)
    (fun _ _ => inr unavailable) (fun _ _ => inr unavailable)
    (fun _ _ _ => inr unavailable) (fun _ _ _ => inr unavailable) (fun _ _ _ => []).

(** What a client and the middleware after the handler can observe of a
    final state: the response, the abort flag, the recorded errors and the
    calls made. *)
Definition response (st : State) : responseWriter * bool * list error * list Call :=
  (Writer (ctx st), aborted (ctx st), Errors (ctx st), calls st).

(** The query parameters a per-cluster handler passes to [c.Query],
    through [getFailedOnlyFromQuery], [getLimitAndSkipFromQuery] and
    [getClusterFromQuery]. *)
Definition parameters_read (e : Endpoint) : list string :=
  match e with
  | getClusterStatus_route => ["failed"; "limit"; "skip"; "namespace"; "name"; "type"]
  | _ => ["limit"; "skip"; "namespace"; "name"; "type"]
  end%string.

(** A header [getTokenFromAuthorizationHeader] gets the token [token]
    from: what follows its first seven bytes is [token], and that is not
    empty. *)
Definition usable_token (h token : string) : Prop :=
  strings.slice_from (String.length "Bearer ") h = Some token /\ token <> EmptyString.

(** * Properties *)

(** ** Strings *)

Lemma HasPrefix_spec (s p : string) :
  strings.HasPrefix s p = true <-> exists post, s = (p ++ post)%string.
Proof.
  revert s. induction p as [|c p IH]; intros s; simpl.
  - split; [intros _; by exists s | reflexivity].
  - destruct s as [|d s].
    + split; [done | intros [post H]; discriminate H].
    + destruct (Ascii.eqb_spec d c) as [->|Hne].
      * rewrite IH. split; intros [post H]; exists post.
        -- by rewrite H.
        -- by injection H.
      * split; [done | intros [post H]; injection H; intros _ ?; done].
Qed.

Lemma Contains_spec (s sub : string) :
  strings.Contains s sub = true <-> is_substring sub s.
Proof.
  unfold is_substring. induction s as [|c s IH].
  - simpl. rewrite orb_false_r, HasPrefix_spec. split.
    + intros [post H]. by exists EmptyString, post.
    + intros [pre [post H]]. destruct pre; [by exists post | discriminate H].
  - cbn [strings.Contains]. rewrite orb_true_iff, IH, HasPrefix_spec. split.
    + intros [[post H] | [pre [post H]]].
      * by exists EmptyString, post.
      * exists (String c pre), post. simpl. by rewrite H.
    + intros [pre [post H]]. destruct pre as [|d pre].
      * left. by exists post.
      * right. simpl in H. injection H as _ H. by exists pre, post.
Qed.

Lemma nonempty_false (s : string) : nonempty s = false <-> s = EmptyString.
Proof.
  unfold nonempty. destruct (String.eqb_spec s EmptyString); split; try done.
Qed.

Lemma nonempty_true (s : string) : nonempty s = true <-> s <> EmptyString.
Proof.
  unfold nonempty. destruct (String.eqb_spec s EmptyString); split; try done.
Qed.

(** ** Label selectors *)

Lemma Matches_spec (s : labels.Selector) (l : gmap string string) :
  labels.Matches s l = true <->
  Forall (fun r => labels.Requirement_Matches r l = true) s.
Proof.
  induction s as [|r s IH]; simpl.
  - split; [intros _; constructor | done].
  - destruct (labels.Requirement_Matches r l) eqn:Hr; simpl.
    + rewrite IH. split; [by constructor | by inversion 1].
    + split; [done | inversion 1; congruence].
Qed.

Lemma Empty_spec (s : labels.Selector) : labels.Empty s = true <-> s = [].
Proof. by destruct s. Qed.

(** ** The cluster filter *)

Lemma getManagedClusterData_loop (filters : clusterFilters)
    (step : ManagedClusters -> ObjectReference * ClusterInfo -> ManagedClusters)
    (keep : ObjectReference * ClusterInfo -> bool)
    (entries : list (ObjectReference * ClusterInfo)) (data : ManagedClusters) :
  (forall d e, step d e =
     if keep e then (d ++ [mkManagedCluster (Namespace e.1) (Name e.1) e.2])%list else d) ->
  foldl step data entries =
  (data ++ ((fun e => mkManagedCluster (Namespace e.1) (Name e.1) e.2) <$>
            filter (fun e => keep e = true) entries))%list.
Proof.
  intros Hstep. revert data. induction entries as [|e entries IH]; intros data; simpl.
  - by rewrite app_nil_r.
  - rewrite IH, Hstep, filter_cons. destruct (keep e); simpl.
    + by rewrite <- app_assoc.
    + done.
Qed.

Lemma keep_entry_passes filters k info :
  keep_entry filters (k, info) = true <-> passes filters k info.
Proof.
  unfold keep_entry, passes. simpl.
  rewrite !andb_true_iff, !negb_true_iff, !andb_false_iff, !negb_false_iff.
  rewrite !nonempty_false, !Contains_spec, Empty_spec, Matches_spec. tauto.
Qed.

Lemma getManagedClusterData_filter clusters filters :
  getManagedClusterData clusters filters =
  (fun e => mkManagedCluster (Namespace e.1) (Name e.1) e.2) <$>
    filter (fun e => keep_entry filters e = true) (map_to_list clusters).
Proof.
  unfold getManagedClusterData.
  rewrite (getManagedClusterData_loop filters _ (keep_entry filters)); [done|].
  intros d e. unfold keep_entry.
  repeat match goal with
         | |- context [if ?b then d else _] => destruct b; simpl; try done
         end.
Qed.

Lemma getManagedClusterData_elem clusters filters mc :
  mc ∈ getManagedClusterData clusters filters <->
  exists k info, clusters !! k = Some info /\
    mc = mkManagedCluster (Namespace k) (Name k) info /\ passes filters k info.
Proof.
  rewrite getManagedClusterData_filter, list_elem_of_fmap. split.
  - intros [[k info] [-> [Hkeep Hin]%list_elem_of_filter]].
    exists k, info. rewrite <- elem_of_map_to_list, <- keep_entry_passes. done.
  - intros (k & info & Hk & -> & Hp). exists (k, info). split; [done|].
    apply list_elem_of_filter. by rewrite keep_entry_passes, elem_of_map_to_list.
Qed.

(** C3: a cluster is in the output of [getManagedClusterData] if and only
    if it is an entry of the inventory whose namespace contains the
    namespace filter (or the filter is empty), whose name contains the name
    filter (or it is empty), and whose labels satisfy every requirement of
    the selector (or the selector is empty).  With the filter
    [namespace=prod] a cluster in namespace [production] is included and
    one in [staging] is not, and when no entry passes the result is the
    empty sequence. *)
Theorem getManagedClusterData_spec :
  (forall clusters filters mc,
     mc ∈ getManagedClusterData clusters filters <->
     exists k info, clusters !! k = Some info /\
       mc = mkManagedCluster (Namespace k) (Name k) info /\ passes filters k info) /\
  (forall clusters k info,
     clusters !! k = Some info ->
     let prod := mkClusterFilters "prod" EmptyString [] in
     let row := mkManagedCluster (Namespace k) (Name k) info in
     (Namespace k = "production"%string -> row ∈ getManagedClusterData clusters prod) /\
     (Namespace k = "staging"%string -> row ∉ getManagedClusterData clusters prod)) /\
  (forall clusters filters,
     (forall k info, clusters !! k = Some info -> ~ passes filters k info) ->
     getManagedClusterData clusters filters = []).
Proof.
  split; [exact getManagedClusterData_elem|]. split.
  - intros clusters k info Hk prod row. split.
    + intros Hns. apply getManagedClusterData_elem. exists k, info.
      split; [done|]. split; [done|]. unfold passes, prod. simpl.
      split; [right | split; by left].
      apply Contains_spec. by rewrite Hns.
    + intros Hst (k' & info' & _ & Hrow & (Hns & _))%getManagedClusterData_elem.
      injection Hrow as Hrow _ _. rewrite <- Hrow, Hst in Hns. simpl in Hns.
      destruct Hns as [Hns | Hns]; [discriminate Hns|].
      by apply Contains_spec in Hns.
  - intros clusters filters Hnone.
    destruct (getManagedClusterData clusters filters) as [|mc rest] eqn:Hd; [done|].
    assert (Hin : mc ∈ getManagedClusterData clusters filters) by (rewrite Hd; left).
    apply getManagedClusterData_elem in Hin as (k & info & Hk & _ & Hp).
    by destruct (Hnone k info Hk).
Qed.

(** ** Windowing *)

Lemma slice_length {A} (items : list A) (lo hi : Z) :
  0 <= lo <= hi -> hi <= slice_len items ->
  slice_len (slice items lo hi) = hi - lo.
Proof.
  unfold slice, slice_len. intros Hlo Hhi.
  rewrite length_take, length_drop. lia.
Qed.

Lemma slice_lookup {A} (items : list A) (lo hi : Z) (i : nat) :
  0 <= lo -> Z.of_nat i < hi - lo ->
  slice items lo hi !! i = items !! (Z.to_nat lo + i)%nat.
Proof.
  unfold slice. intros Hlo Hi.
  rewrite lookup_take_lt by lia. apply lookup_drop.
Qed.

Lemma getSliceInRange_negative {A} (items : list A) (limit skip : Z) :
  limit < 0 \/ skip < 0 ->
  getSliceInRange items limit skip = ([], Some InvalidRange).
Proof.
  unfold getSliceInRange. intros Hneg.
  destruct (limit <? 0) eqn:Hl; [done|]. destruct (skip <? 0) eqn:Hs; [done|]. lia.
Qed.

(** Sorting permutes the slice; in particular it keeps its length. *)
Lemma insert_left_Permutation {A} (less : A -> A -> bool) (x : A) (l : list A) :
  insert_left less x l ≡ₚ x :: l.
Proof.
  induction l as [|y l IH]; simpl; [done|].
  destruct (less x y); [|done]. rewrite IH. apply Permutation_swap.
Qed.

Lemma sort_Slice_Permutation {A} (less : A -> A -> bool) (data : list A) :
  sort_Slice less data ≡ₚ data.
Proof.
  unfold sort_Slice. rewrite <- Permutation_rev.
  assert (H : forall acc, foldl (fun sorted_rev x => insert_left less x sorted_rev) acc data
                          ≡ₚ data ++ acc).
  { induction data as [|x data IH]; intros acc; simpl; [done|].
    rewrite IH, insert_left_Permutation. by rewrite Permutation_middle. }
  rewrite H. by rewrite app_nil_r.
Qed.

Lemma sort_Slice_length {A} (less : A -> A -> bool) (data : list A) :
  slice_len (sort_Slice less data) = slice_len data.
Proof. unfold slice_len. by rewrite (sort_Slice_Permutation less data). Qed.

(** C4: windowing fails with the invalid-range error if [limit < 0] or
    [skip < 0]; if [skip >= length] it succeeds with the empty sequence;
    otherwise it succeeds with the contiguous slice
    [[skip, min(skip+limit, length))] of the sequence: that many rows, the
    [i]-th of which is row [skip + i] of the input. *)
Theorem getSliceInRange_spec {A} (items : list A) (limit skip : Z) :
  (limit < 0 \/ skip < 0 ->
   getSliceInRange items limit skip = ([], Some InvalidRange)) /\
  (0 <= limit -> 0 <= skip -> slice_len items <= skip ->
   getSliceInRange items limit skip = ([], None)) /\
  (0 <= limit -> 0 <= skip -> skip < slice_len items ->
   exists window,
     getSliceInRange items limit skip = (window, None) /\
     slice_len window = Z.min (skip + limit) (slice_len items) - skip /\
     forall i : nat,
       Z.of_nat i < Z.min (skip + limit) (slice_len items) - skip ->
       window !! i = items !! (Z.to_nat skip + i)%nat).
Proof.
  split; [apply getSliceInRange_negative|]. unfold getSliceInRange. split.
  - intros Hl Hs Hlen.
    destruct (limit <? 0) eqn:Hl'; [lia|]. destruct (skip <? 0) eqn:Hs'; [lia|].
    simpl. destruct (slice_len items <=? skip) eqn:Hk; [done | lia].
  - intros Hl Hs Hlen.
    destruct (limit <? 0) eqn:Hl'; [lia|]. destruct (skip <? 0) eqn:Hs'; [lia|].
    simpl. destruct (slice_len items <=? skip) eqn:Hk; [lia|].
    eexists. split; [reflexivity|]. split.
    + apply slice_length; lia.
    + intros i Hi. apply slice_lookup; lia.
Qed.

(** ** Pagination parameters *)

Lemma Query_run (k : string) (st : State) :
  gin.Query k st = (Some (query (request (ctx st)) k), st).
Proof. reflexivity. Qed.

(** C9: when the [limit] query parameter is absent (or empty, which
    [c.Query] does not tell apart) the parsed limit is 6, and when the
    [skip] query parameter is absent the parsed skip is 0, whatever the
    other parameter holds. *)
Theorem getLimitAndSkipFromQuery_defaults (st : State) :
  (query (request (ctx st)) "limit" = EmptyString ->
   exists skip, fst (getLimitAndSkipFromQuery st) = Some (6, skip)) /\
  (query (request (ctx st)) "skip" = EmptyString ->
   exists limit, fst (getLimitAndSkipFromQuery st) = Some (limit, 0)).
Proof.
  unfold getLimitAndSkipFromQuery, bind. rewrite !Query_run.
  split; intros ->; cbn [nonempty String.eqb negb].
  - destruct (nonempty _); [|by eexists].
    destruct (strconv.Atoi _) as [skip [err|]]; by eexists.
  - destruct (nonempty _); [|by eexists].
    destruct (strconv.Atoi _) as [limit [err|]]; by eexists.
Qed.

(** ** Token extraction *)

Lemma GetHeader_run (k : string) (st : State) :
  gin.GetHeader k st = (Some (header (request (ctx st)) k), st).
Proof. reflexivity. Qed.

(** What [getTokenFromAuthorizationHeader] does on every header: an
    absent header and a header of exactly seven bytes are rejected, a
    shorter header makes the slice expression panic, and of a longer
    header everything after the seventh byte is returned as the token,
    whatever the first seven bytes are. *)
Lemma getTokenFromAuthorizationHeader_cases (st : State) :
  let h := header (request (ctx st)) "Authorization" in
  match fst (getTokenFromAuthorizationHeader st) with
  | None => h <> EmptyString /\ (String.length h < 7)%nat
  | Some (token, Some err) =>
      token = EmptyString /\
      ((h = EmptyString /\ err = errorString "authorization header is missing") \/
       (String.length h = 7%nat /\ err = errorString "token is missing"))
  | Some (token, None) =>
      token <> EmptyString /\ strings.slice_from 7 h = Some token
  end.
Proof.
  unfold getTokenFromAuthorizationHeader, bind. rewrite GetHeader_run.
  cbn zeta. set (h := header _ _).
  destruct (nonempty h) eqn:Hh; cbn [negb].
  - apply nonempty_true in Hh. change (String.length "Bearer ") with 7%nat.
    destruct (strings.slice_from 7 h) as [token|] eqn:Hs.
    + destruct (nonempty token) eqn:Ht; cbn [negb fst].
      * by apply nonempty_true in Ht.
      * apply nonempty_false in Ht. subst token. split; [done|]. right. split; [|done].
        do 7 (destruct h as [|? h]; [discriminate Hs|]). simpl in Hs.
        by injection Hs as ->.
    + cbn [fst panic]. split; [done|].
      do 7 (destruct h as [|? h]; [simpl; lia|]). discriminate Hs.
  - apply nonempty_false in Hh. cbn [fst]. split; [done|]. by left.
Qed.

(** C1, evaluated where the code departs from it: the header [Bearer]
    (no token part) makes token extraction panic instead of failing with
    an error, so that the request is answered 500 by the recovery
    middleware; and the header [Basic dXNlcjpwdw==], which is not of the
    form [Bearer <token>], is accepted with the token [XNlcjpwdw==]. *)
Theorem getTokenFromAuthorizationHeader_failing_inputs :
  let short := mkRequest ∅ {[ "Authorization"%string := "Bearer"%string ]} in
  let basic := mkRequest ∅ {[ "Authorization"%string := "Basic dXNlcjpwdw=="%string ]} in
  fst (getTokenFromAuthorizationHeader (initial short)) = None /\
  status (Writer (ctx (gin.serve (route Sample.no_labels Sample.permissive capiclusters)
                         short))) = StatusInternalServerError /\
  fst (getTokenFromAuthorizationHeader (initial basic)) = Some ("XNlcjpwdw=="%string, None).
Proof. repeat split; vm_compute; reflexivity. Qed.

(** ** The permission checks *)

Lemma call_run (c : Call) (st : State) :
  call c st = (Some tt, mkState (ctx st) (calls st ++ [c])).
Proof. reflexivity. Qed.

(** C10: [canGetCluster] runs the CAPI per-cluster get check exactly when
    [clusterType] equals [ClusterTypeCapi]; for every other value it runs
    the Sveltos per-cluster get check.  That includes the zero value,
    which is what [getClusterFromQuery] returns when the [type] parameter
    matches neither literal. *)
Theorem canGetCluster_dispatch (m : instance) (namespace name user : string)
    (clusterType : ClusterType) :
  (clusterType = ClusterTypeCapi ->
   canGetCluster m namespace name user clusterType =
   canGetCAPICluster m namespace name user) /\
  (clusterType <> ClusterTypeCapi ->
   canGetCluster m namespace name user clusterType =
   canGetSveltosCluster m namespace name user) /\
  canGetCluster m namespace name user EmptyString =
    canGetSveltosCluster m namespace name user /\
  (forall st,
     strings.EqualFold (query (request (ctx st)) "type") ClusterTypeSveltos = false ->
     strings.EqualFold (query (request (ctx st)) "type") ClusterTypeCapi = false ->
     fst (getClusterFromQuery st) = Some (EmptyString, EmptyString, EmptyString)) /\
  (forall st,
     api_NewForConfig m = None ->
     calls (snd (canGetCluster m namespace name user clusterType st)) =
     (calls st ++ [CallSubjectAccessReview (get_review clusterType namespace name user)])%list /\
     calls (snd (canGetCAPICluster m namespace name user st)) <>
     calls (snd (canGetSveltosCluster m namespace name user st))).
Proof.
  split; [|split; [|split; [|split]]].
  5:{ intros st Hcfg. split.
      - unfold canGetCluster, get_review.
        destruct (String.eqb clusterType ClusterTypeCapi);
          unfold canGetCAPICluster, canGetSveltosCluster; rewrite Hcfg;
          unfold createSubjectAccessReview, bind; rewrite call_run;
          by destruct (api_SubjectAccessReview m _).
      - unfold canGetCAPICluster, canGetSveltosCluster. rewrite Hcfg.
        unfold createSubjectAccessReview, bind. rewrite !call_run.
        repeat match goal with |- context [api_SubjectAccessReview ?m ?s] =>
          destruct (api_SubjectAccessReview m s) end; cbn [snd calls];
          intros H%app_inv_head; discriminate H. }
  all: unfold canGetCluster.
  - intros ->. reflexivity.
  - intros Hne. by destruct (String.eqb_spec clusterType ClusterTypeCapi).
  - reflexivity.
  - intros st Hs Hc. unfold getClusterFromQuery, bind. rewrite !Query_run.
    cbn zeta. rewrite Hs, Hc.
    repeat match goal with |- context [negb (nonempty ?s)] => destruct (nonempty s) end;
      reflexivity.
Qed.

(** ** Running the handlers

    Each step of a handler is given as a function of the request and of
    the answers of the collaborators, next to its effect on the state. *)

Lemma JSON_run code obj st :
  gin.JSON code obj st = (Some tt, wr (fun w => gin.Write obj (gin.WriteHeader code w)) st).
Proof. reflexivity. Qed.

Lemma AbortWithError_run code err st :
  gin.AbortWithError code err st = (Some tt, abort_with code err st).
Proof. reflexivity. Qed.

Lemma abort_with_AbortWithError code err st :
  abort_with code err st = snd (gin.AbortWithError code err st).
Proof. reflexivity. Qed.

Lemma wr_id st : wr (fun w => w) st = st.
Proof. by destruct st as [[] ?]. Qed.

(** *** Query parameters *)

Lemma getLimitAndSkipFromQuery_run st :
  getLimitAndSkipFromQuery st =
  (Some (limit_skip (request (ctx st))),
   wr (complain (limit_skip_complaint (request (ctx st)))) st).
Proof.
  unfold getLimitAndSkipFromQuery, limit_skip, limit_skip_complaint,
    parseLimitAndSkip, bind.
  rewrite !Query_run. cbn zeta.
  destruct (if nonempty (query _ "limit") then _ else _) as [limit [e|]].
  - by rewrite JSON_run.
  - destruct (if nonempty (query _ "skip") then _ else _) as [skip [e|]].
    + by rewrite JSON_run.
    + cbn. by rewrite wr_id.
Qed.

Lemma getClusterFromQuery_run st :
  getClusterFromQuery st =
  (Some (cluster_of (request (ctx st))),
   wr (complain (cluster_complaint (request (ctx st)))) st).
Proof.
  unfold getClusterFromQuery, cluster_of, cluster_complaint, parseCluster, bind.
  rewrite !Query_run. cbn zeta.
  repeat match goal with
         | |- context [if ?b then _ else _] => destruct b
         end; rewrite ?JSON_run; cbn; rewrite ?wr_id; reflexivity.
Qed.

Lemma getFailedOnlyFromQuery_run st :
  getFailedOnlyFromQuery st =
  (Some (failed_of (request (ctx st))),
   wr (complain (failed_complaint (request (ctx st)))) st).
Proof.
  unfold getFailedOnlyFromQuery, failed_of, failed_complaint, bind.
  rewrite Query_run. destruct (nonempty _); [|cbn; by rewrite wr_id].
  destruct (ParseBool _) as [b [e|]]; rewrite ?JSON_run; cbn; by rewrite ?wr_id.
Qed.

Lemma getClusterFiltersFromQuery_run labels_Parse st :
  getClusterFiltersFromQuery labels_Parse st =
  (Some (filters_of labels_Parse (request (ctx st))), st).
Proof.
  unfold getClusterFiltersFromQuery, filters_of, bind. rewrite !Query_run.
  destruct (nonempty _); [|done]. by destruct (labels_Parse _) as [sel [e|]].
Qed.

(** *** Authentication *)

Lemma add_calls_nil st : add_calls [] st = st.
Proof. unfold add_calls. rewrite app_nil_r. by destruct st. Qed.

Lemma add_calls_app l1 l2 st : add_calls l2 (add_calls l1 st) = add_calls (l1 ++ l2) st.
Proof. unfold add_calls. simpl. by rewrite app_assoc. Qed.

Lemma validateToken_run m st :
  validateToken m st =
  let o := authenticate m (header (request (ctx st)) "Authorization") in
  (auth_result o, auth_state o st).
Proof.
  unfold validateToken, getTokenFromAuthorizationHeader, authenticate, bind.
  rewrite GetHeader_run. cbn zeta.
  change (String.length "Bearer ") with 7%nat.
  destruct (nonempty (header _ _)); cbn [negb]; [|reflexivity].
  destruct (strings.slice_from 7 _) as [token|]; [|reflexivity].
  destruct (nonempty token); cbn [negb]; [|reflexivity].
  unfold ret at 1. cbn beta iota. rewrite call_run. cbn beta iota.
  destruct (m_validateToken m token) as [err|]; [reflexivity|].
  unfold getUserFromToken, getKubernetesRestConfig, bind.
  destruct (api_NewPool m) as [err|]; [reflexivity|].
  destruct (api_AuthNewForConfig m token) as [err|]; [reflexivity|].
  rewrite call_run. cbn beta iota.
  destruct (api_SelfSubjectReview m token) as [user|err]; cbn;
    unfold add_calls, abort_with; cbn; by rewrite <- app_assoc.
Qed.

(** *** Authorization *)

Lemma check_run m sar st (f : M (bool * option error)) :
  f = createSubjectAccessReview m sar ->
  (match api_NewForConfig m with Some err => ret (false, Some err) | None => f end) st =
  (Some (check m sar).1, add_calls (check m sar).2 st).
Proof.
  intros ->. unfold check, createSubjectAccessReview, bind.
  destruct (api_NewForConfig m) as [err|]; cbn; [by rewrite add_calls_nil|].
  by destruct (api_SubjectAccessReview m sar).
Qed.

Lemma canListCAPIClusters_run m user st :
  canListCAPIClusters m user st =
  (Some (check m (list_review ClusterTypeCapi user)).1,
   add_calls (check m (list_review ClusterTypeCapi user)).2 st).
Proof. apply check_run. reflexivity. Qed.

Lemma canListSveltosClusters_run m user st :
  canListSveltosClusters m user st =
  (Some (check m (list_review ClusterTypeSveltos user)).1,
   add_calls (check m (list_review ClusterTypeSveltos user)).2 st).
Proof. apply check_run. reflexivity. Qed.

Lemma canGetCluster_run m namespace name user clusterType st :
  canGetCluster m namespace name user clusterType st =
  (Some (check m (get_review clusterType namespace name user)).1,
   add_calls (check m (get_review clusterType namespace name user)).2 st).
Proof.
  unfold canGetCluster, get_review.
  destruct (String.eqb clusterType ClusterTypeCapi); apply check_run; reflexivity.
Qed.

(** *** The handlers as functions of the request *)

Lemma withClusterAccess_run labels_Parse m e r st k namespace name clusterType :
  per_cluster e = true ->
  request (ctx st) = r ->
  cluster_of r = (namespace, name, clusterType) ->
  (forall st', k st' =
     (Some tt, after_access labels_Parse m e r true
                 match authenticate m (header r "Authorization") with
                 | AuthUser _ user => user
                 | _ => EmptyString
                 end st')) ->
  withClusterAccess m namespace name clusterType k st =
  match authenticate m (header r "Authorization") with
  | AuthPanic => (None, st)
  | AuthUser token user =>
      (Some tt, after_authentication labels_Parse m e r user
                  (auth_state (AuthUser token user) st))
  | o =>
      (Some tt, match auth_error o with
                | Some err => abort_with StatusUnauthorized err (auth_state o st)
                | None => auth_state o st
                end)
  end.
Proof.
  intros He Hr Hc Hk. unfold withClusterAccess, bind.
  rewrite validateToken_run, Hr. cbn zeta.
  destruct (authenticate m (header r "Authorization")) as [|msg|token err|token err b|token user];
    cbn [auth_result auth_error]; try reflexivity.
  rewrite canGetCluster_run. unfold after_authentication, review_of. rewrite He, Hc.
  cbn [fst snd].
  destruct (check m _) as [[allowed oerr] cs]. cbn [fst snd].
  destruct oerr as [err|]; [reflexivity|].
  destruct allowed; cbn [negb andb]; [apply Hk | reflexivity].
Qed.

Lemma serve_recover (h : M unit) (r : Request) :
  gin.serve h r =
  match h (initial r) with
  | (Some _, st) => st
  | (None, st) => recover st
  end.
Proof. unfold gin.serve. fold (initial r). by destruct (h (initial r)) as [[[]|] st]. Qed.

Ltac run_step :=
  first
    [ rewrite getLimitAndSkipFromQuery_run
    | rewrite getClusterFromQuery_run
    | rewrite getFailedOnlyFromQuery_run
    | rewrite getClusterFiltersFromQuery_run ];
  cbn beta iota zeta; cbn [request ctx wr initial gin.new_Context].

Lemma per_cluster_final labels_Parse m e r :
  per_cluster e = true ->
  gin.serve (route labels_Parse m e) r = final_state labels_Parse m e r.
Proof.
  intros He. rewrite serve_recover. unfold final_state. rewrite He.
  destruct (limit_skip r) as [limit skip] eqn:Hls.
  destruct (cluster_of r) as [[namespace name] clusterType] eqn:Hc.
  destruct e; try discriminate He; cbn [route];
    [unfold getDeployedHelmCharts | unfold getDeployedResources | unfold getClusterStatus];
    unfold bind; repeat (run_step; rewrite ?Hls, ?Hc; cbn beta iota zeta).
  all: erewrite (withClusterAccess_run labels_Parse m _ r); [| done | done | exact Hc |].
  all: try (destruct (authenticate m _); reflexivity).
  all: intros st'; unfold after_access, full_result, fetch_call, bind;
       rewrite call_run, Hc, Hls; cbn [fst snd per_cluster].
  - destruct (m_getHelmChartsForCluster _ _ _ _) as [charts|err]; cbn; [|reflexivity].
    by destruct (getHelmReleaseInRange _ _ _) as [w [err|]].
  - destruct (m_getResourcesForCluster _ _ _ _) as [res|err]; cbn; [|reflexivity].
    by destruct (getResourcesInRange _ _ _) as [w [err|]].
  - cbn. by destruct (getFlattenedProfileStatusesInRange _ _ _) as [w [err|]].
Qed.

Lemma respondClusters_run labels_Parse m e r canListAll user st
    (fetched : gmap ObjectReference ClusterInfo + error) :
  per_cluster e = false ->
  fetched = match e with
            | capiclusters => m_GetManagedCAPIClusters m canListAll user
            | _ => m_GetManagedSveltosClusters m canListAll user
            end ->
  respondClusters (go_pair ∅ fetched) (filters_of labels_Parse r).1
    (limit_skip r).1 (limit_skip r).2
    (add_calls [fetch_call e r canListAll user] st) =
  (Some tt, after_access labels_Parse m e r canListAll user st).
Proof.
  intros He ->. unfold respondClusters, after_access, full_result.
  destruct (cluster_of r) as [[namespace name] clusterType].
  destruct e; try discriminate He; cbn [per_cluster];
    match goal with |- context [go_pair _ ?f] => destruct f as [clusters|err] end;
    cbn [go_pair window_of]; try reflexivity;
    by destruct (getClustersInRange _ _ _) as [w [err|]].
Qed.

Lemma listing_final labels_Parse m e r :
  per_cluster e = false ->
  gin.serve (route labels_Parse m e) r = final_state labels_Parse m e r.
Proof.
  intros He. rewrite serve_recover. unfold final_state. rewrite He.
  pose proof (respondClusters_run labels_Parse m e r) as Hk.
  destruct (limit_skip r) as [limit skip] eqn:Hls.
  destruct (filters_of labels_Parse r) as [filters oerr] eqn:Hf.
  destruct e; try discriminate He; cbn [route];
    [unfold getManagedCAPIClusters | unfold getManagedSveltosClusters];
    unfold bind; repeat (run_step; rewrite ?Hls, ?Hf; cbn beta iota zeta).
  all: destruct oerr as [err|]; cbn [snd]; [reflexivity|].
  all: rewrite validateToken_run; cbn zeta; cbn [request ctx wr initial gin.new_Context].
  all: fold (st_params capiclusters r); fold (st_params sveltosclusters r).
  all: destruct (authenticate m _) as [|msg|token err|token err b|token user];
       cbn [auth_result auth_error]; try reflexivity.
  all: first [rewrite canListCAPIClusters_run | rewrite canListSveltosClusters_run].
  all: unfold after_authentication, review_of, cluster_type_of; cbn [per_cluster andb].
  all: destruct (check m _) as [[allowed oerr] cs]; cbn [fst snd].
  all: destruct oerr as [err|]; [reflexivity|].
  all: rewrite call_run.
  all: match goal with
       | |- context [respondClusters _ _ _ _ (mkState (ctx ?st) _)] =>
           specialize (Hk allowed user st _ eq_refl eq_refl)
       end.
  all: unfold fetch_call, add_calls at 1 in Hk.
  all: destruct (cluster_of r) as [[namespace name] clusterType].
  all: cbn [fst snd] in Hk; by rewrite Hk.
Qed.

(** Every endpoint ends in the state [final_state] describes. *)
Lemma serve_final labels_Parse m e r :
  gin.serve (route labels_Parse m e) r = final_state labels_Parse m e r.
Proof.
  destruct (per_cluster e) eqn:He; [by apply per_cluster_final | by apply listing_final].
Qed.

(** *** The response writer *)

Lemma status_WriteHeader code w :
  status (gin.WriteHeader code w) =
  if (0 <? code) && negb (written w) then code else status w.
Proof.
  unfold gin.WriteHeader.
  destruct (0 <? code); cbn [andb]; [|done].
  destruct (Z.eqb_spec (status w) code) as [Heq|Hne]; cbn [negb andb].
  - by destruct (written w).
  - by destruct (written w).
Qed.

Lemma written_WriteHeader code w : written (gin.WriteHeader code w) = written w.
Proof.
  unfold gin.WriteHeader. destruct (_ && _); [|done]. by destruct (written w) eqn:Hw.
Qed.

Lemma body_WriteHeader code w : body (gin.WriteHeader code w) = body w.
Proof.
  unfold gin.WriteHeader. destruct (_ && _); [|done]. by destruct (written w).
Qed.

Lemma status_WriteHeaderNow w : status (gin.WriteHeaderNow w) = status w.
Proof. unfold gin.WriteHeaderNow. by destruct (written w). Qed.

Lemma written_WriteHeaderNow w : written (gin.WriteHeaderNow w) = true.
Proof. unfold gin.WriteHeaderNow. by destruct (written w) eqn:Hw. Qed.

Lemma body_WriteHeaderNow w : body (gin.WriteHeaderNow w) = body w.
Proof. unfold gin.WriteHeaderNow. by destruct (written w). Qed.

Lemma status_Write v w : status (gin.Write v w) = status w.
Proof. unfold gin.Write. cbn. apply status_WriteHeaderNow. Qed.

Lemma written_Write v w : written (gin.Write v w) = true.
Proof. unfold gin.Write. cbn. apply written_WriteHeaderNow. Qed.

Lemma body_Write v w : body (gin.Write v w) = (body w ++ [v])%list.
Proof. unfold gin.Write. cbn. by rewrite body_WriteHeaderNow. Qed.

Create Rewrite HintDb writer.
#[export] Hint Rewrite status_WriteHeader written_WriteHeader body_WriteHeader
  status_WriteHeaderNow written_WriteHeaderNow body_WriteHeaderNow
  status_Write written_Write body_Write : writer.

Lemma complain_fold (os : list (option string)) (w : responseWriter) :
  let w' := foldl (fun w o => complain o w) w os in
  let any := existsb (fun o : option string => bool_decide (is_Some o)) os in
  status w' = (if written w then status w else if any then StatusBadRequest else status w) /\
  written w' = written w || any /\
  body w' = (body w ++ (H_error <$> omap id os))%list.
Proof.
  revert w. induction os as [|o os IH]; intros w; cbn zeta.
  - cbn. rewrite orb_false_r, app_nil_r. by destruct (written w).
  - cbn [foldl existsb omap]. destruct (IH (complain o w)) as (Hs & Hw & Hb).
    rewrite Hs, Hw, Hb. destruct o as [msg|]; cbn [complain id].
    + autorewrite with writer. cbn [bool_decide orb fmap].
      rewrite bool_decide_true by done. cbn.
      repeat split; [by destruct (written w) | by rewrite orb_true_r |].
      by rewrite <- app_assoc.
    + by rewrite bool_decide_false by (by intros []).
Qed.

Lemma st_params_writer e r :
  let w := Writer (ctx (st_params e r)) in
  status w = (if complained e r then StatusBadRequest else StatusOK) /\
  written w = complained e r /\
  body w = complaint_bodies e r.
Proof.
  unfold st_params. cbn [ctx Writer wr initial gin.new_Context].
  destruct (complain_fold (complaints e r) (mkWriter StatusOK false [])) as (Hs & Hw & Hb).
  cbn zeta in *. by rewrite Hs, Hw, Hb.
Qed.

Lemma st_params_calls e r : calls (st_params e r) = [].
Proof. reflexivity. Qed.

Lemma st_params_request e r : request (ctx (st_params e r)) = r.
Proof. reflexivity. Qed.

Lemma st_params_Errors e r : Errors (ctx (st_params e r)) = [].
Proof. reflexivity. Qed.

Lemma st_params_aborted e r : aborted (ctx (st_params e r)) = false.
Proof. reflexivity. Qed.

(** *** The ways a request can end *)

Lemma serve_outcome labels_Parse m e r :
  Outcome labels_Parse m e r (gin.serve (route labels_Parse m e) r).
Proof.
  rewrite serve_final. unfold final_state.
  assert (Hfa : (if per_cluster e then None else (filters_of labels_Parse r).2) = None ->
                filters_accepted labels_Parse e r).
  { unfold filters_accepted. destruct (per_cluster e); [by left | by right]. }
  destruct (if per_cluster e then None else _) as [err|] eqn:Hf.
  { destruct (per_cluster e) eqn:He; [discriminate Hf|]. by apply BadFilters. }
  specialize (Hfa eq_refl).
  destruct (authenticate m _) as [|msg|token err|token err b|token user] eqn:Ha;
    try (by eapply Unauthenticated).
  { by apply Panicked. }
  unfold after_authentication, check.
  destruct (api_NewForConfig m) as [err|] eqn:Hcfg.
  { cbn [auth_state]. rewrite add_calls_nil. by eapply NoClient. }
  destruct (api_SubjectAccessReview m _) as [allowed|err] eqn:Hsar.
  2:{ cbn [auth_state]. rewrite add_calls_app. by eapply ReviewFailed. }
  cbn [auth_state]. rewrite add_calls_app.
  destruct (per_cluster e && negb allowed) eqn:Hdeny.
  { apply andb_true_iff in Hdeny as [He ->%negb_true_iff]. by eapply Denied. }
  assert (Hallow : per_cluster e = true -> allowed = true).
  { intros He. rewrite He in Hdeny. by destruct allowed. }
  unfold after_access. rewrite add_calls_app.
  destruct (full_result _ _ _ _ _ _) as [full|err] eqn:Hfull.
  2:{ by eapply FetchFailed. }
  destruct (window_of _ _ _) as [v [err|]] eqn:Hw.
  - by eapply BadRange.
  - by eapply Responded.
Qed.

Lemma st_params_status e r :
  status (Writer (ctx (st_params e r))) =
  if complained e r then StatusBadRequest else StatusOK.
Proof. apply st_params_writer. Qed.

Lemma st_params_written e r : written (Writer (ctx (st_params e r))) = complained e r.
Proof. apply st_params_writer. Qed.

Lemma st_params_body e r : body (Writer (ctx (st_params e r))) = complaint_bodies e r.
Proof. apply st_params_writer. Qed.

#[export] Hint Rewrite st_params_status st_params_written st_params_body
  st_params_calls st_params_Errors st_params_aborted st_params_request : writer.

(** Project a final state onto its parts. *)
Ltac project :=
  cbn [abort_with wr add_calls recover auth_state ctx calls Writer aborted Errors request];
  autorewrite with writer;
  cbn [andb negb Z.ltb Z.compare StatusOK StatusBadRequest StatusUnauthorized
       StatusInternalServerError].

Lemma complaint_bodies_errors e r v :
  v ∈ complaint_bodies e r -> is_result v = false.
Proof. unfold complaint_bodies. by intros (msg & -> & _)%list_elem_of_fmap. Qed.

Lemma full_result_total labels_Parse m e r canListAll user full :
  full_result labels_Parse m e r canListAll user = inl full ->
  is_result full = true /\ total_of full = Some (rows_of full).
Proof.
  unfold full_result. destruct (cluster_of r) as [[namespace name] clusterType].
  destruct e;
    repeat match goal with |- context [match ?x with inl _ => _ | inr _ => _ end] =>
             destruct x end;
    intros [= <-]; done.
Qed.

Lemma window_of_total full limit skip v oerr :
  window_of full limit skip = (v, oerr) ->
  total_of v = total_of full /\ is_result v = is_result full.
Proof. destruct full; intros [= <- _]; done. Qed.

Lemma getSliceInRange_rows {A} (items : list A) limit skip :
  slice_len (getSliceInRange items limit skip).1 <= slice_len items.
Proof.
  unfold getSliceInRange, slice_len, slice.
  destruct (_ || _); cbn [fst length]; [lia|].
  destruct (_ <=? _); cbn [fst length]; [lia|].
  rewrite length_take, length_drop. lia.
Qed.

Lemma window_of_rows full limit skip v oerr :
  window_of full limit skip = (v, oerr) -> rows_of v <= rows_of full.
Proof.
  destruct full; intros [= <- _]; cbn [rows_of]; try lia; apply getSliceInRange_rows.
Qed.

(** What a response body holds: the complaints of the query parsers, at
    most one complaint of the token extraction, and at most one result. *)
Lemma outcome_body labels_Parse m e r st v :
  Outcome labels_Parse m e r st ->
  v ∈ body (Writer (ctx st)) -> is_result v = true ->
  exists token user allowed full,
    authenticate m (header r "Authorization") = AuthUser token user /\
    api_SubjectAccessReview m (review_of e r user) = inl allowed /\
    full_result labels_Parse m e r allowed user = inl full /\
    window_of full (limit_skip r).1 (limit_skip r).2 = (v, None) /\
    calls st = all_calls e r token user allowed.
Proof.
  intros Hout Hv Hres.
  destruct Hout as [err He Hf| Hfa Ha | o err Hfa Ha Herr | token user err Hfa Ha Hcfg
    | token user err Hfa Ha Hcfg Hsar | token user He Ha Hcfg Hsar
    | token user allowed err Hfa Ha Hcfg Hsar Hallow Hfull
    | token user allowed full w err Hfa Ha Hcfg Hsar Hallow Hfull Hw
    | token user allowed full w Hfa Ha Hcfg Hsar Hallow Hfull Hw ];
    revert Hv; try (destruct o; try discriminate Herr); project;
    try (intros Hv%complaint_bodies_errors; congruence).
  - intros [Hv%complaint_bodies_errors | ->%list_elem_of_singleton]%elem_of_app;
      [congruence | discriminate Hres].
  - intros [Hv%complaint_bodies_errors | ->%list_elem_of_singleton]%elem_of_app;
      [congruence|].
    by exists token, user, allowed, full.
Qed.

(** ** Total counts *)

Lemma same_except_paging_full labels_Parse m e r r' allowed user :
  same_except_paging r r' ->
  header r "Authorization" = header r' "Authorization" /\
  review_of e r user = review_of e r' user /\
  full_result labels_Parse m e r allowed user =
  full_result labels_Parse m e r' allowed user.
Proof.
  intros [Hh Hq]. unfold header, review_of, cluster_type_of, full_result, cluster_of,
    filters_of, failed_of.
  rewrite Hh, !(Hq "namespace"%string), !(Hq "name"%string), !(Hq "type"%string),
    !(Hq "labels"%string), !(Hq "failed"%string) by done.
  done.
Qed.

(** C6: every result object in a response carries as total count the
    length of the full filtered and sorted sequence, of which its rows are
    the window; the count is the same for two requests that differ only in
    [limit] and [skip]; and it can exceed the number of rows returned. *)
Theorem total_count_before_windowing :
  (forall labels_Parse m e r v,
     v ∈ body (Writer (ctx (gin.serve (route labels_Parse m e) r))) ->
     is_result v = true ->
     exists canListAll user full,
       full_result labels_Parse m e r canListAll user = inl full /\
       window_of full (limit_skip r).1 (limit_skip r).2 = (v, None) /\
       total_of v = Some (rows_of full) /\
       rows_of v <= rows_of full) /\
  (forall labels_Parse m e r r' v v',
     same_except_paging r r' ->
     v ∈ body (Writer (ctx (gin.serve (route labels_Parse m e) r))) ->
     v' ∈ body (Writer (ctx (gin.serve (route labels_Parse m e) r'))) ->
     is_result v = true -> is_result v' = true ->
     total_of v = total_of v') /\
  (exists v,
     v ∈ body (Writer (ctx (gin.serve
           (route Sample.no_labels Sample.permissive sveltosclusters)
           (Sample.get [("limit", "1")]%string Sample.bearer)))) /\
     total_of v = Some 3 /\ rows_of v = 1).
Proof.
  split; [|split].
  - intros labels_Parse m e r v Hv Hres.
    destruct (outcome_body _ _ _ _ _ _ (serve_outcome labels_Parse m e r) Hv Hres)
      as (token & user & allowed & full & _ & _ & Hfull & Hw & _).
    exists allowed, user, full. split; [done|]. split; [done|].
    destruct (window_of_total _ _ _ _ _ Hw) as [-> _].
    split; [by eapply full_result_total | by eapply window_of_rows].
  - intros labels_Parse m e r r' v v' Hsame Hv Hv' Hres Hres'.
    destruct (outcome_body _ _ _ _ _ _ (serve_outcome labels_Parse m e r) Hv Hres)
      as (token & user & allowed & full & Ha & Hsar & Hfull & Hw & _).
    destruct (outcome_body _ _ _ _ _ _ (serve_outcome labels_Parse m e r') Hv' Hres')
      as (token' & user' & allowed' & full' & Ha' & Hsar' & Hfull' & Hw' & _).
    destruct (same_except_paging_full labels_Parse m e r r' allowed user Hsame)
      as (Hh & Hrev & Hfr).
    rewrite Hh, Ha' in Ha. injection Ha as -> ->.
    rewrite Hrev, Hsar' in Hsar. injection Hsar as ->.
    rewrite Hfr, Hfull' in Hfull. injection Hfull as ->.
    destruct (window_of_total _ _ _ _ _ Hw) as [-> _].
    by destruct (window_of_total _ _ _ _ _ Hw') as [-> _].
  - eexists. split; [|split].
    + vm_compute. left.
    + reflexivity.
    + reflexivity.
Qed.

(** ** The order of the stages *)

Lemma validateToken_result m r :
  fst (validateToken m (initial r)) =
  auth_result (authenticate m (header r "Authorization")).
Proof. by rewrite validateToken_run. Qed.

Lemma get_check_result m r user e :
  per_cluster e = true ->
  get_check m r user = Some (check m (review_of e r user)).1.
Proof.
  intros He. unfold get_check, review_of. rewrite He, getClusterFromQuery_run.
  cbn [fst request ctx initial gin.new_Context].
  destruct (cluster_of r) as [[namespace name] clusterType].
  by rewrite canGetCluster_run.
Qed.

Lemma filters_parsed_accepted labels_Parse e r :
  filters_parsed labels_Parse e r <-> filters_accepted labels_Parse e r.
Proof.
  unfold filters_parsed, filters_accepted.
  rewrite getClusterFiltersFromQuery_run. cbn [fst request ctx initial gin.new_Context].
  destruct (filters_of labels_Parse r) as [filters [err|]]; cbn [snd].
  - split; (intros [He|H]; [by left | right]); [by destruct H | done].
  - split; (intros [He|H]; [by left | right]); [done | by exists filters].
Qed.

Lemma stage_fetch_call e r allowed user :
  stage_of (fetch_call e r allowed user) = DataAccess.
Proof. unfold fetch_call. destruct (cluster_of r) as [[? ?] ?]. by destruct e. Qed.

Lemma strictly_staged_all_calls e r token user allowed :
  strictly_staged (all_calls e r token user allowed).
Proof.
  intros i j ci cj Hi Hj Hlt. unfold all_calls, access_calls, authn_calls in *.
  cbn [app] in *.
  destruct i as [|[|[|[|i]]]]; cbn in Hi; try discriminate Hi; injection Hi as <-;
  destruct j as [|[|[|[|j]]]]; cbn in Hj; try discriminate Hj; injection Hj as <-;
    rewrite ?stage_fetch_call in Hlt; cbn in Hlt; lia.
Qed.

Lemma strictly_staged_prefix l1 l2 : strictly_staged (l1 ++ l2) -> strictly_staged l1.
Proof.
  intros H i j ci cj Hi Hj. apply H; by apply lookup_app_l_Some.
Qed.

Lemma no_fetch_access_calls e r token user : no_fetch (access_calls e r token user).
Proof.
  intros c Hc. unfold access_calls, authn_calls in Hc. cbn in Hc.
  repeat (apply elem_of_cons in Hc as [-> | Hc]; [done|]). by apply elem_of_nil in Hc.
Qed.

Lemma no_fetch_prefix l1 l2 : no_fetch (l1 ++ l2) -> no_fetch l1.
Proof. intros H c Hc. apply H, elem_of_app. by left. Qed.

(** The calls of a request are an initial part of the three stages in
    order, and the inventory is only asked at the very end. *)
Lemma outcome_calls labels_Parse m e r st :
  Outcome labels_Parse m e r st ->
  (exists token user allowed,
     authenticate m (header r "Authorization") = AuthUser token user /\
     api_NewForConfig m = None /\
     api_SubjectAccessReview m (review_of e r user) = inl allowed /\
     (per_cluster e = true -> allowed = true) /\
     calls st = all_calls e r token user allowed) \/
  (no_fetch (calls st) /\
   exists token user rest, (calls st ++ rest)%list = access_calls e r token user).
Proof.
  intros Hout.
  destruct Hout as [err He Hf| Hfa Ha | o err Hfa Ha Herr | token user err Hfa Ha Hcfg
    | token user err Hfa Ha Hcfg Hsar | token user He Ha Hcfg Hsar
    | token user allowed err Hfa Ha Hcfg Hsar Hallow Hfull
    | token user allowed full w err Hfa Ha Hcfg Hsar Hallow Hfull Hw
    | token user allowed full w Hfa Ha Hcfg Hsar Hallow Hfull Hw ];
    try (left; exists token, user, allowed; by project).
  all: right; try (destruct o as [| |token ?|token ? []|]; try discriminate Herr);
    project; unfold access_calls, authn_calls; cbn [app].
  all: split;
    [ intros c Hc; repeat (apply elem_of_cons in Hc as [-> | Hc]; [done|]);
      by apply elem_of_nil in Hc |].
  all: first [ by (exists token, user; eexists; reflexivity)
             | by (exists token, EmptyString; eexists; reflexivity)
             | by (exists EmptyString, EmptyString; eexists; reflexivity) ].
Qed.

Ltac outcome_cases H :=
  destruct H as [err He Hf| Hfa Ha | o err Hfa Ha Herr | token user err Hfa Ha Hcfg
    | token user err Hfa Ha Hcfg Hsar | token user He Ha Hcfg Hsar
    | token user allowed err Hfa Ha Hcfg Hsar Hallow Hfull
    | token user allowed full w err Hfa Ha Hcfg Hsar Hallow Hfull Hw
    | token user allowed full w Hfa Ha Hcfg Hsar Hallow Hfull Hw ].

(** The order of the stages.  In every handler the calls of one request
    come in the order authentication, authorization, data access; the
    inventory is asked only after the token was validated, the user looked
    up and the permission review answered (with "allowed" on the
    per-cluster endpoints); and when [validateToken] returns an error, or
    the per-cluster get check returns false or an error, the handler ends
    in [AbortWithError(401, ...)] without any call to the inventory.  The
    status sent is 401 unless a query parser had already answered 400.
    This leaves out the run in which [validateToken] does not return at
    all, on a header too short to slice. *)
Theorem authentication_authorization_data_access
    (labels_Parse : string -> labels.Selector * option error)
    (m : instance) (e : Endpoint) (r : Request) :
  let st := gin.serve (route labels_Parse m e) r in
  strictly_staged (calls st) /\
  (forall c, c ∈ calls st -> is_fetch c = true ->
     exists token user allowed,
       authenticated m r user /\
       api_SubjectAccessReview m (review_of e r user) = inl allowed /\
       (per_cluster e = true -> allowed = true) /\
       calls st = [CallValidateToken token; CallSelfSubjectReview token;
                   CallSubjectAccessReview (review_of e r user); c]) /\
  (forall err,
     authentication_fails m r err -> filters_parsed labels_Parse e r ->
     no_fetch (calls st) /\
     aborted (ctx st) = true /\
     (exists st', st = snd (gin.AbortWithError StatusUnauthorized err st')) /\
     status (Writer (ctx st)) =
       if complained e r then StatusBadRequest else StatusUnauthorized) /\
  (forall user allowed oerr,
     per_cluster e = true -> authenticated m r user ->
     get_check m r user = Some (allowed, oerr) ->
     allowed = false \/ oerr <> None ->
     no_fetch (calls st) /\
     aborted (ctx st) = true /\
     (exists st' err,
        st = snd (gin.AbortWithError StatusUnauthorized err st') /\
        (oerr = Some err \/ oerr = None /\ err = no_permissions)) /\
     status (Writer (ctx st)) =
       if complained e r then StatusBadRequest else StatusUnauthorized).
Proof.
  cbn zeta. pose proof (serve_outcome labels_Parse m e r) as Hout.
  set (st := gin.serve _ _) in *. clearbody st.
  pose proof (outcome_calls _ _ _ _ _ Hout) as Hcalls.
  split; [|split; [|split]].
  - destruct Hcalls as [(token & user & allowed & _ & _ & _ & _ & ->)
                       | (_ & token & user & rest & Hpre)].
    + apply strictly_staged_all_calls.
    + apply (strictly_staged_prefix _ (rest ++ [fetch_call e r true user])).
      rewrite app_assoc, Hpre. apply (strictly_staged_all_calls e r token user true).
  - intros c Hc Hfetch.
    destruct Hcalls as [(token & user & allowed & Ha & _ & Hsar & Hallow & Hcs)
                       | (Hno & _)].
    2:{ rewrite (Hno c Hc) in Hfetch. discriminate Hfetch. }
    exists token, user, allowed. unfold authenticated.
    rewrite validateToken_result, Ha. repeat split; try done.
    rewrite Hcs in *. unfold all_calls, access_calls, authn_calls in *. cbn [app] in *.
    repeat (apply elem_of_cons in Hc as [-> | Hc]; [discriminate Hfetch|]).
    apply elem_of_cons in Hc as [-> | Hc]; [done | by apply elem_of_nil in Hc].
  - intros cause [who Hfail] Hfp%filters_parsed_accepted.
    rewrite validateToken_result in Hfail.
    outcome_cases Hout; try (rewrite Ha in Hfail; discriminate Hfail).
    + destruct Hfp as [Hfp|Hfp]; congruence.
    + assert (err = cause) as ->.
      { rewrite Ha in Hfail.
        destruct o; try discriminate Herr; cbn in Hfail, Herr; by simplify_eq. }
      destruct Hcalls as [(? & ? & ? & Ha' & _) | (Hno & _)].
      { rewrite Ha in Ha'. rewrite Ha' in Herr. discriminate Herr. }
      split; [done|]. split; [done|].
      split; [eexists; apply abort_with_AbortWithError|].
      destruct o; try discriminate Herr; project; by destruct (complained e r).
  - intros who verdict oerr Hper Hauth Hget Hbad.
    unfold authenticated in Hauth. rewrite validateToken_result in Hauth.
    rewrite (get_check_result _ _ _ e Hper) in Hget. unfold check in Hget.
    outcome_cases Hout; try congruence.
    all: try (rewrite Ha in Hauth; try (destruct o; try discriminate Herr);
              try discriminate Hauth; injection Hauth as ->).
    all: rewrite Hcfg in Hget; try rewrite Hsar in Hget; cbn in Hget;
         injection Hget as <- <-.
    all: try (rewrite (Hallow Hper) in Hbad; by destruct Hbad).
    all: destruct Hcalls as [(? & ? & ? & _ & _ & _ & _ & Hcs) | (Hno & _)];
      [ exfalso; revert Hcs; project; unfold all_calls, access_calls, authn_calls;
        cbn [app]; intros Hcs; discriminate Hcs |].
    all: split; [done|]; split; [done|]; split;
      [do 2 eexists; split; [apply abort_with_AbortWithError | auto] |];
      project; by destruct (complained e r).
Qed.

(** C2, evaluated where the code departs from it: the header [Bearer],
    six bytes, on any endpoint.  Authentication does not succeed, no user
    is obtained, but [validateToken] does not return an error either: the
    slice expression of [getTokenFromAuthorizationHeader] panics.  The
    handler therefore never reaches its [AbortWithError(401, ...)]; the
    recovery middleware aborts the context and answers 500, with nothing
    recorded in [c.Errors].  No call is made, to the inventory or
    otherwise. *)
Theorem authentication_panic_is_not_a_401
    (labels_Parse : string -> labels.Selector * option error)
    (m : instance) (e : Endpoint) :
  let r := Sample.get [("namespace", "ns"); ("name", "c1"); ("type", "capi")]%string
             (Some "Bearer"%string) in
  let st := gin.serve (route labels_Parse m e) r in
  fst (validateToken m (initial r)) = None /\
  (forall user, ~ authenticated m r user) /\
  (forall err, ~ authentication_fails m r err) /\
  status (Writer (ctx st)) = StatusInternalServerError /\
  status (Writer (ctx st)) <> StatusUnauthorized /\
  aborted (ctx st) = true /\
  Errors (ctx st) = [] /\
  (forall err st', st <> snd (gin.AbortWithError StatusUnauthorized err st')) /\
  calls st = [].
Proof.
  cbn zeta. set (r := Sample.get _ _).
  assert (Hv : fst (validateToken m (initial r)) = None) by (vm_compute; reflexivity).
  assert (Hst : gin.serve (route labels_Parse m e) r =
                mkState (mkContext r (mkWriter StatusInternalServerError true []) true [])
                  []).
  { destruct e; vm_compute; reflexivity. }
  split; [exact Hv|]. split.
  { intros user Hu. unfold authenticated in Hu. rewrite Hv in Hu. discriminate Hu. }
  split.
  { intros err [user Hu]. rewrite Hv in Hu. discriminate Hu. }
  rewrite Hst. cbn [ctx Writer status aborted Errors calls].
  repeat split; try done.
  intros err st' H. apply (f_equal (fun s => Errors (ctx s))) in H.
  rewrite <- abort_with_AbortWithError in H. cbn [abort_with ctx Errors] in H.
  symmetry in H. by apply app_nil in H as [_ ?].
Qed.

(** ** Failures of the permission system *)

Lemma check_verdict m sar : (check m sar).1 = verdict_of m sar.
Proof.
  unfold check, verdict_of. destruct (api_NewForConfig m); [done|].
  by destruct (api_SubjectAccessReview m sar).
Qed.

Lemma permission_check_result m e r user :
  permission_check m e r user = Some (verdict_of m (review_of e r user)).
Proof.
  rewrite <- check_verdict. unfold permission_check.
  destruct e; try (by apply get_check_result);
    [rewrite canListCAPIClusters_run | rewrite canListSveltosClusters_run]; reflexivity.
Qed.

(** C8: each permission check returns a failure to build the client or
    to create the review as a non-nil error next to the verdict [false], and
    returns a verdict with a nil error only when the review was answered.
    A handler that gets such an error ends in [AbortWithError(401, err)]
    with that very error recorded and without asking the inventory; an
    explicit deny ends the per-cluster handlers with the error "no
    permissions to access this cluster" and lets the listing handlers go on
    to the inventory with [canListAll = false]. *)
Theorem permission_errors_surface
    (labels_Parse : string -> labels.Selector * option error) (m : instance) :
  (forall user namespace name clusterType st,
     fst (canListCAPIClusters m user st) =
       Some (verdict_of m (list_review ClusterTypeCapi user)) /\
     fst (canListSveltosClusters m user st) =
       Some (verdict_of m (list_review ClusterTypeSveltos user)) /\
     fst (canGetCluster m namespace name user clusterType st) =
       Some (verdict_of m (get_review clusterType namespace name user))) /\
  (forall sar,
     (forall err, api_NewForConfig m = Some err -> verdict_of m sar = (false, Some err)) /\
     (forall err, api_NewForConfig m = None ->
                  api_SubjectAccessReview m sar = inr err ->
                  verdict_of m sar = (false, Some err)) /\
     (forall verdict, verdict_of m sar = (verdict, None) ->
                      api_SubjectAccessReview m sar = inl verdict)) /\
  (forall e r user verdict failure,
     filters_parsed labels_Parse e r -> authenticated m r user ->
     permission_check m e r user = Some (verdict, Some failure) ->
     let st := gin.serve (route labels_Parse m e) r in
     Errors (ctx st) = [failure] /\
     aborted (ctx st) = true /\
     no_fetch (calls st) /\
     (exists st', st = snd (gin.AbortWithError StatusUnauthorized failure st')) /\
     status (Writer (ctx st)) =
       if complained e r then StatusBadRequest else StatusUnauthorized) /\
  (forall e r user,
     filters_parsed labels_Parse e r -> authenticated m r user ->
     permission_check m e r user = Some (false, None) ->
     let st := gin.serve (route labels_Parse m e) r in
     if per_cluster e
     then Errors (ctx st) = [no_permissions] /\ aborted (ctx st) = true /\
          no_fetch (calls st)
     else fetch_call e r false user ∈ calls st).
Proof.
  split; [|split; [|split]].
  - intros user namespace name clusterType st.
    rewrite canListCAPIClusters_run, canListSveltosClusters_run, canGetCluster_run.
    by rewrite !check_verdict.
  - intros sar. unfold verdict_of. repeat split.
    + by intros err ->.
    + by intros err -> ->.
    + intros verdict. destruct (api_NewForConfig m); [done|].
      destruct (api_SubjectAccessReview m sar); [|done]. by intros [= ->].
  - intros e r who verdict failure Hfp%filters_parsed_accepted Hauth Hcheck. cbn zeta.
    unfold authenticated in Hauth. rewrite validateToken_result in Hauth.
    rewrite permission_check_result in Hcheck. injection Hcheck as Hcheck.
    unfold verdict_of in Hcheck.
    pose proof (serve_outcome labels_Parse m e r) as Hout.
    pose proof (outcome_calls _ _ _ _ _ Hout) as Hcalls.
    set (st := gin.serve _ _) in *. clearbody st.
    outcome_cases Hout.
    1:{ destruct Hfp as [Hfp|Hfp]; congruence. }
    all: rewrite Ha in Hauth; try (destruct o; try discriminate Herr);
         try discriminate Hauth; injection Hauth as ->.
    all: rewrite Hcfg in Hcheck; try rewrite Hsar in Hcheck; try discriminate Hcheck.
    all: injection Hcheck as <- <-.
    all: destruct Hcalls as [(? & ? & ? & _ & _ & _ & _ & Hcs) | (Hno & _)];
      [ exfalso; revert Hcs; project; unfold all_calls, access_calls, authn_calls;
        cbn [app]; intros Hcs; discriminate Hcs |].
    all: split; [done|]; split; [done|]; split; [done|]; split;
      [eexists; apply abort_with_AbortWithError|];
      project; by destruct (complained e r).
  - intros e r who Hfp%filters_parsed_accepted Hauth Hcheck. cbn zeta.
    unfold authenticated in Hauth. rewrite validateToken_result in Hauth.
    rewrite permission_check_result in Hcheck. injection Hcheck as Hcheck.
    unfold verdict_of in Hcheck.
    pose proof (serve_outcome labels_Parse m e r) as Hout.
    pose proof (outcome_calls _ _ _ _ _ Hout) as Hcalls.
    set (st := gin.serve _ _) in *. clearbody st.
    outcome_cases Hout.
    1:{ destruct Hfp as [Hfp|Hfp]; congruence. }
    all: rewrite Ha in Hauth; try (destruct o; try discriminate Herr);
         try discriminate Hauth; injection Hauth as ->.
    all: rewrite Hcfg in Hcheck; try rewrite Hsar in Hcheck; try discriminate Hcheck.
    all: try injection Hcheck as ->.
    + rewrite He.
      destruct Hcalls as [(? & ? & ? & _ & _ & _ & _ & Hcs) | (Hno & _)];
        [ exfalso; revert Hcs; project; unfold all_calls, access_calls, authn_calls;
          cbn [app]; intros Hcs; discriminate Hcs |].
      done.
    + destruct (per_cluster e) eqn:Hper; [by specialize (Hallow eq_refl)|].
      project. cbn [app]. unfold all_calls. apply elem_of_app. right. left.
    + destruct (per_cluster e) eqn:Hper; [by specialize (Hallow eq_refl)|].
      project. cbn [app]. unfold all_calls. apply elem_of_app. right. left.
    + destruct (per_cluster e) eqn:Hper; [by specialize (Hallow eq_refl)|].
      project. cbn [app]. unfold all_calls. apply elem_of_app. right. left.
Qed.

(** ** Complaints of the query parsers *)

(** Once a query parser has answered 400, that is the status of the
    response, whatever the handler does afterwards. *)
Lemma outcome_status_complained labels_Parse m e r st :
  Outcome labels_Parse m e r st ->
  complained e r = true ->
  status (Writer (ctx st)) = StatusBadRequest.
Proof.
  intros Hout Hc. outcome_cases Hout; try (destruct o; try discriminate Herr);
    project; rewrite ?Hc; try done.
  by destruct (per_cluster e).
Qed.

(** The complaints stay at the head of the body. *)
Lemma outcome_body_complaints labels_Parse m e r st :
  Outcome labels_Parse m e r st ->
  exists rest, body (Writer (ctx st)) = (complaint_bodies e r ++ rest)%list.
Proof.
  intros Hout. outcome_cases Hout; try (destruct o; try discriminate Herr);
    project; try (by eexists); exists []; by rewrite app_nil_r.
Qed.

Lemma complained_limit_skip e r :
  limit_skip_complaint r <> None -> complained e r = true.
Proof.
  intros H. unfold complained. apply existsb_exists.
  exists (limit_skip_complaint r). split.
  - destruct e; cbn; auto.
  - apply bool_decide_true. by destruct (limit_skip_complaint r).
Qed.

Lemma complained_cluster e r :
  per_cluster e = true -> cluster_complaint r <> None -> complained e r = true.
Proof.
  intros He H. unfold complained. apply existsb_exists.
  exists (cluster_complaint r). split.
  - destruct e; try discriminate He; cbn; auto.
  - apply bool_decide_true. by destruct (cluster_complaint r).
Qed.

Lemma complaint_bodies_cluster e r msg :
  per_cluster e = true -> cluster_complaint r = Some msg ->
  H_error msg ∈ complaint_bodies e r.
Proof.
  intros He H. unfold complaint_bodies. apply list_elem_of_fmap.
  exists msg. split; [done|]. apply list_elem_of_omap.
  exists (Some msg). split; [|done]. rewrite <- H.
  destruct e; try discriminate He; cbn; set_solver.
Qed.

(** ** Invalid pagination parameters *)

Lemma limit_skip_malformed r :
  malformed (query r "limit") = true \/ malformed (query r "skip") = true ->
  limit_skip_complaint r <> None.
Proof.
  unfold malformed, well_formed_int, limit_skip_complaint, parseLimitAndSkip.
  destruct (nonempty (query r "limit")); cbn [andb].
  - destruct (strconv.Atoi (query r "limit")) as [l [e|]]; [done|]. cbn [negb].
    intros [H|H]; [done|]. destruct (nonempty (query r "skip")); [|done].
    by destruct (strconv.Atoi (query r "skip")) as [s [e|]].
  - intros [H|H]; [done|]. destruct (nonempty (query r "skip")); [|done].
    by destruct (strconv.Atoi (query r "skip")) as [s [e|]].
Qed.

Lemma limit_skip_well_formed r :
  malformed (query r "limit") = false -> malformed (query r "skip") = false ->
  limit_skip r = (parsed_int maxItems (query r "limit"), parsed_int 0 (query r "skip")).
Proof.
  unfold malformed, well_formed_int, limit_skip, parseLimitAndSkip, parsed_int.
  destruct (nonempty (query r "limit")); cbn [andb];
    [destruct (strconv.Atoi (query r "limit")) as [l [e|]]; [done|] |]; intros _;
    (destruct (nonempty (query r "skip")); cbn [andb];
     [by destruct (strconv.Atoi (query r "skip")) as [s [e|]] | done]).
Qed.

Lemma window_of_negative full limit skip :
  is_result full = true -> limit < 0 \/ skip < 0 ->
  (window_of full limit skip).2 = Some InvalidRange.
Proof.
  intros Hres Hneg.
  assert (H : forall A (l : list A), (getSliceInRange l limit skip).2 = Some InvalidRange).
  { intros A l. by rewrite (getSliceInRange_negative l limit skip Hneg). }
  destruct full; try discriminate Hres; apply H.
Qed.

Lemma fetch_call_full_result labels_Parse m e r a u token a' u' :
  fetch_call e r a u ∈ all_calls e r token u' a' ->
  full_result labels_Parse m e r a u = full_result labels_Parse m e r a' u'.
Proof.
  unfold all_calls, access_calls, authn_calls. cbn [app]. intros Hin.
  pose proof (stage_fetch_call e r a u) as Hst.
  repeat (apply elem_of_cons in Hin as [Heq | Hin];
          [rewrite Heq in Hst; discriminate Hst|]).
  apply list_elem_of_singleton in Hin. revert Hin. unfold fetch_call, full_result.
  destruct (cluster_of r) as [[namespace name] clusterType].
  destruct e; intros Heq; try reflexivity; by injection Heq as -> ->.
Qed.

(** The range of [limit] and [skip] is checked at windowing only, after
    authentication and authorization: a request for
    [/capiclusters?limit=-1] without credentials is answered 401, not
    400. *)
Lemma negative_limit_without_credentials :
  ~ (forall labels_Parse m e r,
       paging_invalid r ->
       status (Writer (ctx (gin.serve (route labels_Parse m e) r))) = StatusBadRequest /\
       no_result_data (gin.serve (route labels_Parse m e) r)).
Proof.
  intros H.
  destruct (H Sample.no_labels Sample.permissive capiclusters
              (Sample.get [("limit", "-1")]%string None)) as [Hst _].
  - right. right. left. by vm_compute.
  - vm_compute in Hst. discriminate Hst.
Qed.

(** C5, evaluated where the code departs from it: on
    [/sveltosclusters?limit=2&skip=abc] with valid credentials
    [getLimitAndSkipFromQuery] writes the error object with status 400, but
    its [return] ends the parser, not the handler.  The handler carries on
    with [skip = 0], does not abort, and appends a result object with two of
    the three clusters to the body: the status is 400, yet result data is
    returned. *)
Theorem malformed_skip_still_answers :
  let r := Sample.get [("limit", "2"); ("skip", "abc")]%string Sample.bearer in
  let st := gin.serve (route Sample.no_labels Sample.permissive sveltosclusters) r in
  malformed (query r "skip") = true /\
  fst (getLimitAndSkipFromQuery (initial r)) = Some (2, 0) /\
  status (Writer (ctx st)) = StatusBadRequest /\
  aborted (ctx st) = false /\
  (exists rows,
     body (Writer (ctx st)) = [H_error "invalid skip parameter"; ClusterResult 3 rows] /\
     length rows = 2%nat) /\
  ~ no_result_data st.
Proof.
  cbn zeta. set (r := Sample.get _ _).
  assert (Hbody : exists rows,
    body (Writer (ctx (gin.serve (route Sample.no_labels Sample.permissive
                                    sveltosclusters) r))) =
      [H_error "invalid skip parameter"; ClusterResult 3 rows] /\ length rows = 2%nat).
  { vm_compute. by eexists. }
  split; [by vm_compute|]. split; [by vm_compute|]. split; [by vm_compute|].
  split; [by vm_compute|]. split; [exact Hbody|].
  destruct Hbody as (rows & Hbody & _). intros Hno.
  specialize (Hno (ClusterResult 3 rows)). rewrite Hbody in Hno.
  discriminate Hno. right. left.
Qed.

(** What holds of invalid paging parameters: a malformed [limit] or
    [skip] makes the status of the response 400; when both are well formed
    and one is negative the response carries no result data, and a handler
    that got its sequence from the inventory aborts with status 400 on the
    invalid range. *)
Theorem invalid_paging_is_rejected
    (labels_Parse : string -> labels.Selector * option error)
    (m : instance) (e : Endpoint) (r : Request) :
  let st := gin.serve (route labels_Parse m e) r in
  (malformed (query r "limit") = true \/ malformed (query r "skip") = true ->
   status (Writer (ctx st)) = StatusBadRequest) /\
  (malformed (query r "limit") = false -> malformed (query r "skip") = false ->
   parsed_int maxItems (query r "limit") < 0 \/ parsed_int 0 (query r "skip") < 0 ->
   no_result_data st /\
   forall canListAll user full,
     fetch_call e r canListAll user ∈ calls st ->
     full_result labels_Parse m e r canListAll user = inl full ->
     status (Writer (ctx st)) = StatusBadRequest /\
     aborted (ctx st) = true /\
     Errors (ctx st) = [InvalidRange]).
Proof.
  cbn zeta. pose proof (serve_outcome labels_Parse m e r) as Hout.
  set (st := gin.serve _ _) in *. clearbody st. split.
  - intros Hbad%limit_skip_malformed.
    eapply outcome_status_complained; [done|]. by apply complained_limit_skip.
  - intros Hl Hs Hneg. pose proof (limit_skip_well_formed r Hl Hs) as Hls.
    split.
    + intros v Hv. destruct (is_result v) eqn:Hres; [|done].
      destruct (outcome_body _ _ _ _ _ _ Hout Hv Hres)
        as (token & user & allowed & full & _ & _ & Hfull & Hw & _).
      apply full_result_total in Hfull as [Hfr _].
      pose proof (window_of_negative full _ _ Hfr Hneg) as Hinv.
      rewrite Hls in Hw. cbn [fst snd] in Hw. rewrite Hw in Hinv. discriminate Hinv.
    + intros canListAll who whole Hin Hwhole.
      pose proof (outcome_calls _ _ _ _ _ Hout) as Hcalls.
      destruct Hcalls as [(tk & usr & alw & Hau & _ & Hsr & _ & Hcs) | (Hno & _)].
      2:{ specialize (Hno _ Hin). unfold is_fetch in Hno.
          by rewrite stage_fetch_call in Hno. }
      rewrite Hcs in Hin.
      rewrite (fetch_call_full_result labels_Parse m _ _ _ _ _ _ _ Hin) in Hwhole.
      clear Hin. revert Hcs.
      outcome_cases Hout;
        try (rewrite Ha in Hau; rewrite Hau in Herr; discriminate Herr);
        project; cbn [app]; unfold all_calls, access_calls, authn_calls;
        cbn [app]; try (intros Hcs; discriminate Hcs).
      all: intros _; rewrite Ha in Hau; injection Hau as <- <-;
           rewrite Hsar in Hsr; injection Hsr as <-;
           rewrite Hfull in Hwhole; try discriminate Hwhole; injection Hwhole as <-;
           apply full_result_total in Hfull as [Hfr _];
           pose proof (window_of_negative full _ _ Hfr Hneg) as Hinv;
           rewrite Hls in Hw; cbn [fst snd] in Hw; rewrite Hw in Hinv;
           try discriminate Hinv; injection Hinv as ->.
      by destruct (complained e r).
Qed.

(** ** The cluster type parameter *)

Lemma fold_table_checked : fold_table_ok = true.
Proof. vm_compute. reflexivity. Qed.

Lemma ascii_in_table (c : ascii) :
  byte_val c < 128 ->
  c = ascii_of_nat (nat_of_ascii c) /\ List.In (nat_of_ascii c) (seq 0 128).
Proof.
  intros Hc. split; [by rewrite ascii_nat_embedding|].
  apply in_seq. unfold byte_val, nat_of_ascii in *. lia.
Qed.

Lemma rune_fold_eq_ascii (c d : ascii) :
  byte_val c < 128 -> byte_val d < 128 ->
  strings.rune_fold_eq (byte_val c) (byte_val d) =
  Ascii.eqb (ascii_lower c) (ascii_lower d).
Proof.
  intros [Hc Hic]%ascii_in_table [Hd Hid]%ascii_in_table.
  pose proof fold_table_checked as Hok. unfold fold_table_ok in Hok.
  rewrite forallb_forall in Hok. specialize (Hok _ Hic).
  rewrite forallb_forall in Hok. specialize (Hok _ Hid).
  apply eqb_prop in Hok. by rewrite Hc, Hd.
Qed.

Lemma DecodeRune_ascii (c : ascii) (rest : string) :
  byte_val c < 128 -> strings.DecodeRune c rest = (byte_val c, rest).
Proof.
  intros Hc. unfold strings.DecodeRune. destruct (strings.bytes3 rest) as [[o1 o2] o3].
  unfold strings.RuneSelf. by destruct (Z.ltb_spec (byte_val c) 128); [|lia].
Qed.

(** On ASCII strings [strings.EqualFold] is equality up to letter case. *)
Lemma EqualFold_ascii (s t : string) :
  is_ascii s = true -> is_ascii t = true ->
  strings.EqualFold s t = true <-> ToLower s = ToLower t.
Proof.
  revert s. induction t as [|d t IH]; intros s Hs Ht.
  - destruct s; simpl; split; done.
  - destruct s as [|c s]; [simpl; split; done|].
    cbn [is_ascii] in Hs, Ht.
    apply andb_true_iff in Hs as [Hc%Z.ltb_lt Hs], Ht as [Hd%Z.ltb_lt Ht].
    unfold strings.RuneSelf in *.
    cbn [strings.EqualFold ToLower]. rewrite DecodeRune_ascii by done.
    rewrite rune_fold_eq_ascii by done.
    destruct (Ascii.eqb_spec (ascii_lower c) (ascii_lower d)) as [Heq|Hne].
    + rewrite IH by done. split; [by intros -> ; rewrite Heq | by intros [= _ ->]].
    + split; [done | by intros [= ? _]].
Qed.

Lemma cluster_complaint_cases r :
  let type := query r "type" in
  (type_recognised type = false -> cluster_complaint r <> None) /\
  (query r "namespace" <> EmptyString -> query r "name" <> EmptyString ->
   (type = EmptyString -> cluster_complaint r = Some "cluster type is required"%string) /\
   (type <> EmptyString -> type_recognised type = false ->
    cluster_complaint r = Some "cluster type is incorrect"%string) /\
   (type_recognised type = true ->
    cluster_complaint r = None /\
    cluster_of r = (query r "namespace", query r "name",
                    if strings.EqualFold type ClusterTypeSveltos
                    then ClusterTypeSveltos else ClusterTypeCapi))).
Proof.
  cbn zeta. unfold cluster_complaint, cluster_of, parseCluster, type_recognised.
  split.
  - intros [Hs Hc]%orb_false_iff. rewrite Hs, Hc.
    by repeat match goal with |- context [negb (nonempty ?s)] => destruct (nonempty s) end.
  - intros Hns%nonempty_true Hn%nonempty_true. rewrite Hns, Hn. cbn [negb].
    split; [|split].
    + by intros ->.
    + intros Ht%nonempty_true [Hs Hc]%orb_false_iff. by rewrite Ht, Hs, Hc.
    + destruct (nonempty (query r "type")) eqn:Ht; cbn [negb].
      * intros Hrec. destruct (strings.EqualFold _ ClusterTypeSveltos); [done|].
        cbn [orb] in Hrec. by rewrite Hrec.
      * apply nonempty_false in Ht. rewrite Ht. done.
Qed.

(** Case folding is Unicode's: the long s (U+017F, bytes C5 BF) folds
    to [s], so a type spelled with it is recognised too. *)
Lemma long_s_is_folded :
  strings.EqualFold (String (ascii_of_nat 197) (String (ascii_of_nat 191) "veltos"))
    ClusterTypeSveltos = true.
Proof. vm_compute. reflexivity. Qed.

(** The parameters are checked in the order namespace, name, type: on
    [/helmcharts] without any query parameter the type is missing, yet the
    error object "cluster type is required" is not in the body; the handler
    complains about the namespace. *)
Lemma missing_type_and_namespace :
  ~ (forall labels_Parse m e r,
       per_cluster e = true -> query r "type" = EmptyString ->
       let st := gin.serve (route labels_Parse m e) r in
       status (Writer (ctx st)) = StatusBadRequest /\
       H_error "cluster type is required" ∈ body (Writer (ctx st))).
Proof.
  intros H.
  destruct (H Sample.no_labels Sample.permissive helmcharts (Sample.get [] None)
              eq_refl eq_refl) as [_ Hin].
  vm_compute in Hin.
  repeat (apply elem_of_cons in Hin as [Hin | Hin]; [discriminate Hin|]).
  by apply elem_of_nil in Hin.
Qed.

(** What holds of the [type] parameter: on the per-cluster endpoints a
    [type] that matches neither [Sveltos] nor [Capi] under case folding
    makes the status of
    the response 400.  The parameters are checked in the order namespace,
    name, type: with a namespace and a name, a missing type is answered
    with the error object "cluster type is required" and any other
    unrecognised value with "cluster type is incorrect", while a recognised
    one is returned as the matching constant without any complaint.  For
    ASCII strings, matching is equality up to letter case. *)
Theorem cluster_type_is_checked
    (labels_Parse : string -> labels.Selector * option error)
    (m : instance) (e : Endpoint) (r : Request) :
  per_cluster e = true ->
  let st := gin.serve (route labels_Parse m e) r in
  let type := query r "type" in
  (type_recognised type = false -> status (Writer (ctx st)) = StatusBadRequest) /\
  (query r "namespace" <> EmptyString -> query r "name" <> EmptyString ->
   (type = EmptyString ->
    H_error "cluster type is required" ∈ body (Writer (ctx st))) /\
   (type <> EmptyString -> type_recognised type = false ->
    H_error "cluster type is incorrect" ∈ body (Writer (ctx st))) /\
   (type_recognised type = true ->
    getClusterFromQuery (initial r) =
    (Some (query r "namespace", query r "name",
           if strings.EqualFold type ClusterTypeSveltos
           then ClusterTypeSveltos else ClusterTypeCapi),
     initial r))) /\
  (forall s, is_ascii s = true ->
     (strings.EqualFold s ClusterTypeSveltos = true <-> ToLower s = "sveltos"%string) /\
     (strings.EqualFold s ClusterTypeCapi = true <-> ToLower s = "capi"%string)).
Proof.
  intros He. cbn zeta. pose proof (serve_outcome labels_Parse m e r) as Hout.
  set (st := gin.serve _ _) in *. clearbody st.
  destruct (cluster_complaint_cases r) as [Hbad Hgood]. cbn zeta in Hbad, Hgood.
  destruct (outcome_body_complaints _ _ _ _ _ Hout) as [rest Hbody].
  split; [|split].
  - intros Hrec. eapply outcome_status_complained; [done|].
    apply complained_cluster; auto.
  - intros Hns Hn. destruct (Hgood Hns Hn) as (Hmissing & Hwrong & Hok).
    repeat split.
    + intros Ht. rewrite Hbody. apply elem_of_app. left.
      apply complaint_bodies_cluster; auto.
    + intros Ht Hrec. rewrite Hbody. apply elem_of_app. left.
      apply complaint_bodies_cluster; auto.
    + intros Hrec. destruct (Hok Hrec) as [Hnone Hof].
      rewrite getClusterFromQuery_run. cbn [request ctx initial gin.new_Context].
      by rewrite Hnone, Hof.
  - intros s Hs. split; by apply EqualFold_ascii.
Qed.


(** ** The theorems at concrete requests *)

(** C3 on the sample inventory: the cluster in [production] passes the
    filter [namespace=prod], and an empty inventory gives the empty slice. *)
Lemma getManagedClusterData_spec_witness :
  let k := Sample.cluster "production" "c1" in
  let info := mkClusterInfo ∅ in
  (Sample.inventory !! k = Some info /\ Namespace k = "production"%string) /\
  mkManagedCluster "production" "c1" info ∈
    getManagedClusterData Sample.inventory (mkClusterFilters "prod" EmptyString []) /\
  getManagedClusterData ∅ (mkClusterFilters "prod" EmptyString []) = [].
Proof.
  cbn zeta.
  assert (Hk : Sample.inventory !! Sample.cluster "production" "c1" = Some (mkClusterInfo ∅))
    by (vm_compute; reflexivity).
  split; [split; [exact Hk | reflexivity]|]. split.
  - exact (proj1 (proj1 (proj2 getManagedClusterData_spec) _ _ _ Hk) eq_refl).
  - apply (proj2 (proj2 getManagedClusterData_spec)).
    intros k info Hnone. rewrite lookup_empty in Hnone. discriminate Hnone.
Defined.

(** C4 on a slice of five rows: a negative limit, a skip past the end, and
    a window cut short by the end of the slice. *)
Lemma getSliceInRange_spec_witness :
  ((-1 < 0 \/ 0 < 0) /\
   getSliceInRange [10; 20; 30; 40; 50] (-1) 0 = ([], Some InvalidRange)) /\
  ((0 <= 2 /\ 0 <= 7 /\ slice_len [10; 20; 30; 40; 50] <= 7) /\
   getSliceInRange [10; 20; 30; 40; 50] 2 7 = ([], None)) /\
  ((0 <= 2 /\ 0 <= 4 /\ 4 < slice_len [10; 20; 30; 40; 50]) /\
   exists window,
     getSliceInRange [10; 20; 30; 40; 50] 2 4 = (window, None) /\
     slice_len window = Z.min (4 + 2) (slice_len [10; 20; 30; 40; 50]) - 4 /\
     forall i : nat,
       Z.of_nat i < Z.min (4 + 2) (slice_len [10; 20; 30; 40; 50]) - 4 ->
       window !! i = [10; 20; 30; 40; 50] !! (Z.to_nat 4 + i)%nat).
Proof.
  split; [|split].
  - assert (H : -1 < 0 \/ 0 < 0) by (left; lia).
    split; [exact H|].
    exact (proj1 (getSliceInRange_spec [10; 20; 30; 40; 50] (-1) 0) H).
  - assert (H1 : 0 <= 2) by lia. assert (H2 : 0 <= 7) by lia.
    assert (H3 : slice_len [10; 20; 30; 40; 50] <= 7) by (vm_compute; discriminate).
    split; [done|].
    exact (proj1 (proj2 (getSliceInRange_spec [10; 20; 30; 40; 50] 2 7)) H1 H2 H3).
  - assert (H1 : 0 <= 2) by lia. assert (H2 : 0 <= 4) by lia.
    assert (H3 : 4 < slice_len [10; 20; 30; 40; 50]) by (vm_compute; reflexivity).
    split; [done|].
    exact (proj2 (proj2 (getSliceInRange_spec [10; 20; 30; 40; 50] 2 4)) H1 H2 H3).
Defined.

(** C9 on a request with only [skip] and on one with only [limit]. *)
Lemma getLimitAndSkipFromQuery_defaults_witness :
  let st := initial (Sample.get [("skip", "4")]%string None) in
  let st' := initial (Sample.get [("limit", "9")]%string None) in
  (query (request (ctx st)) "limit" = EmptyString /\
   exists skip, fst (getLimitAndSkipFromQuery st) = Some (6, skip)) /\
  (query (request (ctx st')) "skip" = EmptyString /\
   exists limit, fst (getLimitAndSkipFromQuery st') = Some (limit, 0)).
Proof.
  cbn zeta. split.
  - assert (H : query (request (ctx (initial (Sample.get [("skip", "4")]%string None))))
                  "limit" = EmptyString) by (vm_compute; reflexivity).
    split; [exact H|]. exact (proj1 (getLimitAndSkipFromQuery_defaults _) H).
  - assert (H : query (request (ctx (initial (Sample.get [("limit", "9")]%string None))))
                  "skip" = EmptyString) by (vm_compute; reflexivity).
    split; [exact H|]. exact (proj2 (getLimitAndSkipFromQuery_defaults _) H).
Defined.

(** C10 for the two constants and for the unrecognised type [eks]. *)
Lemma canGetCluster_dispatch_witness :
  let m := Sample.permissive in
  let st := initial (Sample.get [("namespace", "ns"); ("name", "c1"); ("type", "eks")]%string
                       Sample.bearer) in
  canGetCluster m "ns" "c1" "alice" ClusterTypeCapi = canGetCAPICluster m "ns" "c1" "alice" /\
  canGetCluster m "ns" "c1" "alice" ClusterTypeSveltos =
    canGetSveltosCluster m "ns" "c1" "alice" /\
  fst (getClusterFromQuery st) = Some (EmptyString, EmptyString, EmptyString) /\
  calls (snd (canGetCAPICluster m "ns" "c1" "alice" st)) <>
  calls (snd (canGetSveltosCluster m "ns" "c1" "alice" st)).
Proof.
  cbn zeta.
  pose proof (canGetCluster_dispatch Sample.permissive "ns" "c1" "alice" ClusterTypeCapi)
    as (Hcapi & _ & _ & Hzero & Hcalls).
  pose proof (canGetCluster_dispatch Sample.permissive "ns" "c1" "alice" ClusterTypeSveltos)
    as (_ & Hsveltos & _).
  split; [exact (Hcapi eq_refl)|]. split.
  - apply Hsveltos. vm_compute. discriminate.
  - split.
    + apply Hzero; vm_compute; reflexivity.
    + apply (Hcalls _ eq_refl).
Defined.

(** The order of the stages on [/helmcharts]: without credentials, and
    with credentials that the permission system denies. *)
Lemma authentication_authorization_data_access_witness :
  let anonymous := Sample.get [("namespace", "ns"); ("name", "c1"); ("type", "capi")]%string
                     None in
  let known := Sample.get [("namespace", "ns"); ("name", "c1"); ("type", "capi")]%string
                 Sample.bearer in
  (authentication_fails Sample.permissive anonymous
     (errorString "authorization header is missing") /\
   no_fetch (calls (gin.serve (route Sample.no_labels Sample.permissive helmcharts) anonymous)) /\
   status (Writer (ctx (gin.serve (route Sample.no_labels Sample.permissive helmcharts)
                          anonymous))) = StatusUnauthorized) /\
  (authenticated Sample.denying known "alice" /\
   get_check Sample.denying known "alice" = Some (false, None) /\
   no_fetch (calls (gin.serve (route Sample.no_labels Sample.denying helmcharts) known)) /\
   aborted (ctx (gin.serve (route Sample.no_labels Sample.denying helmcharts) known)) = true).
Proof.
  cbn zeta. split.
  - set (r := Sample.get _ None).
    assert (Hfail : authentication_fails Sample.permissive r
                      (errorString "authorization header is missing"))
      by (exists EmptyString; vm_compute; reflexivity).
    assert (Hfp : filters_parsed Sample.no_labels helmcharts r) by (left; reflexivity).
    destruct (authentication_authorization_data_access Sample.no_labels
                Sample.permissive helmcharts r) as (_ & _ & Hauth & _).
    destruct (Hauth _ Hfail Hfp) as (Hno & _ & _ & Hstatus).
    split; [exact Hfail|]. split; [exact Hno|]. exact Hstatus.
  - set (r := Sample.get _ Sample.bearer).
    assert (Hauth : authenticated Sample.denying r "alice") by (vm_compute; reflexivity).
    assert (Hget : get_check Sample.denying r "alice" = Some (false, None))
      by (vm_compute; reflexivity).
    destruct (authentication_authorization_data_access Sample.no_labels
                Sample.denying helmcharts r) as (_ & _ & _ & Hdeny).
    destruct (Hdeny "alice"%string false None eq_refl Hauth Hget (or_introl eq_refl))
      as (Hno & Habort & _).
    split; [exact Hauth|]. split; [exact Hget|]. split; [exact Hno | exact Habort].
Defined.

(** Invalid paging on [/sveltosclusters]: a malformed [skip] and a negative
    [limit]. *)
Lemma invalid_paging_is_rejected_witness :
  let bad_skip := Sample.get [("limit", "2"); ("skip", "abc")]%string Sample.bearer in
  let negative := Sample.get [("limit", "-1")]%string Sample.bearer in
  let served r := gin.serve (route Sample.no_labels Sample.permissive sveltosclusters) r in
  (malformed (query bad_skip "skip") = true /\
   status (Writer (ctx (served bad_skip))) = StatusBadRequest) /\
  ((malformed (query negative "limit") = false /\
    malformed (query negative "skip") = false /\
    parsed_int maxItems (query negative "limit") < 0) /\
   no_result_data (served negative) /\
   status (Writer (ctx (served negative))) = StatusBadRequest /\
   Errors (ctx (served negative)) = [InvalidRange]).
Proof.
  cbn zeta. split.
  - set (r := Sample.get _ _).
    assert (H : malformed (query r "skip") = true) by (vm_compute; reflexivity).
    split; [exact H|].
    exact (proj1 (invalid_paging_is_rejected Sample.no_labels Sample.permissive
                    sveltosclusters r) (or_intror H)).
  - set (r := Sample.get _ _).
    assert (Hl : malformed (query r "limit") = false) by (vm_compute; reflexivity).
    assert (Hs : malformed (query r "skip") = false) by (vm_compute; reflexivity).
    assert (Hneg : parsed_int maxItems (query r "limit") < 0) by (vm_compute; reflexivity).
    destruct (proj2 (invalid_paging_is_rejected Sample.no_labels Sample.permissive
                       sveltosclusters r) Hl Hs (or_introl Hneg)) as [Hno Hrange].
    assert (Hin : fetch_call sveltosclusters r true "alice" ∈
                  calls (gin.serve (route Sample.no_labels Sample.permissive
                                      sveltosclusters) r))
      by (vm_compute; do 3 right; left).
    assert (Hfull : full_result Sample.no_labels Sample.permissive sveltosclusters r
                      true "alice" =
                    inl (ClusterResult 3
                           (sort_Slice ManagedClusters_Less
                              (getManagedClusterData Sample.inventory
                                 (mkClusterFilters EmptyString EmptyString [])))))
      by (vm_compute; reflexivity).
    destruct (Hrange _ _ _ Hin Hfull) as (Hstatus & _ & Herrors).
    split; [by repeat split|]. split; [exact Hno|]. split; [exact Hstatus | exact Herrors].
Defined.

(** C6 on [/sveltosclusters?limit=1] over the sample inventory. *)
Lemma total_count_before_windowing_witness :
  let r := Sample.get [("limit", "1")]%string Sample.bearer in
  let st := gin.serve (route Sample.no_labels Sample.permissive sveltosclusters) r in
  let v := default (H_error EmptyString) (head (body (Writer (ctx st)))) in
  (v ∈ body (Writer (ctx st)) /\ is_result v = true) /\
  exists canListAll user full,
    full_result Sample.no_labels Sample.permissive sveltosclusters r canListAll user =
      inl full /\
    window_of full (limit_skip r).1 (limit_skip r).2 = (v, None) /\
    total_of v = Some (rows_of full) /\
    rows_of v <= rows_of full.
Proof.
  cbn zeta.
  set (r := Sample.get _ _).
  set (st := gin.serve _ r).
  set (v := default _ _).
  assert (Hin : v ∈ body (Writer (ctx st))) by (vm_compute; left).
  assert (Hres : is_result v = true) by (vm_compute; reflexivity).
  split; [by split|].
  exact (proj1 total_count_before_windowing Sample.no_labels Sample.permissive
           sveltosclusters r v Hin Hres).
Defined.

(** The [type] parameter on [/helmcharts]: no type, the type [eks], and the
    spelling [sVeLtOs]. *)
Lemma cluster_type_is_checked_witness :
  let untyped := Sample.get [("namespace", "ns"); ("name", "c1")]%string Sample.bearer in
  let odd := Sample.get [("namespace", "ns"); ("name", "c1"); ("type", "eks")]%string
               Sample.bearer in
  let served r := gin.serve (route Sample.no_labels Sample.permissive helmcharts) r in
  (query untyped "type" = EmptyString /\
   status (Writer (ctx (served untyped))) = StatusBadRequest /\
   H_error "cluster type is required" ∈ body (Writer (ctx (served untyped)))) /\
  (type_recognised (query odd "type") = false /\
   status (Writer (ctx (served odd))) = StatusBadRequest /\
   H_error "cluster type is incorrect" ∈ body (Writer (ctx (served odd)))) /\
  (is_ascii "sVeLtOs" = true /\ strings.EqualFold "sVeLtOs" ClusterTypeSveltos = true).
Proof.
  cbn zeta. split; [|split].
  - set (r := Sample.get _ _).
    destruct (cluster_type_is_checked Sample.no_labels Sample.permissive helmcharts r
                eq_refl) as (Hstatus & Hbody & _).
    assert (Ht : query r "type" = EmptyString) by (vm_compute; reflexivity).
    assert (Hrec : type_recognised (query r "type") = false) by (vm_compute; reflexivity).
    assert (Hns : query r "namespace" <> EmptyString) by (vm_compute; discriminate).
    assert (Hn : query r "name" <> EmptyString) by (vm_compute; discriminate).
    split; [exact Ht|]. split; [exact (Hstatus Hrec)|].
    exact (proj1 (Hbody Hns Hn) Ht).
  - set (r := Sample.get _ _).
    destruct (cluster_type_is_checked Sample.no_labels Sample.permissive helmcharts r
                eq_refl) as (Hstatus & Hbody & _).
    assert (Ht : query r "type" <> EmptyString) by (vm_compute; discriminate).
    assert (Hrec : type_recognised (query r "type") = false) by (vm_compute; reflexivity).
    assert (Hns : query r "namespace" <> EmptyString) by (vm_compute; discriminate).
    assert (Hn : query r "name" <> EmptyString) by (vm_compute; discriminate).
    split; [exact Hrec|]. split; [exact (Hstatus Hrec)|].
    exact (proj1 (proj2 (Hbody Hns Hn)) Ht Hrec).
  - destruct (cluster_type_is_checked Sample.no_labels Sample.permissive helmcharts
                (Sample.get [] None) eq_refl) as (_ & _ & Hfold).
    assert (Hascii : is_ascii "sVeLtOs" = true) by (vm_compute; reflexivity).
    split; [exact Hascii|].
    apply (proj1 (Hfold "sVeLtOs"%string Hascii)). vm_compute. reflexivity.
Defined.

(** C8 on [/resources]: a permission system that cannot be reached, and
    one that denies. *)
Lemma permission_errors_surface_witness :
  let r := Sample.get [("namespace", "ns"); ("name", "c1"); ("type", "sveltos")]%string
             Sample.bearer in
  let refused := StatusError "connection refused" in
  (filters_parsed Sample.no_labels resources r /\
   authenticated Sample.unreachable r "alice" /\
   permission_check Sample.unreachable resources r "alice" = Some (false, Some refused)) /\
  Errors (ctx (gin.serve (route Sample.no_labels Sample.unreachable resources) r)) = [refused] /\
  status (Writer (ctx (gin.serve (route Sample.no_labels Sample.unreachable resources) r))) =
    StatusUnauthorized /\
  Errors (ctx (gin.serve (route Sample.no_labels Sample.denying resources) r)) =
    [no_permissions].
Proof.
  cbn zeta. set (r := Sample.get _ _).
  assert (Hfp : filters_parsed Sample.no_labels resources r) by (left; reflexivity).
  assert (Hauth : authenticated Sample.unreachable r "alice") by (vm_compute; reflexivity).
  assert (Hcheck : permission_check Sample.unreachable resources r "alice" =
                   Some (false, Some (StatusError "connection refused")))
    by (vm_compute; reflexivity).
  assert (Hauth' : authenticated Sample.denying r "alice") by (vm_compute; reflexivity).
  assert (Hdeny : permission_check Sample.denying resources r "alice" = Some (false, None))
    by (vm_compute; reflexivity).
  destruct (permission_errors_surface Sample.no_labels Sample.unreachable)
    as (_ & _ & Herror & _).
  destruct (Herror resources r "alice"%string false _ Hfp Hauth Hcheck)
    as (Herrors & _ & _ & _ & Hstatus).
  destruct (permission_errors_surface Sample.no_labels Sample.denying)
    as (_ & _ & _ & Hdenied).
  pose proof (Hdenied resources r "alice"%string Hfp Hauth' Hdeny) as (Hnp & _).
  split; [by repeat split|]. split; [exact Herrors|]. split; [exact Hstatus | exact Hnp].
Defined.

(** * Further properties *)

(** ** Token extraction and validation *)

(** X1: a header [Bearer <token>] with a non-empty token gives back
    exactly that token, with a nil error, and leaves the context and the
    response untouched. *)
Theorem bearer_token_round_trip (st : State) (token : string) :
  token <> EmptyString ->
  header (request (ctx st)) "Authorization" = ("Bearer " ++ token)%string ->
  getTokenFromAuthorizationHeader st = (Some (token, None), st).
Proof.
  intros Htoken Hh. unfold getTokenFromAuthorizationHeader, bind.
  rewrite GetHeader_run, Hh. destruct token as [|c token]; [done|]. reflexivity.
Qed.

(** X1 for the token [abc.def]. *)
Lemma bearer_token_round_trip_witness :
  let st := initial (Sample.get [] (Some "Bearer abc.def"%string)) in
  getTokenFromAuthorizationHeader st = (Some ("abc.def"%string, None), st).
Proof.
  cbn zeta. apply bearer_token_round_trip; [discriminate | vm_compute; reflexivity].
Defined.

(** X2: when token extraction returns an error, it has written exactly
    one error object, carrying the message of the returned error, under
    status 401 if nothing had been written before; it records no error in
    [c.Errors], does not abort and calls nobody.  When it returns a token
    or panics it has not touched the state at all. *)
Theorem token_extraction_error_is_written (st : State) :
  match getTokenFromAuthorizationHeader st with
  | (Some (token, Some err), st') =>
      token = EmptyString /\
      (exists msg, err = errorString msg /\ msg ∈ token_messages /\
         body (Writer (ctx st')) = (body (Writer (ctx st)) ++ [H_error msg])%list) /\
      (written (Writer (ctx st)) = false ->
       status (Writer (ctx st')) = StatusUnauthorized) /\
      Errors (ctx st') = Errors (ctx st) /\
      aborted (ctx st') = aborted (ctx st) /\
      calls st' = calls st
  | (_, st') => st' = st
  end.
Proof.
  unfold getTokenFromAuthorizationHeader, bind. rewrite GetHeader_run.
  cbn beta iota zeta.
  assert (Hwrite : forall msg, msg ∈ token_messages ->
    let st' := wr (fun w => gin.Write (H_error msg) (gin.WriteHeader StatusUnauthorized w)) st in
    EmptyString = EmptyString /\
    (exists msg', errorString msg = errorString msg' /\ msg' ∈ token_messages /\
       body (Writer (ctx st')) = (body (Writer (ctx st)) ++ [H_error msg'])%list) /\
    (written (Writer (ctx st)) = false ->
     status (Writer (ctx st')) = StatusUnauthorized) /\
    Errors (ctx st') = Errors (ctx st) /\
    aborted (ctx st') = aborted (ctx st) /\
    calls st' = calls st).
  { intros msg Hmsg. cbn zeta. split; [done|]. split.
    - exists msg. project. done.
    - split; [|done]. intros Hw. project. by rewrite Hw. }
  destruct (nonempty (header _ _)); cbn [negb].
  - destruct (strings.slice_from _ _) as [token|]; [|done].
    destruct (nonempty token); cbn [negb]; [done|].
    rewrite JSON_run. cbn beta iota.
    apply (Hwrite "token is missing"%string). right. left.
  - rewrite JSON_run. cbn beta iota.
    apply (Hwrite "authorization header is missing"%string). left.
Qed.

(** X3: [validateToken] returns a user name only with a nil error and
    then has not touched the gin context; whenever it returns an error the
    user name is empty, the context is aborted, the header is written and
    exactly one more error is recorded in [c.Errors].  A panic leaves the
    state as it was. *)
Theorem validateToken_error_aborts (m : instance) (st : State) :
  match validateToken m st with
  | (Some (user, None), st') =>
      ctx st' = ctx st /\
      exists token,
        calls st' = (calls st ++ [CallValidateToken token; CallSelfSubjectReview token])%list /\
        m_validateToken m token = None /\
        api_SelfSubjectReview m token = inl user
  | (Some (user, Some err), st') =>
      user = EmptyString /\
      aborted (ctx st') = true /\
      written (Writer (ctx st')) = true /\
      (written (Writer (ctx st)) = false ->
       status (Writer (ctx st')) = StatusUnauthorized) /\
      exists classified,
        Errors (ctx st') = (Errors (ctx st) ++ [errorString classified])%list
  | (None, st') => st' = st
  end.
Proof.
  rewrite validateToken_run. cbn zeta. unfold authenticate.
  destruct (nonempty (header _ _)); cbn [negb auth_result auth_error auth_state].
  2:{ repeat split; [by project | intros Hw; project; by rewrite Hw | by eexists]. }
  destruct (strings.slice_from 7 _) as [token|]; [|done].
  destruct (nonempty token); cbn [negb auth_result auth_error auth_state].
  2:{ repeat split; [by project | intros Hw; project; by rewrite Hw | by eexists]. }
  destruct (m_validateToken m token) as [err|] eqn:Hv;
    cbn [auth_result auth_error auth_state].
  { repeat split; [by project | intros Hw; project; by rewrite Hw | by eexists]. }
  destruct (api_NewPool m) as [err|]; cbn [auth_result auth_error auth_state].
  { repeat split; [by project | intros Hw; project; by rewrite Hw | by eexists]. }
  destruct (api_AuthNewForConfig m token) as [err|];
    cbn [auth_result auth_error auth_state].
  { repeat split; [by project | intros Hw; project; by rewrite Hw | by eexists]. }
  destruct (api_SelfSubjectReview m token) as [user|err] eqn:Hr;
    cbn [auth_result auth_error auth_state].
  - split; [done|]. by exists token.
  - repeat split; [by project | intros Hw; project; by rewrite Hw | by eexists].
Qed.

(** X4: the calls [validateToken] makes.  Without a usable token (no
    header, a header too short to slice, nothing after its first seven
    bytes) it makes none.  With one, it always asks the manager to validate
    exactly that token, first; the self-subject review for the same token
    follows exactly when the manager accepted the token and the CA pool and
    the authentication client could be built, and nothing else is
    called. *)
Theorem validateToken_calls (m : instance) (st : State) :
  let h := header (request (ctx st)) "Authorization" in
  exists new,
    calls (snd (validateToken m st)) = (calls st ++ new)%list /\
    ((forall token, ~ usable_token h token) -> new = []) /\
    (forall token, usable_token h token ->
       exists rest,
         new = CallValidateToken token :: rest /\
         (rest = [] \/ rest = [CallSelfSubjectReview token]) /\
         (rest = [CallSelfSubjectReview token] <->
          m_validateToken m token = None /\ api_NewPool m = None /\
          api_AuthNewForConfig m token = None)).
Proof.
  cbn zeta. rewrite validateToken_run. cbn zeta. unfold authenticate, usable_token.
  change (String.length "Bearer ") with 7%nat.
  destruct (nonempty (header _ _)) eqn:Hh; cbn [negb snd auth_state].
  2:{ apply nonempty_false in Hh. rewrite Hh. exists []. project. rewrite app_nil_r.
      split; [done|]. split; [done|]. by intros token [Hs _]. }
  destruct (strings.slice_from 7 _) as [token|] eqn:Hs; cbn [snd auth_state].
  2:{ exists []. rewrite app_nil_r. split; [done|]. split; [done|]. by intros token [? _]. }
  destruct (nonempty token) eqn:Ht; cbn [negb snd auth_state].
  2:{ apply nonempty_false in Ht. exists []. project. rewrite app_nil_r.
      split; [done|]. split; [done|]. intros token' [[= <-] Hne]. by destruct Hne. }
  apply nonempty_true in Ht.
  assert (Hcalls : forall rest : list Call,
    (rest = [] \/ rest = [CallSelfSubjectReview token]) ->
    (rest = [CallSelfSubjectReview token] <->
     m_validateToken m token = None /\ api_NewPool m = None /\
     api_AuthNewForConfig m token = None) ->
    ((forall token', ~ (Some token = Some token' /\ token' <> EmptyString)) ->
     CallValidateToken token :: rest = []) /\
    (forall token', Some token = Some token' /\ token' <> EmptyString ->
       exists rest',
         CallValidateToken token :: rest = CallValidateToken token' :: rest' /\
         (rest' = [] \/ rest' = [CallSelfSubjectReview token']) /\
         (rest' = [CallSelfSubjectReview token'] <->
          m_validateToken m token' = None /\ api_NewPool m = None /\
          api_AuthNewForConfig m token' = None))).
  { intros rest Hrest Hiff. split.
    - intros Hnone. by destruct (Hnone token).
    - intros token' [[= <-] _]. by exists rest. }
  destruct (m_validateToken m token) as [err|] eqn:Hv; cbn [snd auth_state].
  { eexists. project. split; [done|]. apply Hcalls; [by left|].
    split; [done | by intros (? & _)]. }
  destruct (api_NewPool m) as [err|] eqn:Hp; cbn [snd auth_state].
  { eexists. project. split; [done|]. apply Hcalls; [by left|].
    split; [done | by intros (_ & ? & _)]. }
  destruct (api_AuthNewForConfig m token) as [err|] eqn:Hc; cbn [snd auth_state].
  { eexists. project. split; [done|]. apply Hcalls; [by left|].
    split; [done | by intros (_ & _ & ?)]. }
  destruct (api_SelfSubjectReview m token) as [user|err]; cbn [snd auth_state];
    eexists; project; (split; [done|]); (apply Hcalls; [by right | done]).
Qed.

(** ** The permission checks *)

(** X5: each permission check leaves the gin context alone and asks the
    permission system at most once, for [user] and with the verb, resource,
    namespace and name of its own: [list] on all SveltosClusters or CAPI
    Clusters without namespace or name, [get] on the one named.  It returns
    a nil error only if it has asked, and the verdict [false] if it has
    not. *)
Theorem permission_checks_ask_once (m : instance)
    (clusterNamespace clusterName user : string) (clusterType : ClusterType) :
  asks_once (canListSveltosClusters m user)
    (mkSAR "list" libsveltos_Group libsveltos_Version SveltosClusterKind
       EmptyString EmptyString user) /\
  asks_once (canGetSveltosCluster m clusterNamespace clusterName user)
    (mkSAR "get" libsveltos_Group libsveltos_Version SveltosClusterKind
       clusterNamespace clusterName user) /\
  asks_once (canListCAPIClusters m user)
    (mkSAR "list" clusterv1_Group clusterv1_Version ClusterKind
       EmptyString EmptyString user) /\
  asks_once (canGetCAPICluster m clusterNamespace clusterName user)
    (mkSAR "get" clusterv1_Group clusterv1_Version ClusterKind
       clusterNamespace clusterName user) /\
  asks_once (canGetCluster m clusterNamespace clusterName user clusterType)
    (if String.eqb clusterType ClusterTypeCapi
     then mkSAR "get" clusterv1_Group clusterv1_Version ClusterKind
            clusterNamespace clusterName user
     else mkSAR "get" libsveltos_Group libsveltos_Version SveltosClusterKind
            clusterNamespace clusterName user).
Proof.
  assert (H : forall sar,
    asks_once (match api_NewForConfig m with
               | Some err => ret (false, Some err)
               | None => createSubjectAccessReview m sar
               end) sar).
  { intros sar st. rewrite (check_run m sar st _ eq_refl). unfold check, add_calls.
    destruct (api_NewForConfig m) as [err|]; cbn [fst snd].
    - exists false, (Some err), []. repeat split; auto. done.
    - destruct (api_SubjectAccessReview m sar) as [allowed|err]; cbn [fst snd].
      + exists allowed, None, [CallSubjectAccessReview sar]. repeat split; auto. done.
      + exists false, (Some err), [CallSubjectAccessReview sar]. repeat split; auto. }
  repeat split; try apply H.
  unfold canGetCluster. destruct (String.eqb clusterType ClusterTypeCapi); apply H.
Qed.

(** ** The query parsers *)

(** Membership in a list that is written out. *)
Ltac in_list := repeat first [by left | right].

Lemma Atoi_error_value (s : string) (v : Z) (e : error) :
  strconv.Atoi s = (v, Some e) -> v ∈ atoi_fallbacks.
Proof.
  unfold strconv.Atoi, strconv.ParseInt, atoi_fallbacks. destruct s as [|c s].
  { intros [= <- _]. left. }
  destruct (strconv.ParseUint _) as [un [[]|]]; cbn zeta.
  1:{ intros [= <- _]. left. }
  all: destruct (negb _ && _); [intros [= <- _]; right; left|];
    (destruct (_ && _); [intros [= <- _]; right; right; left | intros [= _ H]; discriminate H]).
Qed.

Lemma complain_Some_parts (msg : string) (st : State) :
  let st' := wr (complain (Some msg)) st in
  body (Writer (ctx st')) = (body (Writer (ctx st)) ++ [H_error msg])%list /\
  (written (Writer (ctx st)) = false -> status (Writer (ctx st')) = StatusBadRequest) /\
  calls st' = calls st /\ Errors (ctx st') = Errors (ctx st) /\
  aborted (ctx st') = aborted (ctx st) /\ request (ctx st') = request (ctx st).
Proof.
  cbn zeta. unfold complain. repeat split; project; try done.
  intros Hw. by rewrite Hw.
Qed.

(** X6: [getLimitAndSkipFromQuery] never aborts, makes no call and always
    returns.  On a malformed [limit] it writes "invalid limit parameter",
    does not look at [skip] (which stays 0), and returns as limit not the
    default but the value [strconv.Atoi] hands back with its error: 0 or
    the nearest 64-bit bound.  On a malformed [skip] it writes "invalid skip
    parameter" and returns such a value as skip.  Otherwise the context is
    left as it was. *)
Theorem getLimitAndSkipFromQuery_cases (st : State) :
  let r := request (ctx st) in
  exists limit skip st',
    getLimitAndSkipFromQuery st = (Some (limit, skip), st') /\
    calls st' = calls st /\ Errors (ctx st') = Errors (ctx st) /\
    aborted (ctx st') = aborted (ctx st) /\
    if malformed (query r "limit") then
      limit ∈ atoi_fallbacks /\ skip = 0 /\
      body (Writer (ctx st')) =
        (body (Writer (ctx st)) ++ [H_error "invalid limit parameter"])%list
    else
      limit = parsed_int maxItems (query r "limit") /\
      if malformed (query r "skip") then
        skip ∈ atoi_fallbacks /\
        body (Writer (ctx st')) =
          (body (Writer (ctx st)) ++ [H_error "invalid skip parameter"])%list
      else skip = parsed_int 0 (query r "skip") /\ st' = st.
Proof.
  cbn zeta. rewrite getLimitAndSkipFromQuery_run.
  unfold limit_skip, limit_skip_complaint, parseLimitAndSkip, malformed, well_formed_int,
    parsed_int.
  destruct (nonempty (query _ "limit")); cbn [andb].
  - destruct (strconv.Atoi (query _ "limit")) as [limit [e|]] eqn:Hl; cbn [negb fst snd].
    + eexists _, _, _. split; [reflexivity|].
      destruct (complain_Some_parts "invalid limit parameter" st) as (Hb & _ & Hc & He & Ha & _).
      repeat split; try done. by eapply Atoi_error_value.
    + destruct (nonempty (query _ "skip")); cbn [andb].
      * destruct (strconv.Atoi (query _ "skip")) as [skip [e|]] eqn:Hs; cbn [negb fst snd].
        -- eexists _, _, _. split; [reflexivity|].
           destruct (complain_Some_parts "invalid skip parameter" st)
             as (Hb & _ & Hc & He & Ha & _).
           repeat split; try done. by eapply Atoi_error_value.
        -- eexists _, _, _. split; [reflexivity|]. cbn [complain]. by rewrite wr_id.
      * eexists _, _, _. split; [reflexivity|]. cbn [complain]. by rewrite wr_id.
  - destruct (nonempty (query _ "skip")); cbn [andb].
    + destruct (strconv.Atoi (query _ "skip")) as [skip [e|]] eqn:Hs; cbn [negb fst snd].
      * eexists _, _, _. split; [reflexivity|].
        destruct (complain_Some_parts "invalid skip parameter" st)
          as (Hb & _ & Hc & He & Ha & _).
        repeat split; try done. by eapply Atoi_error_value.
      * eexists _, _, _. split; [reflexivity|]. cbn [complain]. by rewrite wr_id.
    + eexists _, _, _. split; [reflexivity|]. cbn [complain]. by rewrite wr_id.
Qed.

(** X7: [getClusterFromQuery] is all or nothing.  Either it returns the
    [namespace] and [name] parameters, both non-empty, with one of the two
    type constants, the one the [type] parameter folds to, and leaves the
    context as it was; or it returns three empty strings and has written
    exactly one error object with status 400.  It never aborts the
    context. *)
Theorem getClusterFromQuery_all_or_nothing (st : State) :
  let r := request (ctx st) in
  exists namespace name clusterType st',
    getClusterFromQuery st = (Some (namespace, name, clusterType), st') /\
    ((namespace = query r "namespace" /\ namespace <> EmptyString /\
      name = query r "name" /\ name <> EmptyString /\
      clusterType ∈ [ClusterTypeSveltos; ClusterTypeCapi] /\
      strings.EqualFold (query r "type") clusterType = true /\
      st' = st) \/
     (namespace = EmptyString /\ name = EmptyString /\ clusterType = EmptyString /\
      (exists msg, msg ∈ parser_messages /\
         body (Writer (ctx st')) = (body (Writer (ctx st)) ++ [H_error msg])%list) /\
      (written (Writer (ctx st)) = false -> status (Writer (ctx st')) = StatusBadRequest) /\
      calls st' = calls st /\ Errors (ctx st') = Errors (ctx st) /\
      aborted (ctx st') = aborted (ctx st))).
Proof.
  cbn zeta. rewrite getClusterFromQuery_run. unfold cluster_of, cluster_complaint, parseCluster.
  assert (Hbad : forall msg, msg ∈ parser_messages ->
    exists namespace name clusterType st',
      (Some (EmptyString, EmptyString, EmptyString), wr (complain (Some msg)) st) =
      (Some (namespace, name, clusterType), st') /\
      ((namespace = query (request (ctx st)) "namespace" /\ namespace <> EmptyString /\
        name = query (request (ctx st)) "name" /\ name <> EmptyString /\
        clusterType ∈ [ClusterTypeSveltos; ClusterTypeCapi] /\
        strings.EqualFold (query (request (ctx st)) "type") clusterType = true /\
        st' = st) \/
       (namespace = EmptyString /\ name = EmptyString /\ clusterType = EmptyString /\
        (exists msg, msg ∈ parser_messages /\
           body (Writer (ctx st')) = (body (Writer (ctx st)) ++ [H_error msg])%list) /\
        (written (Writer (ctx st)) = false -> status (Writer (ctx st')) = StatusBadRequest) /\
        calls st' = calls st /\ Errors (ctx st') = Errors (ctx st) /\
        aborted (ctx st') = aborted (ctx st)))).
  { intros msg Hmsg. eexists _, _, _, _. split; [reflexivity|]. right.
    destruct (complain_Some_parts msg st) as (Hb & Hs & Hc & He & Ha & _).
    repeat split; try done. by exists msg. }
  destruct (nonempty (query _ "namespace")) eqn:Hns; cbn [negb fst snd].
  2:{ apply Hbad. unfold parser_messages. in_list. }
  destruct (nonempty (query _ "name")) eqn:Hn; cbn [negb fst snd].
  2:{ apply Hbad. unfold parser_messages. in_list. }
  destruct (nonempty (query _ "type")) eqn:Ht; cbn [negb fst snd].
  2:{ apply Hbad. unfold parser_messages. in_list. }
  apply nonempty_true in Hns, Hn.
  destruct (strings.EqualFold _ ClusterTypeSveltos) eqn:Hs; cbn [fst snd].
  { eexists _, _, _, _. split; [reflexivity|]. left. cbn [complain]. rewrite wr_id.
    repeat split; try done. left. }
  destruct (strings.EqualFold _ ClusterTypeCapi) eqn:Hc; cbn [fst snd].
  { eexists _, _, _, _. split; [reflexivity|]. left. cbn [complain]. rewrite wr_id.
    repeat split; try done. right. left. }
  apply Hbad. unfold parser_messages. in_list.
Qed.

Lemma existsb_eqb_elem (s : string) (l : list string) :
  existsb (String.eqb s) l = true <-> s ∈ l.
Proof.
  rewrite existsb_exists. split.
  - intros (x & Hx & ->%String.eqb_eq). by apply list_elem_of_In.
  - intros Hs. exists s. split; [by apply list_elem_of_In | apply String.eqb_refl].
Qed.

(** X8: [getFailedOnlyFromQuery] returns [true] exactly for the six
    literals [strconv.ParseBool] reads as true.  It leaves the context as it
    was when the [failed] parameter is absent, empty or one of the twelve
    literals; for anything else it returns [false] after writing "invalid
    failed parameter" with status 400, without aborting. *)
Theorem getFailedOnlyFromQuery_literals (st : State) :
  let queryFailed := query (request (ctx st)) "failed" in
  exists failedOnly st',
    getFailedOnlyFromQuery st = (Some failedOnly, st') /\
    (failedOnly = true <-> queryFailed ∈ true_literals) /\
    (queryFailed ∈ (EmptyString :: true_literals ++ false_literals)%list -> st' = st) /\
    (queryFailed ∉ (EmptyString :: true_literals ++ false_literals)%list ->
     body (Writer (ctx st')) =
       (body (Writer (ctx st)) ++ [H_error "invalid failed parameter"])%list /\
     (written (Writer (ctx st)) = false -> status (Writer (ctx st')) = StatusBadRequest) /\
     calls st' = calls st /\ Errors (ctx st') = Errors (ctx st) /\
     aborted (ctx st') = aborted (ctx st)).
Proof.
  cbn zeta. rewrite getFailedOnlyFromQuery_run. unfold failed_of, failed_complaint, ParseBool.
  set (q := query (request (ctx st)) "failed").
  fold true_literals false_literals.
  eexists _, _. split; [reflexivity|].
  destruct (nonempty q) eqn:Hq.
  - apply nonempty_true in Hq.
    destruct (existsb (String.eqb q) true_literals) eqn:Ht; cbn [fst snd complain].
    { apply existsb_eqb_elem in Ht. rewrite wr_id.
      split; [by split|]. split; [done|].
      intros Hn. exfalso. apply Hn. right. apply elem_of_app. by left. }
    assert (Hnt : q ∉ true_literals).
    { intros H%existsb_eqb_elem. congruence. }
    destruct (existsb (String.eqb q) false_literals) eqn:Hf; cbn [fst snd complain].
    { apply existsb_eqb_elem in Hf. rewrite wr_id.
      split; [split; [done | intros H; by destruct Hnt]|]. split; [done|].
      intros Hn. exfalso. apply Hn. right. apply elem_of_app. by right. }
    assert (Hnf : q ∉ false_literals).
    { intros H%existsb_eqb_elem. congruence. }
    split; [split; [done | intros H; by destruct Hnt]|].
    split.
    + intros [H | [H|H]%elem_of_app]%elem_of_cons; done.
    + intros _. destruct (complain_Some_parts "invalid failed parameter" st)
        as (Hb & Hs & Hc & He & Ha & _). done.
  - apply nonempty_false in Hq. cbn [complain]. rewrite wr_id.
    assert (Hnt : q ∉ true_literals).
    { rewrite Hq. intros H.
      repeat (apply elem_of_cons in H as [H|H]; [discriminate H|]).
      by apply elem_of_nil in H. }
    split; [split; [done | intros H; by destruct Hnt]|].
    split; [done|]. intros Hn. exfalso. apply Hn. rewrite Hq. left.
Qed.

(** ** The cluster filter, further *)

Lemma string_app_assoc (a b c : string) : ((a ++ b) ++ c = a ++ (b ++ c))%string.
Proof.
  induction a as [|x a IH]; [done|].
  change (String x ((a ++ b) ++ c) = String x (a ++ b ++ c))%string. by f_equal.
Qed.

Lemma is_substring_trans (a b c : string) :
  is_substring a b -> is_substring b c -> is_substring a c.
Proof.
  intros (pre & post & ->) (pre' & post' & ->).
  exists (pre' ++ pre)%string, (post ++ post')%string.
  by rewrite !string_app_assoc.
Qed.

Lemma is_substring_empty (a : string) : is_substring a EmptyString -> a = EmptyString.
Proof.
  intros (pre & post & H). destruct pre; [|discriminate H]. by destruct a.
Qed.

Lemma passes_narrower (filters' filters : clusterFilters) k info :
  narrower filters' filters -> passes filters' k info -> passes filters k info.
Proof.
  intros (Hns & Hn & Hl) (Pns & Pn & Pl). repeat split.
  - destruct Pns as [E|P].
    + left. rewrite E in Hns. by apply is_substring_empty.
    + right. by eapply is_substring_trans.
  - destruct Pn as [E|P].
    + left. rewrite E in Hn. by apply is_substring_empty.
    + right. by eapply is_substring_trans.
  - destruct Pl as [E|P].
    + left. rewrite E in Hl. destruct (f_labelSelector filters) as [|r s]; [done|].
      specialize (Hl r). exfalso. eapply not_elem_of_nil. apply Hl. left.
    + right. rewrite Forall_forall in P. apply Forall_forall. intros r Hr. by apply P, Hl.
Qed.

(** X9: [getManagedClusterData] yields at most one row per cluster of the
    inventory, and with no namespace filter, no name filter and an empty
    selector exactly one row for each cluster: the rows are, up to their
    order, the entries of the map. *)
Theorem getManagedClusterData_size (clusters : gmap ObjectReference ClusterInfo)
    (filters : clusterFilters) :
  (length (getManagedClusterData clusters filters) <= size clusters)%nat /\
  getManagedClusterData clusters (mkClusterFilters EmptyString EmptyString []) ≡ₚ
    (fun e => mkManagedCluster (Namespace e.1) (Name e.1) e.2) <$> map_to_list clusters.
Proof.
  rewrite !getManagedClusterData_filter. split.
  - rewrite length_fmap, <- length_map_to_list. apply length_filter.
  - assert (Hall : forall l : list (ObjectReference * ClusterInfo),
      filter (fun e => keep_entry (mkClusterFilters EmptyString EmptyString []) e = true) l
      = l).
    { induction l as [|e l IH]; [done|].
      rewrite filter_cons_True by reflexivity. by rewrite IH. }
    by rewrite Hall.
Qed.

(** X10: narrowing the filters narrows the result.  If each pattern of
    [filters] occurs in the corresponding pattern of [filters'] and every
    requirement of [filters] is one of [filters'], then every row
    [getManagedClusterData] yields under [filters'] it also yields under
    [filters]. *)
Theorem getManagedClusterData_narrower (clusters : gmap ObjectReference ClusterInfo)
    (filters' filters : clusterFilters) (mc : ManagedCluster) :
  narrower filters' filters ->
  mc ∈ getManagedClusterData clusters filters' ->
  mc ∈ getManagedClusterData clusters filters.
Proof.
  intros Hn. rewrite !getManagedClusterData_elem.
  intros (k & info & Hk & -> & Hp). exists k, info.
  split; [done|]. split; [done|]. by eapply passes_narrower.
Qed.

Lemma getManagedClusterData_narrower_witness :
  let narrow := mkClusterFilters "production" EmptyString [] in
  let wide := mkClusterFilters "prod" EmptyString [] in
  let mc := mkManagedCluster "production" "c1" (mkClusterInfo ∅) in
  narrower narrow wide /\
  mc ∈ getManagedClusterData Sample.inventory narrow /\
  mc ∈ getManagedClusterData Sample.inventory wide.
Proof.
  cbn zeta.
  assert (Hn : narrower (mkClusterFilters "production" EmptyString [])
                 (mkClusterFilters "prod" EmptyString [])).
  { split; [by exists EmptyString, "uction"%string|].
    split; [by exists EmptyString, EmptyString | done]. }
  assert (Hin : mkManagedCluster "production" "c1" (mkClusterInfo ∅) ∈
                getManagedClusterData Sample.inventory
                  (mkClusterFilters "production" EmptyString [])).
  { apply getManagedClusterData_elem.
    exists (Sample.cluster "production" "c1"), (mkClusterInfo ∅).
    split; [vm_compute; reflexivity|]. split; [reflexivity|].
    split; [right; by exists EmptyString, EmptyString|]. split; by left. }
  split; [exact Hn|]. split; [exact Hin|].
  exact (getManagedClusterData_narrower _ _ _ _ Hn Hin).
Defined.

(** ** The handlers *)

Lemma authenticated_AuthUser m r user :
  authenticated m r user <->
  exists token, authenticate m (header r "Authorization") = AuthUser token user.
Proof.
  unfold authenticated. rewrite validateToken_result. split.
  - destruct (authenticate _ _) as [|msg|token err|token err b|token u]; cbn; try done.
    intros [= ->]. by exists token.
  - by intros [token ->].
Qed.

Lemma requested_cluster_of r : requested_cluster r = Some (cluster_of r).
Proof. unfold requested_cluster. by rewrite getClusterFromQuery_run. Qed.

Lemma fetch_call_inventory_call e r a u :
  fetch_call e r a u = inventory_call e (cluster_of r) a u.
Proof. unfold fetch_call, inventory_call. by destruct (cluster_of r) as [[? ?] ?]. Qed.

Lemma full_result_inventory_error labels_Parse m e r a u err :
  full_result labels_Parse m e r a u = inr err <->
  inventory_error m e (cluster_of r) a u = Some err.
Proof.
  unfold full_result, inventory_error. destruct (cluster_of r) as [[? ?] ?].
  destruct e;
    repeat match goal with |- context [match ?x with inl _ => _ | inr _ => _ end] =>
             destruct x end;
    split; intros H; by simplify_eq.
Qed.

Lemma no_result_data_complaints e r st rest :
  body (Writer (ctx st)) = (complaint_bodies e r ++ rest)%list ->
  (forall v, v ∈ rest -> is_result v = false) ->
  no_result_data st.
Proof.
  intros Hb Hrest v. rewrite Hb.
  intros [Hv%complaint_bodies_errors | Hv]%elem_of_app; auto.
Qed.

(** X11: a handler either aborts the context or answers with result
    data, never both, and always sends a header.  After an abort the body
    holds error objects only and the status is not 200.  Without an abort
    nothing is recorded in [c.Errors] and the body is what the query
    parsers complained about followed by one result object; the status is
    200 unless a query parser had answered 400 before. *)
Theorem handler_aborts_or_answers
    (labels_Parse : string -> labels.Selector * option error)
    (m : instance) (e : Endpoint) (r : Request) :
  let st := gin.serve (route labels_Parse m e) r in
  written (Writer (ctx st)) = true /\
  (aborted (ctx st) = true ->
     no_result_data st /\ status (Writer (ctx st)) <> StatusOK) /\
  (aborted (ctx st) = false ->
     Errors (ctx st) = [] /\
     status (Writer (ctx st)) = (if complained e r then StatusBadRequest else StatusOK) /\
     exists v, is_result v = true /\
       body (Writer (ctx st)) = (complaint_bodies e r ++ [v])%list).
Proof.
  cbn zeta. pose proof (serve_outcome labels_Parse m e r) as Hout.
  set (st := gin.serve _ _) in *. clearbody st.
  outcome_cases Hout; try (destruct o; try discriminate Herr).
  all: split; [by project|].
  all: split; try (by project).
  all: intros _.
  all: try (split;
    [ first [ apply (no_result_data_complaints e r _ []);
                [project; by rewrite ?app_nil_r | by intros v Hv%elem_of_nil]
            | eapply (no_result_data_complaints e r _ [_]);
                [by project | by intros v ->%list_elem_of_singleton] ]
    | project; destruct (complained e r); try destruct (per_cluster e); done ]).
  split; [by project|]. split; [project; by destruct (complained e r)|].
  exists w. split; [|by project].
  apply window_of_total in Hw as [_ ->]. by eapply full_result_total.
Qed.

Lemma slice_from_None (n : nat) (s : string) :
  strings.slice_from n s = None <-> (String.length s < n)%nat.
Proof.
  revert s. induction n as [|n IH]; intros [|c s]; cbn [strings.slice_from String.length];
    rewrite ?IH; split; try done; lia.
Qed.

Lemma authenticate_panic m h : authenticate m h = AuthPanic <-> short_header h.
Proof.
  unfold authenticate, short_header. change (String.length "Bearer ") with 7%nat.
  rewrite <- slice_from_None, <- nonempty_true.
  destruct (nonempty h); cbn [negb]; [|split; [done | by intros [? _]]].
  destruct (strings.slice_from 7 h) as [token|]; [|done].
  split; [|by intros [_ ?]].
  destruct (nonempty token); cbn [negb]; [|done].
  destruct (m_validateToken m token); [done|]. destruct (api_NewPool m); [done|].
  destruct (api_AuthNewForConfig m token); [done|].
  by destruct (api_SelfSubjectReview m token).
Qed.

Lemma serve_short_header labels_Parse m e r :
  short_header (header r "Authorization") ->
  gin.serve (route labels_Parse m e) r =
  match (if per_cluster e then None else (filters_of labels_Parse r).2) with
  | Some err => abort_with StatusBadRequest err (st_params e r)
  | None => recover (st_params e r)
  end.
Proof.
  intros Hshort%(authenticate_panic m). rewrite serve_final. unfold final_state.
  by rewrite Hshort.
Qed.

(** X12: an Authorization header of one to six bytes makes
    [validateToken] panic in the slice expression of
    [getTokenFromAuthorizationHeader], and with it every handler that gets
    as far as [validateToken]: nothing is recorded in [c.Errors] and the
    recovery middleware answers 500 unless a query parser had answered 400.
    The one run that does not get that far is that of a listing handler
    whose filters could not be parsed: it has aborted before with status
    400 and the parse error in [c.Errors].  Either way the context is
    aborted, no collaborator is called and the body holds nothing but what
    the query parsers wrote. *)
Theorem short_authorization_header
    (labels_Parse : string -> labels.Selector * option error)
    (m : instance) (e : Endpoint) (r : Request) :
  short_header (header r "Authorization") ->
  let st := gin.serve (route labels_Parse m e) r in
  let unparsed failure :=
    per_cluster e = false /\
    exists filters,
      fst (getClusterFiltersFromQuery labels_Parse (initial r)) =
      Some (filters, Some failure) in
  fst (validateToken m (initial r)) = None /\
  calls st = [] /\ aborted (ctx st) = true /\
  body (Writer (ctx st)) = complaint_bodies e r /\
  (filters_parsed labels_Parse e r \/ exists failure, unparsed failure) /\
  (filters_parsed labels_Parse e r ->
   Errors (ctx st) = [] /\
   status (Writer (ctx st)) =
     if complained e r then StatusBadRequest else StatusInternalServerError) /\
  (forall failure, unparsed failure ->
   Errors (ctx st) = [failure] /\ status (Writer (ctx st)) = StatusBadRequest).
Proof.
  intros Hshort. cbn zeta.
  split; [by rewrite validateToken_result, (proj2 (authenticate_panic m _) Hshort)|].
  rewrite (serve_short_header _ _ _ _ Hshort).
  rewrite filters_parsed_accepted. unfold filters_accepted.
  rewrite getClusterFiltersFromQuery_run. cbn [fst initial gin.new_Context ctx request].
  destruct (per_cluster e) eqn:Hper.
  { project. do 3 (split; [done|]). split; [by do 2 left|]. split.
    - intros _. split; [done|]. by destruct (complained e r).
    - by intros failure [? _]. }
  destruct (filters_of labels_Parse r) as [filters [err|]] eqn:Hf; cbn [snd].
  - project. cbn [app]. do 3 (split; [done|]). split; [|split].
    + right. exists err. split; [done|]. by exists filters.
    + by intros [?|?].
    + intros failure [_ [filters' [= <- <-]]]. split; [done|].
      by destruct (complained e r).
  - project. do 3 (split; [done|]). split; [by left; right|]. split.
    + intros _. split; [done|]. by destruct (complained e r).
    + by intros failure [_ [filters' ?]].
Qed.

(** X13: the status of a response is 200, 400, 401 or 500.  It is 500
    only after the panic on a short Authorization header, with no call
    made; and it is 200 exactly when the handler did not abort and no
    query parser complained. *)
Theorem response_status_codes
    (labels_Parse : string -> labels.Selector * option error)
    (m : instance) (e : Endpoint) (r : Request) :
  let st := gin.serve (route labels_Parse m e) r in
  status (Writer (ctx st)) ∈
    [StatusOK; StatusBadRequest; StatusUnauthorized; StatusInternalServerError] /\
  (status (Writer (ctx st)) = StatusInternalServerError ->
     short_header (header r "Authorization") /\ calls st = []) /\
  (status (Writer (ctx st)) = StatusOK <->
     aborted (ctx st) = false /\ complained e r = false).
Proof.
  cbn zeta. pose proof (serve_outcome labels_Parse m e r) as Hout.
  set (st := gin.serve _ _) in *. clearbody st.
  outcome_cases Hout; try (destruct o; try discriminate Herr).
  2:{ apply authenticate_panic in Ha. project.
      destruct (complained e r); cbn [negb]; (split; [in_list|]);
        (split; [done|]); split; try done; by intros [? ?]. }
  all: project; destruct (complained e r); try destruct (per_cluster e); cbn [negb andb].
  all: split; [in_list|]; split; [done|]; split; try done; by intros [? ?].
Qed.

Lemma limit_skip_complaint_message r msg :
  limit_skip_complaint r = Some msg -> msg ∈ parser_messages.
Proof.
  unfold limit_skip_complaint, parseLimitAndSkip, parser_messages.
  destruct (if nonempty (query r "limit") then _ else _) as [limit [err|]]; cbn [snd].
  { intros [= <-]. in_list. }
  destruct (if nonempty (query r "skip") then _ else _) as [skip [err|]]; cbn [snd].
  { intros [= <-]. in_list. }
  done.
Qed.

Lemma cluster_complaint_message r msg :
  cluster_complaint r = Some msg -> msg ∈ parser_messages.
Proof.
  unfold cluster_complaint, parseCluster, parser_messages.
  repeat match goal with
         | |- context [if ?b then _ else _] => destruct b
         end; cbn [snd]; intros [= <-]; in_list.
Qed.

Lemma failed_complaint_message r msg :
  failed_complaint r = Some msg -> msg ∈ parser_messages.
Proof.
  unfold failed_complaint, parser_messages. destruct (nonempty _); [|done].
  destruct (ParseBool _).2; intros [= <-]. in_list.
Qed.

Lemma complaint_messages e r msg :
  H_error msg ∈ complaint_bodies e r -> msg ∈ parser_messages.
Proof.
  unfold complaint_bodies.
  intros (msg' & [= <-] & (o & Ho & Hmsg)%list_elem_of_omap)%list_elem_of_fmap.
  cbn in Hmsg. subst o.
  destruct e; cbn [complaints] in Ho;
    repeat (apply elem_of_cons in Ho as [Ho | Ho];
            [ symmetry in Ho;
              first [ by eapply limit_skip_complaint_message
                    | by eapply cluster_complaint_message
                    | by eapply failed_complaint_message ] |]);
    by apply elem_of_nil in Ho.
Qed.

Lemma authenticate_token_message m h msg :
  authenticate m h = AuthNoToken msg -> msg ∈ token_messages.
Proof.
  unfold authenticate, token_messages.
  destruct (nonempty h); cbn [negb]; [|intros [= <-]; in_list].
  destruct (strings.slice_from 7 h) as [token|]; [|done].
  destruct (nonempty token); cbn [negb]; [|intros [= <-]; in_list].
  destruct (m_validateToken m token); [done|]. destruct (api_NewPool m); [done|].
  destruct (api_AuthNewForConfig m token); [done|].
  by destruct (api_SelfSubjectReview m token).
Qed.

(** X14: every error object in a response body carries one of the seven
    messages of the query parsers or one of the two of the token
    extraction.  What the token validation, the permission system or the
    inventory report as error is recorded in [c.Errors] and never written
    to the body. *)
Theorem error_objects_in_body
    (labels_Parse : string -> labels.Selector * option error)
    (m : instance) (e : Endpoint) (r : Request) (msg : string) :
  H_error msg ∈ body (Writer (ctx (gin.serve (route labels_Parse m e) r))) ->
  msg ∈ (parser_messages ++ token_messages)%list.
Proof.
  pose proof (serve_outcome labels_Parse m e r) as Hout.
  set (st := gin.serve _ _) in *. clearbody st. intros Hin. apply elem_of_app.
  outcome_cases Hout; try (destruct o; try discriminate Herr); revert Hin; project;
    try (intros Hin%complaint_messages; by left).
  - intros [Hin%complaint_messages | Hin%list_elem_of_singleton]%elem_of_app; [by left|].
    right. injection Hin as ->. apply (authenticate_token_message m _ _ Ha).
  - intros [Hin%complaint_messages | Hin%list_elem_of_singleton]%elem_of_app; [by left|].
    subst w. apply window_of_total in Hw as [_ Hw].
    apply full_result_total in Hfull as [Hfull _]. rewrite Hfull in Hw. discriminate Hw.
Qed.

Lemma rejected_cluster r :
  query r "namespace" = EmptyString \/ query r "name" = EmptyString \/
  type_recognised (query r "type") = false ->
  cluster_of r = (EmptyString, EmptyString, EmptyString) /\ cluster_complaint r <> None.
Proof.
  unfold cluster_of, cluster_complaint, parseCluster, type_recognised.
  rewrite <- !nonempty_false, orb_false_iff.
  destruct (nonempty (query r "namespace")); cbn [negb fst snd]; [|done].
  destruct (nonempty (query r "name")); cbn [negb fst snd]; [|done].
  destruct (nonempty (query r "type")); cbn [negb fst snd]; [|done].
  intros [H | [H | [-> ->]]]; done.
Qed.

(** X15: a per-cluster handler goes on after [getClusterFromQuery] has
    rejected the request.  With [namespace] or [name] missing or a [type]
    that is not recognised, an authenticated caller is still checked: the
    get review is asked for a SveltosCluster with empty namespace and empty
    name, and if it is allowed the inventory is queried for the cluster
    with three empty strings.  The status stays 400. *)
Theorem rejected_cluster_is_still_checked
    (labels_Parse : string -> labels.Selector * option error)
    (m : instance) (e : Endpoint) (r : Request) (who : string) :
  per_cluster e = true ->
  query r "namespace" = EmptyString \/ query r "name" = EmptyString \/
  type_recognised (query r "type") = false ->
  authenticated m r who ->
  api_NewForConfig m = None ->
  let st := gin.serve (route labels_Parse m e) r in
  let sar := mkSAR "get" libsveltos_Group libsveltos_Version SveltosClusterKind
               EmptyString EmptyString who in
  requested_cluster r = Some (EmptyString, EmptyString, EmptyString) /\
  CallSubjectAccessReview sar ∈ calls st /\
  status (Writer (ctx st)) = StatusBadRequest /\
  (api_SubjectAccessReview m sar = inl true ->
   inventory_call e (EmptyString, EmptyString, EmptyString) true who ∈ calls st).
Proof.
  intros Hper [Hzero Hcomplaint]%rejected_cluster [tk Hau]%authenticated_AuthUser Hclient.
  cbn zeta. pose proof (serve_outcome labels_Parse m e r) as Hout.
  set (st := gin.serve _ _) in *.
  split; [by rewrite requested_cluster_of, Hzero|].
  assert (Hreview : review_of e r who =
    mkSAR "get" libsveltos_Group libsveltos_Version SveltosClusterKind
      EmptyString EmptyString who).
  { unfold review_of. by rewrite Hper, Hzero. }
  assert (Hcall : fetch_call e r true who =
    inventory_call e (EmptyString, EmptyString, EmptyString) true who).
  { by rewrite fetch_call_inventory_call, Hzero. }
  split; [|split].
  - clearbody st. rewrite <- Hreview.
    outcome_cases Hout; try congruence.
    1:{ rewrite Hau in Ha. subst o. discriminate Herr. }
    all: rewrite Hau in Ha; injection Ha as <- <-; project;
      unfold all_calls, access_calls, authn_calls; cbn [app]; in_list.
  - apply (outcome_status_complained _ _ _ _ _ Hout). by apply complained_cluster.
  - clearbody st. rewrite <- Hreview, <- Hcall. intros Hallowed.
    outcome_cases Hout; try congruence.
    1:{ rewrite Hau in Ha. subst o. discriminate Herr. }
    all: rewrite Hau in Ha; injection Ha as <- <-.
    all: assert (allowed = true) as -> by congruence.
    all: project; unfold all_calls, access_calls, authn_calls; cbn [app]; in_list.
Qed.

(** X16: the arguments of the inventory query.  Whenever a handler
    queries the inventory, the caller was authenticated, the permission
    check of the endpoint returned a verdict with a nil error, and the query
    carries that verdict and the user on the listing endpoints, and the
    cluster [getClusterFromQuery] returned on the per-cluster endpoints. *)
Theorem inventory_arguments
    (labels_Parse : string -> labels.Selector * option error)
    (m : instance) (e : Endpoint) (r : Request) (c : Call) :
  c ∈ calls (gin.serve (route labels_Parse m e) r) ->
  is_fetch c = true ->
  exists cluster user allowed,
    requested_cluster r = Some cluster /\
    authenticated m r user /\
    permission_check m e r user = Some (allowed, None) /\
    c = inventory_call e cluster allowed user.
Proof.
  pose proof (serve_outcome labels_Parse m e r) as Hout.
  set (st := gin.serve _ _) in *. clearbody st. intros Hc Hfetch.
  destruct (outcome_calls _ _ _ _ _ Hout)
    as [(tk & user & allowed & Hau & Hcfg & Hsar & _ & Hcs) | (Hno & _)].
  2:{ rewrite (Hno c Hc) in Hfetch. discriminate Hfetch. }
  exists (cluster_of r), user, allowed.
  split; [apply requested_cluster_of|].
  split; [apply authenticated_AuthUser; by exists tk|].
  split.
  { rewrite permission_check_result. unfold verdict_of. by rewrite Hcfg, Hsar. }
  rewrite <- fetch_call_inventory_call.
  rewrite Hcs in Hc. unfold all_calls, access_calls, authn_calls in Hc. cbn [app] in Hc.
  repeat (apply elem_of_cons in Hc as [-> | Hc]; [discriminate Hfetch|]).
  apply elem_of_cons in Hc as [-> | Hc]; [done | by apply elem_of_nil in Hc].
Qed.

(** X17: a listing handler whose filters cannot be parsed stops before
    authentication: it aborts with status 400 and the parse error as the
    only entry of [c.Errors], calls no collaborator, and writes no error
    object for the filters; the body holds only what
    [getLimitAndSkipFromQuery] complained about. *)
Theorem unparsable_filters_abort_listing
    (labels_Parse : string -> labels.Selector * option error)
    (m : instance) (e : Endpoint) (r : Request)
    (filters : clusterFilters) (failure : error) :
  per_cluster e = false ->
  fst (getClusterFiltersFromQuery labels_Parse (initial r)) = Some (filters, Some failure) ->
  let st := gin.serve (route labels_Parse m e) r in
  calls st = [] /\ Errors (ctx st) = [failure] /\ aborted (ctx st) = true /\
  status (Writer (ctx st)) = StatusBadRequest /\
  body (Writer (ctx st)) = complaint_bodies e r /\
  forall msg, H_error msg ∈ body (Writer (ctx st)) ->
    msg = "invalid limit parameter"%string \/ msg = "invalid skip parameter"%string.
Proof.
  intros Hper Hflt. rewrite getClusterFiltersFromQuery_run in Hflt. cbn [fst] in Hflt.
  cbn zeta. pose proof (serve_outcome labels_Parse m e r) as Hout.
  set (st := gin.serve _ _) in *. clearbody st.
  assert (Hfail : (filters_of labels_Parse r).2 = Some failure).
  { injection Hflt as Hflt. by rewrite Hflt. }
  assert (Hnot : ~ filters_accepted labels_Parse e r).
  { intros [H|H]; congruence. }
  outcome_cases Hout; try done; try congruence.
  rewrite Hfail in Hf. injection Hf as <-. project.
  repeat split; try done; [by destruct (complained e r)|].
  intros msg. unfold complaint_bodies.
  intros (msg' & [= <-] & (o & Ho & Hmsg)%list_elem_of_omap)%list_elem_of_fmap.
  cbn in Hmsg. subst o. revert Ho.
  destruct e; try discriminate Hper; cbn [complaints].
  all: intros [Ho | Ho%elem_of_nil]%elem_of_cons; [|done].
  all: revert Ho; unfold limit_skip_complaint, parseLimitAndSkip.
  all: destruct (if nonempty (query r "limit") then _ else _) as [limit [e1|]]; cbn [snd];
    [intros [= ->]; by left|].
  all: destruct (if nonempty (query r "skip") then _ else _) as [skip [e2|]]; cbn [snd];
    [intros [= ->]; by right | done].
Qed.

(** X18: when the inventory query fails, the handler aborts with the
    error of the query as the only entry of [c.Errors] and writes no result
    data; the query was the last call made.  The listing handlers answer
    401 then, the per-cluster handlers 400. *)
Theorem inventory_failure
    (labels_Parse : string -> labels.Selector * option error)
    (m : instance) (e : Endpoint) (r : Request)
    (cluster : string * string * ClusterType) (who : string) (verdict : bool)
    (failure : error) :
  filters_parsed labels_Parse e r ->
  authenticated m r who ->
  permission_check m e r who = Some (verdict, None) ->
  (per_cluster e = true -> verdict = true) ->
  requested_cluster r = Some cluster ->
  inventory_error m e cluster verdict who = Some failure ->
  let st := gin.serve (route labels_Parse m e) r in
  Errors (ctx st) = [failure] /\ aborted (ctx st) = true /\ no_result_data st /\
  last (calls st) = Some (inventory_call e cluster verdict who) /\
  status (Writer (ctx st)) =
    if complained e r then StatusBadRequest
    else if per_cluster e then StatusBadRequest else StatusUnauthorized.
Proof.
  intros Hfp%filters_parsed_accepted [tk Hau]%authenticated_AuthUser Hcheck Hallowed
    Hcluster Hinv.
  rewrite requested_cluster_of in Hcluster. injection Hcluster as <-.
  apply full_result_inventory_error with (labels_Parse := labels_Parse) in Hinv.
  rewrite permission_check_result in Hcheck. unfold verdict_of in Hcheck.
  rewrite <- fetch_call_inventory_call.
  cbn zeta. pose proof (serve_outcome labels_Parse m e r) as Hout.
  set (st := gin.serve _ _) in *. clearbody st.
  outcome_cases Hout.
  1:{ destruct Hfp; congruence. }
  1:{ congruence. }
  1:{ rewrite Hau in Ha. subst o. discriminate Herr. }
  all: rewrite Hau in Ha; injection Ha as <- <-.
  all: rewrite Hcfg in Hcheck; try rewrite Hsar in Hcheck; try discriminate Hcheck.
  all: injection Hcheck as Hcheck; try subst allowed.
  1:{ specialize (Hallowed He). congruence. }
  all: rewrite Hinv in Hfull; try discriminate Hfull. injection Hfull as <-.
  split; [by project|]. split; [by project|].
  split.
  { apply (no_result_data_complaints e r _ []);
      [project; by rewrite ?app_nil_r | by intros v Hv%elem_of_nil]. }
  split.
  { project. cbn [app]. unfold all_calls. by rewrite last_snoc. }
  project. destruct (complained e r); by destruct (per_cluster e).
Qed.

(** X19: a failed authentication is recorded twice.  [validateToken]
    records what went wrong in its own words, and the handler, which aborts
    again with the error returned, records the cause after it.  An error
    object is written to the body only when the token could not be
    extracted. *)
Theorem authentication_failure_is_recorded_twice
    (labels_Parse : string -> labels.Selector * option error)
    (m : instance) (e : Endpoint) (r : Request) (cause : error) :
  filters_parsed labels_Parse e r ->
  authentication_fails m r cause ->
  let st := gin.serve (route labels_Parse m e) r in
  exists classified,
    classified ∈ classified_messages /\
    Errors (ctx st) = [errorString classified; cause] /\
    (body (Writer (ctx st)) = complaint_bodies e r /\
     classified <> "failed to get token from authorization request"%string \/
     exists msg,
       msg ∈ token_messages /\ cause = errorString msg /\
       classified = "failed to get token from authorization request"%string /\
       body (Writer (ctx st)) = (complaint_bodies e r ++ [H_error msg])%list).
Proof.
  intros Hfp%filters_parsed_accepted [who Hfail]. rewrite validateToken_result in Hfail.
  cbn zeta. pose proof (serve_outcome labels_Parse m e r) as Hout.
  set (st := gin.serve _ _) in *. clearbody st.
  outcome_cases Hout; try (rewrite Ha in Hfail; discriminate Hfail).
  { destruct Hfp; congruence. }
  rewrite Ha in Hfail. unfold classified_messages.
  destruct o as [|msg|tk err'|tk err' reviewed|]; try discriminate Herr;
    cbn in Hfail, Herr; simplify_eq.
  - eexists. split; [|split; [by project|]]; [in_list|]. right. exists msg.
    split; [by eapply authenticate_token_message|]. by project.
  - eexists. split; [|split; [by project|]]; [in_list|]. left. by project.
  - eexists. split; [|split; [by project|]]; [in_list|]. left. by project.
Qed.

(** ** The further properties on sample requests *)

(** X12 on [/sveltosclusters] with the header [Basic], and on
    [/capiclusters] with the same header and a selector the parser
    refuses. *)
Lemma short_authorization_header_witness :
  let r := Sample.get [] (Some "Basic"%string) in
  let r' := Sample.get [("labels", "env in")]%string (Some "Basic"%string) in
  let refused := errorString "unable to parse requirement" in
  let st := gin.serve (route Sample.no_labels Sample.permissive sveltosclusters) r in
  let st' := gin.serve (route Sample.no_labels Sample.permissive capiclusters) r' in
  (short_header (header r "Authorization") /\
   filters_parsed Sample.no_labels sveltosclusters r /\
   calls st = [] /\ Errors (ctx st) = [] /\
   status (Writer (ctx st)) = StatusInternalServerError) /\
  (short_header (header r' "Authorization") /\
   fst (getClusterFiltersFromQuery Sample.no_labels (initial r')) =
     Some (mkClusterFilters EmptyString EmptyString [], Some refused) /\
   calls st' = [] /\ Errors (ctx st') = [refused] /\
   status (Writer (ctx st')) = StatusBadRequest).
Proof.
  cbn zeta. split.
  - set (r := Sample.get _ _).
    assert (Hfp : filters_parsed Sample.no_labels sveltosclusters r)
      by (right; eexists; vm_compute; reflexivity).
    assert (Hshort : short_header (header r "Authorization"))
      by (split; [vm_compute; discriminate | vm_compute; lia]).
    destruct (short_authorization_header Sample.no_labels Sample.permissive
                sveltosclusters r Hshort) as (_ & Hcalls & _ & _ & _ & Hpanic & _).
    destruct (Hpanic Hfp) as [Herrors Hstatus].
    split; [exact Hshort|]. split; [exact Hfp|]. split; [exact Hcalls|].
    split; [exact Herrors | exact Hstatus].
  - set (r := Sample.get _ _).
    assert (Hf : fst (getClusterFiltersFromQuery Sample.no_labels (initial r)) =
                 Some (mkClusterFilters EmptyString EmptyString [],
                       Some (errorString "unable to parse requirement")))
      by (vm_compute; reflexivity).
    assert (Hshort : short_header (header r "Authorization"))
      by (split; [vm_compute; discriminate | vm_compute; lia]).
    destruct (short_authorization_header Sample.no_labels Sample.permissive
                capiclusters r Hshort) as (_ & Hcalls & _ & _ & _ & _ & Hunparsed).
    destruct (Hunparsed _ (conj eq_refl (ex_intro _ _ Hf))) as [Herrors Hstatus].
    split; [exact Hshort|]. split; [exact Hf|]. split; [exact Hcalls|].
    split; [exact Herrors | exact Hstatus].
Defined.

(** X14 on [/helmcharts] without parameters and without credentials. *)
Lemma error_objects_in_body_witness :
  let r := Sample.get [] None in
  H_error "namespace is required" ∈
    body (Writer (ctx (gin.serve (route Sample.no_labels Sample.permissive helmcharts) r))) /\
  "namespace is required"%string ∈ (parser_messages ++ token_messages)%list.
Proof.
  cbn zeta. set (r := Sample.get _ _).
  assert (Hin : H_error "namespace is required" ∈
                body (Writer (ctx (gin.serve
                  (route Sample.no_labels Sample.permissive helmcharts) r))))
    by (vm_compute; left).
  split; [exact Hin|].
  exact (error_objects_in_body Sample.no_labels Sample.permissive helmcharts r _ Hin).
Defined.

(** X15 on [/helmcharts] without the [namespace] parameter. *)
Lemma rejected_cluster_is_still_checked_witness :
  let r := Sample.get [("name", "c1"); ("type", "capi")]%string Sample.bearer in
  let st := gin.serve (route Sample.no_labels Sample.permissive helmcharts) r in
  (query r "namespace" = EmptyString /\ authenticated Sample.permissive r "alice") /\
  CallSubjectAccessReview
    (mkSAR "get" libsveltos_Group libsveltos_Version SveltosClusterKind
       EmptyString EmptyString "alice") ∈ calls st /\
  status (Writer (ctx st)) = StatusBadRequest /\
  CallHelmCharts EmptyString EmptyString EmptyString ∈ calls st.
Proof.
  cbn zeta. set (r := Sample.get _ _).
  assert (Hns : query r "namespace" = EmptyString) by (vm_compute; reflexivity).
  assert (Hauth : authenticated Sample.permissive r "alice") by (vm_compute; reflexivity).
  destruct (rejected_cluster_is_still_checked Sample.no_labels Sample.permissive helmcharts r
              "alice" eq_refl (or_introl Hns) Hauth eq_refl)
    as (_ & Hreview & Hstatus & Hfetch).
  split; [by split|]. split; [exact Hreview|]. split; [exact Hstatus|].
  exact (Hfetch eq_refl).
Defined.

(** X16 on [/sveltosclusters] for a caller the list review denies. *)
Lemma inventory_arguments_witness :
  let r := Sample.get [] Sample.bearer in
  let c := CallManagedSveltosClusters false "alice" in
  (c ∈ calls (gin.serve (route Sample.no_labels Sample.denying sveltosclusters) r) /\
   is_fetch c = true) /\
  exists cluster user allowed,
    requested_cluster r = Some cluster /\
    authenticated Sample.denying r user /\
    permission_check Sample.denying sveltosclusters r user = Some (allowed, None) /\
    c = inventory_call sveltosclusters cluster allowed user.
Proof.
  cbn zeta. set (r := Sample.get _ _).
  assert (Hin : CallManagedSveltosClusters false "alice" ∈
                calls (gin.serve (route Sample.no_labels Sample.denying sveltosclusters) r))
    by (vm_compute; do 3 right; left).
  split; [by split|].
  exact (inventory_arguments Sample.no_labels Sample.denying sveltosclusters r _ Hin eq_refl).
Defined.

(** X17 on [/capiclusters] with a selector the parser refuses. *)
Lemma unparsable_filters_abort_listing_witness :
  let r := Sample.get [("labels", "env in")]%string Sample.bearer in
  let refused := errorString "unable to parse requirement" in
  let st := gin.serve (route Sample.no_labels Sample.permissive capiclusters) r in
  fst (getClusterFiltersFromQuery Sample.no_labels (initial r)) =
    Some (mkClusterFilters EmptyString EmptyString [], Some refused) /\
  calls st = [] /\ Errors (ctx st) = [refused] /\
  status (Writer (ctx st)) = StatusBadRequest.
Proof.
  cbn zeta. set (r := Sample.get _ _).
  assert (Hf : fst (getClusterFiltersFromQuery Sample.no_labels (initial r)) =
               Some (mkClusterFilters EmptyString EmptyString [],
                     Some (errorString "unable to parse requirement")))
    by (vm_compute; reflexivity).
  destruct (unparsable_filters_abort_listing Sample.no_labels Sample.permissive capiclusters r
              _ _ eq_refl Hf) as (Hcalls & Herrors & _ & Hstatus & _).
  split; [exact Hf|]. split; [exact Hcalls|]. split; [exact Herrors | exact Hstatus].
Defined.

(** X18 on [/capiclusters] over an inventory that cannot be read. *)
Lemma inventory_failure_witness :
  let r := Sample.get [] Sample.bearer in
  let unavailable := StatusError "inventory unavailable" in
  let zero := (EmptyString, EmptyString, EmptyString) in
  let st := gin.serve (route Sample.no_labels broken_inventory capiclusters) r in
  (filters_parsed Sample.no_labels capiclusters r /\
   authenticated broken_inventory r "alice" /\
   permission_check broken_inventory capiclusters r "alice" = Some (true, None) /\
   requested_cluster r = Some zero /\
   inventory_error broken_inventory capiclusters zero true "alice" = Some unavailable) /\
  Errors (ctx st) = [unavailable] /\
  status (Writer (ctx st)) = StatusUnauthorized.
Proof.
  cbn zeta. set (r := Sample.get _ _).
  assert (Hfp : filters_parsed Sample.no_labels capiclusters r)
    by (right; eexists; vm_compute; reflexivity).
  assert (Hauth : authenticated broken_inventory r "alice") by (vm_compute; reflexivity).
  assert (Hcheck : permission_check broken_inventory capiclusters r "alice" =
                   Some (true, None)) by (vm_compute; reflexivity).
  assert (Hzero : requested_cluster r = Some (EmptyString, EmptyString, EmptyString))
    by (vm_compute; reflexivity).
  assert (Hinv : inventory_error broken_inventory capiclusters
                   (EmptyString, EmptyString, EmptyString) true "alice" =
                 Some (StatusError "inventory unavailable")) by reflexivity.
  destruct (inventory_failure Sample.no_labels broken_inventory capiclusters r _ _ _ _
              Hfp Hauth Hcheck (fun _ => eq_refl) Hzero Hinv)
    as (Herrors & _ & _ & _ & Hstatus).
  split; [by repeat split|]. split; [exact Herrors | exact Hstatus].
Defined.

(** X19 on [/resources] without credentials. *)
Lemma authentication_failure_is_recorded_twice_witness :
  let r := Sample.get [("namespace", "ns"); ("name", "c1"); ("type", "capi")]%string None in
  let cause := errorString "authorization header is missing" in
  (filters_parsed Sample.no_labels resources r /\
   authentication_fails Sample.permissive r cause) /\
  exists classified,
    classified ∈ classified_messages /\
    Errors (ctx (gin.serve (route Sample.no_labels Sample.permissive resources) r)) =
      [errorString classified; cause].
Proof.
  cbn zeta. set (r := Sample.get _ _).
  assert (Hfp : filters_parsed Sample.no_labels resources r) by (left; reflexivity).
  assert (Hfail : authentication_fails Sample.permissive r
                    (errorString "authorization header is missing"))
    by (exists EmptyString; vm_compute; reflexivity).
  destruct (authentication_failure_is_recorded_twice Sample.no_labels Sample.permissive
              resources r _ Hfp Hfail) as (classified & Hin & Herrors & _).
  split; [by split|]. by exists classified.
Defined.

(** ** Parameters a handler does not read *)

Lemma response_abort_with code err st st' :
  response st = response st' ->
  response (abort_with code err st) = response (abort_with code err st').
Proof. unfold response. intros [= Hw Ha He Hc]. cbn. by rewrite Hw, He, Hc. Qed.

Lemma response_wr f st st' :
  response st = response st' -> response (wr f st) = response (wr f st').
Proof. unfold response. intros [= Hw Ha He Hc]. cbn. by rewrite Hw, Ha, He, Hc. Qed.

Lemma response_add_calls l st st' :
  response st = response st' -> response (add_calls l st) = response (add_calls l st').
Proof. unfold response. intros [= Hw Ha He Hc]. cbn. by rewrite Hw, Ha, He, Hc. Qed.

Lemma response_recover st st' :
  response st = response st' -> response (recover st) = response (recover st').
Proof. unfold response. intros [= Hw Ha He Hc]. cbn. by rewrite Hw, He, Hc. Qed.

Ltac response_step :=
  repeat first [ apply response_abort_with | apply response_wr
               | apply response_add_calls | apply response_recover ].

Lemma response_final_state labels_Parse labels_Parse' m e r r' :
  per_cluster e = true ->
  header r "Authorization" = header r' "Authorization" ->
  complaints e r = complaints e r' ->
  limit_skip r = limit_skip r' ->
  cluster_of r = cluster_of r' ->
  (e = getClusterStatus_route -> failed_of r = failed_of r') ->
  response (final_state labels_Parse m e r) = response (final_state labels_Parse' m e r').
Proof.
  intros Hper Hh Hcomplaints Hls Hcl Hfailed.
  assert (Hst : response (st_params e r) = response (st_params e r')).
  { unfold st_params. by rewrite Hcomplaints. }
  assert (Hreview : forall user, review_of e r user = review_of e r' user).
  { intros user. unfold review_of. by rewrite Hper, Hcl. }
  assert (Hfetch : forall a u, fetch_call e r a u = fetch_call e r' a u).
  { intros a u. unfold fetch_call. by rewrite Hcl. }
  assert (Hfull : forall a u, full_result labels_Parse m e r a u =
                              full_result labels_Parse' m e r' a u).
  { intros a u. unfold full_result. rewrite Hcl.
    destruct (cluster_of r') as [[namespace name] clusterType].
    destruct e; try discriminate Hper; try done. by rewrite Hfailed. }
  unfold final_state. rewrite Hper, <- Hh.
  destruct (authenticate m (header r "Authorization")) as [|msg|tk err|tk err b|tk user];
    cbn [auth_error auth_state]; response_step; try done.
  unfold after_authentication. rewrite <- Hreview.
  destruct (check m (review_of e r user)) as [[allowed oerr] cs].
  destruct oerr as [err|]; [by response_step|].
  destruct (per_cluster e && negb allowed); [by response_step|].
  unfold after_access. rewrite <- Hfetch, <- Hfull, <- Hls.
  destruct (full_result labels_Parse m e r allowed user) as [full|err]; [|by response_step].
  destruct (window_of full _ _) as [v [err|]]; by response_step.
Qed.

(** X20: a per-cluster handler depends on the request only through the
    Authorization header and the query parameters its three parsers read.
    Two requests that agree on those get the same response, abort flag,
    recorded errors and calls, whatever else they carry; the [labels]
    parameter, for one, has no effect on these endpoints. *)
Theorem per_cluster_parameters
    (labels_Parse labels_Parse' : string -> labels.Selector * option error)
    (m : instance) (e : Endpoint) (r r' : Request) :
  per_cluster e = true ->
  header r "Authorization" = header r' "Authorization" ->
  (forall k, k ∈ parameters_read e -> query r k = query r' k) ->
  response (gin.serve (route labels_Parse m e) r) =
  response (gin.serve (route labels_Parse' m e) r').
Proof.
  intros Hper Hh Hq. rewrite !serve_final.
  assert (Hcommon : forall k, k ∈ ["limit"; "skip"; "namespace"; "name"; "type"]%string ->
                              query r k = query r' k).
  { intros k Hk. apply Hq. destruct e; try discriminate Hper; cbn [parameters_read];
      try done. by right. }
  assert (Hls : parseLimitAndSkip (query r "limit") (query r "skip") =
                parseLimitAndSkip (query r' "limit") (query r' "skip")).
  { rewrite (Hcommon "limit"%string), (Hcommon "skip"%string) by in_list. done. }
  assert (Hcl : parseCluster (query r "namespace") (query r "name") (query r "type") =
                parseCluster (query r' "namespace") (query r' "name") (query r' "type")).
  { rewrite (Hcommon "namespace"%string), (Hcommon "name"%string),
      (Hcommon "type"%string) by in_list. done. }
  apply response_final_state; try done.
  - unfold complaints, limit_skip_complaint, cluster_complaint, failed_complaint.
    rewrite Hls, Hcl. destruct e; try discriminate Hper; try done.
    rewrite (Hq "failed"%string) by (cbn [parameters_read]; in_list). done.
  - unfold limit_skip. by rewrite Hls.
  - unfold cluster_of. by rewrite Hcl.
  - intros ->. unfold failed_of.
    rewrite (Hq "failed"%string) by (cbn [parameters_read]; in_list). done.
Qed.

(** X20 on [/helmcharts] with and without a [labels] parameter. *)
Lemma per_cluster_parameters_witness :
  let q := [("namespace", "ns"); ("name", "c1"); ("type", "capi")]%string in
  let r := Sample.get q Sample.bearer in
  let r' := Sample.get (("labels", "env=prod")%string :: q) Sample.bearer in
  (header r "Authorization" = header r' "Authorization" /\
   forall k, k ∈ parameters_read helmcharts -> query r k = query r' k) /\
  response (gin.serve (route Sample.no_labels Sample.permissive helmcharts) r) =
  response (gin.serve (route Sample.no_labels Sample.permissive helmcharts) r').
Proof.
  cbn zeta.
  set (r := Sample.get _ Sample.bearer).
  set (r' := Sample.get (_ :: _) Sample.bearer).
  assert (Hh : header r "Authorization" = header r' "Authorization") by reflexivity.
  assert (Hq : forall k, k ∈ parameters_read helmcharts -> query r k = query r' k).
  { intros k Hk. cbn [parameters_read] in Hk.
    repeat (apply elem_of_cons in Hk as [-> | Hk]; [vm_compute; reflexivity|]).
    by apply elem_of_nil in Hk. }
  split; [by split|].
  exact (per_cluster_parameters Sample.no_labels Sample.no_labels Sample.permissive
           helmcharts r r' eq_refl Hh Hq).
Defined.
